(** * LinguaFlow: the vocabulary store, the exam scorer and the AI service layer

    A shallow embedding of the TypeScript sources:
    - [App.tsx]: the saved-word handlers of the application state store;
    - [components/ExamMode.tsx]: [calculateResult];
    - [services/geminiService.ts]: [cleanJsonText], [callAI] and the domain
      operations built on them.

    JavaScript strings are modelled by [string], read as sequences of code
    units below 256 (Latin-1); the strings inside a value read by
    [JSON.parse], which an escape can fill with any code unit, are lists of
    16-bit code units.  Numbers that only ever hold counters, indices or
    timestamps are modelled by [Z]; the score of an exam is a double. *)

From Stdlib Require Import String Ascii List ZArith QArith Lia Bool Arith.
From Stdlib Require Import DecimalString Permutation Qround Qpower Qabs Lqa.
From Stdlib Require SpecFloat.
Import ListNotations.

Local Open Scope string_scope.
Local Open Scope Z_scope.

Set Warnings "-register-all,-abstract-large-number".

(** ** JavaScript string primitives *)

Module Js.

(** [String.prototype.toLowerCase] on Latin-1 code units: [A-Z] and the
    accented capitals U+00C0..U+00DE (the multiplication sign U+00D7 apart)
    move up by 32, every other unit is left alone. *)
Definition lower_unit (c : ascii) : ascii :=
  let n := nat_of_ascii c in
  if (((65 <=? n) && (n <=? 90)) ||
      ((192 <=? n) && (n <=? 222) && negb (n =? 215)))%nat
  then ascii_of_nat (n + 32) else c.

Fixpoint toLowerCase (s : string) : string :=
  match s with
  | EmptyString => EmptyString
  | String c r => String (lower_unit c) (toLowerCase r)
  end.

(** [Number.prototype.toString] on an integer value. *)
Definition toString (z : Z) : string := NilZero.string_of_int (Z.to_int z).

(** [xs[i]] for a numeric index: [undefined] (here [None]) outside the array. *)
Definition index {A} (xs : list A) (i : Z) : option A :=
  if i <? 0 then None else nth_error xs (Z.to_nat i).

(** The white space of [trim] and of the regular-expression class [\s], as far
    as it lies below 256: tab, line feed, vertical tab, form feed, carriage
    return, space and the no-break space. *)
Definition is_space (c : ascii) : bool :=
  let n := nat_of_ascii c in
  (((9 <=? n) && (n <=? 13)) || (n =? 32) || (n =? 160))%nat.

Fixpoint trimStart (s : string) : string :=
  match s with
  | String c r => if is_space c then trimStart r else s
  | EmptyString => s
  end.

Fixpoint trimEnd (s : string) : string :=
  match s with
  | EmptyString => EmptyString
  | String c r =>
      match trimEnd r with
      | EmptyString => if is_space c then EmptyString else String c EmptyString
      | r' => String c r'
      end
  end.

Definition trim (s : string) : string := trimEnd (trimStart s).

Definition startsWith (s p : string) : bool := String.prefix p s.

Definition endsWith (s p : string) : bool :=
  let n := String.length s in
  let k := String.length p in
  ((k <=? n) && String.eqb (substring (n - k) k s) p)%nat.

(** [xs.slice(-n)]: the last [n] elements. *)
Definition lastN {A} (n : nat) (xs : list A) : list A :=
  skipn (length xs - n) xs.

(** [xs.join(sep)]. *)
Definition join (sep : string) (xs : list string) : string := String.concat sep xs.

(** A string held by a parsed JSON value: the list of its UTF-16 code
    units.  [wide] is the embedding of the Latin-1 texts. *)
Definition units : Type := list N.

Fixpoint wide (s : string) : units :=
  match s with
  | EmptyString => []
  | String c r => N_of_ascii c :: wide r
  end.

(** [a === b] on two such strings. *)
Fixpoint sameUnits (a b : units) : bool :=
  match a, b with
  | [], [] => true
  | x :: a', y :: b' => N.eqb x y && sameUnits a' b'
  | _, _ => false
  end.

(** The lower-case form of a code unit, when that is one unit below 256.
    Above U+00FF only four characters have their lower-case form in Latin-1:
    U+0178 (y with diaeresis), U+1E9E (sharp s), U+212A (the Kelvin sign)
    and U+212B (the Angstrom sign). *)
Definition lowerLatin1 (u : N) : option ascii :=
  if (u <? 256)%N then Some (lower_unit (ascii_of_N u))
  else if (u =? 376)%N then Some (ascii_of_nat 255)
  else if (u =? 7838)%N then Some (ascii_of_nat 223)
  else if (u =? 8490)%N then Some (ascii_of_nat 107)
  else if (u =? 8491)%N then Some (ascii_of_nat 229)
  else None.

(** [o.toLowerCase() === t] for a Latin-1 text [t]. *)
Fixpoint lowerIs (o : units) (t : string) : bool :=
  match o, t with
  | [], EmptyString => true
  | u :: o', String c t' =>
      match lowerLatin1 u with
      | Some d => Ascii.eqb d c && lowerIs o' t'
      | None => false
      end
  | _, _ => false
  end.

End Js.

(** ** Doubles *)

(** The finite doubles are rational numbers; an operation on doubles is the
    exact operation followed by [round], the rounding of IEEE 754 binary64 to
    the nearest double, ties to even.  There is no infinite double here: a
    result of [2^1024] or more stands for one. *)
Module Double.

(** [floor (log2 x)] for [x > 0]. *)
Definition ilog2 (x : Q) : Z :=
  let a := Qnum x in
  let b := Zpos (Qden x) in
  let k := Z.log2 a - Z.log2 b in
  if b * 2 ^ Z.max 0 k <=? a * 2 ^ Z.max 0 (- k) then k else k - 1.

(** The exponent of the last place of the doubles next to [x]: 52 below
    that of [x] for the 53 bits of precision, and never below -1074, where
    the subnormal doubles lie. *)
Definition lastPlace (x : Q) : Z := Z.max (ilog2 (Qabs x) - 52) (-1074).

(** The integer nearest to [q], the even one of the two when [q] lies half
    way. *)
Definition roundEven (q : Q) : Z :=
  let f := Qfloor q in
  match (q - inject_Z f ?= 1 # 2)%Q with
  | Lt => f
  | Gt => f + 1
  | Eq => if Z.even f then f else f + 1
  end.

Definition round (x : Q) : Q :=
  if Qeq_bool x 0 then 0%Q
  else (inject_Z (roundEven (x / 2 ^ lastPlace x)) * 2 ^ lastPlace x)%Q.

(** [x / y] and [x * y] on doubles, for [y] other than zero. *)
Definition div (x y : Q) : Q := round (x / y).
Definition mul (x y : Q) : Q := round (x * y).

(** The same percentage [(c / n) * 100] computed with the Standard
    Library's specification of binary64, for comparison. *)
Definition ofZ (z : Z) : SpecFloat.spec_float :=
  SpecFloat.binary_normalize 53 1024 z 0 false.

Definition valueOf (f : SpecFloat.spec_float) : option Q :=
  match f with
  | SpecFloat.S754_zero _ => Some 0%Q
  | SpecFloat.S754_finite s m e =>
      Some (inject_Z (if s then Z.neg m else Z.pos m) * 2 ^ e)%Q
  | _ => None
  end.

Definition percentBySpecFloat (c n : Z) : option Q :=
  valueOf (SpecFloat.SFmul 53 1024
             (SpecFloat.SFdiv 53 1024 (ofZ c) (ofZ n)) (ofZ 100)).

End Double.

(** ** types.ts *)

Record WordDefinition := {
  word : string;
  phonetic : string;
  chineseMeaning : string;
  englishDefinition : string;
  exampleSentence : string;
  partOfSpeech : string;
  level : string;
  synonyms : option (list string);
  antonyms : option (list string);
  relatedWords : option (list string)
}.

(** [SavedWord extends WordDefinition]: the inherited fields are reached
    through the coercion. *)
Record SavedWord := {
  definition :> WordDefinition;
  sw_id : string;
  dateLearned : Z;
  reviewCount : Z
}.

Inductive QuestionType :=
  | FillBlank | PhoneticMatch | TranslationEnZh | TranslationZhEn.

Record QuizQuestion := {
  q_id : string;
  q_type : QuestionType;
  question : string;
  options : list string;
  correctOptionIndex : Z;
  explanation : option string
}.

Record Mistake := {
  m_question : string;
  correctAns : option string      (* [q.options[q.correctOptionIndex]] *)
}.

Record ExamResult := {
  r_id : string;
  r_date : Z;
  score : Q;                      (* a double *)
  totalQuestions : Z;
  mistakes : list Mistake;
  r_type : string
}.

(** ** App.tsx: the saved-word collection *)

Section Store.

(** The predicate of [prev.find] in [handleSaveWord]. *)
Definition sameText (w w' : SavedWord) : bool :=
  String.eqb (Js.toLowerCase (word w')) (Js.toLowerCase (word w)).

Definition handleSaveWord (w : SavedWord) (prev : list SavedWord)
  : list SavedWord :=
  match find (sameText w) prev with
  | Some _ => prev                      (* Avoid duplicates *)
  | None => w :: prev
  end.

Definition handleQuizResult (wordId : string) (success : bool)
    (prev : list SavedWord) : list SavedWord :=
  map (fun w =>
         if String.eqb (sw_id w) wordId then
           {| definition := definition w;
              sw_id := sw_id w;
              dateLearned := dateLearned w;
              reviewCount := if success then reviewCount w + 1
                             else Z.max 0 (reviewCount w - 1) |}
         else w) prev.

Definition handleDeleteWord (id : string) (prev : list SavedWord)
  : list SavedWord :=
  filter (fun w => negb (String.eqb (sw_id w) id)) prev.

(** The three updates [setSavedWords] receives after start-up. *)
Inductive StoreOp :=
  | OpSave (w : SavedWord)
  | OpQuizResult (wordId : string) (success : bool)
  | OpDelete (id : string).

Definition applyOp (prev : list SavedWord) (op : StoreOp) : list SavedWord :=
  match op with
  | OpSave w => handleSaveWord w prev
  | OpQuizResult i ok => handleQuizResult i ok prev
  | OpDelete i => handleDeleteWord i prev
  end.

(** [useState<SavedWord[]>([])] followed by a sequence of updates. *)
Definition runOps (ops : list StoreOp) : list SavedWord :=
  fold_left applyOp ops [].

(** The object every view hands to [onSaveWord]:
    [{...def, id: Date.now().toString(), dateLearned: Date.now(), reviewCount: 0}]
    (QuickTranslator, GlobalTranslator and ArticleReader alike). *)
Definition newSavedWord (def : WordDefinition) (now1 now2 : Z) : SavedWord :=
  {| definition := def;
     sw_id := Js.toString now1;
     dateLearned := now2;
     reviewCount := 0 |}.

(** What the user interface can do to the collection. *)
Inductive UserAction :=
  | SaveDefinition (def : WordDefinition) (now1 now2 : Z)
  | AnswerQuiz (wordId : string) (success : bool)
  | DeleteWord (id : string).

Definition opOf (a : UserAction) : StoreOp :=
  match a with
  | SaveDefinition d t1 t2 => OpSave (newSavedWord d t1 t2)
  | AnswerQuiz i ok => OpQuizResult i ok
  | DeleteWord i => OpDelete i
  end.

Definition runActions (acts : list UserAction) : list SavedWord :=
  runOps (map opOf acts).

(** Lower-cased word texts held by the collection, and how many entries
    carry the text of [w]. *)
Definition texts (st : list SavedWord) : list string :=
  map (fun w : SavedWord => Js.toLowerCase (word w)) st.

Definition countText (w : SavedWord) (st : list SavedWord) : nat :=
  length (filter (sameText w) st).

End Store.

(** ** components/ExamMode.tsx *)

Section ExamMode.

(** [answers[idx] === q.correctOptionIndex]; an index past the end of
    [answers] reads [undefined], which equals no number. *)
Definition isCorrect (answers : list Z) (idx : nat) (q : QuizQuestion) : bool :=
  match nth_error answers idx with
  | Some a => a =? correctOptionIndex q
  | None => false
  end.

(** One turn of the [questions.forEach((q, idx) => ...)] loop over the
    accumulators [score] and [mistakes]. *)
Definition gradeStep (answers : list Z) (acc : Z * list Mistake)
    (qi : nat * QuizQuestion) : Z * list Mistake :=
  let '(idx, q) := qi in
  let '(sc, ms) := acc in
  if isCorrect answers idx q then (sc + 1, ms)
  else (sc, (ms ++ [ {| m_question := question q;
                        correctAns := Js.index (options q) (correctOptionIndex q) |} ])%list).

Definition indexed {A} (xs : list A) : list (nat * A) :=
  combine (seq 0 (length xs)) xs.

Definition grade (questions : list QuizQuestion) (answers : list Z)
  : Z * list Mistake :=
  fold_left (gradeStep answers) (indexed questions) (0, []).

(** [calculateResult]; [now1] and [now2] are the two readings of
    [Date.now()].  The score is [(score / questions.length) * 100] on
    doubles: the counter and the length are integers, which are doubles as
    they are, the quotient is rounded, and so is its product with 100. *)
Definition calculateResult (questions : list QuizQuestion) (answers : list Z)
    (now1 now2 : Z) : ExamResult :=
  let '(sc, ms) := grade questions answers in
  {| r_id := Js.toString now1;
     r_date := now2;
     score := Double.mul (Double.div (inject_Z sc)
                                     (inject_Z (Z.of_nat (length questions))))
                         100;
     totalQuestions := Z.of_nat (length questions);
     mistakes := ms;
     r_type := "General AI Quiz" |}.

(** The count the specification speaks of: the positions [i] with
    [answers[i] == questions[i].correctOptionIndex]. *)
Definition rightAt (answers : list Z) (qi : nat * QuizQuestion) : bool :=
  isCorrect answers (fst qi) (snd qi).

Definition wrongAt (answers : list Z) (qi : nat * QuizQuestion) : bool :=
  negb (rightAt answers qi).

Definition correctCount (questions : list QuizQuestion) (answers : list Z) : nat :=
  length (filter (rightAt answers) (indexed questions)).

Definition missed (questions : list QuizQuestion) (answers : list Z)
  : list QuizQuestion :=
  map snd (filter (wrongAt answers) (indexed questions)).

Definition mistakeOf (q : QuizQuestion) : Mistake :=
  {| m_question := question q;
     correctAns := Js.index (options q) (correctOptionIndex q) |}.

End ExamMode.

(** ** JSON values and [JSON.parse] *)

Module Json.

(** A JSON number is kept as the decimal [m * 10^e] its literal denotes,
    normalised so that [m] has no trailing zero ([0] is [JNumber 0 0]); the
    number it stands for is the double nearest to that, [numberValue]. *)
Inductive json :=
  | JNull
  | JBool (b : bool)
  | JNumber (m e : Z)
  | JString (s : Js.units)
  | JArray (items : list json)
  | JObject (fields : list (Js.units * json)).

Definition numberValue (m e : Z) : Q := Double.round (inject_Z m * 10 ^ e)%Q.

Inductive parsed (A : Type) :=
  | Parsed (a : A) (rest : string)
  | SyntaxErr
  | OutOfFuel.
Arguments Parsed {A} a rest.
Arguments SyntaxErr {A}.
Arguments OutOfFuel {A}.

Definition code (c : ascii) : nat := nat_of_ascii c.

Definition quote : ascii := ascii_of_nat 34.
Definition backslash : ascii := ascii_of_nat 92.

(** JSON insignificant whitespace: space, tab, line feed, carriage return. *)
Definition is_ws (c : ascii) : bool :=
  let n := code c in
  ((n =? 32) || (n =? 9) || (n =? 10) || (n =? 13))%nat.

Fixpoint skip_ws (s : string) : string :=
  match s with
  | String c r => if is_ws c then skip_ws r else s
  | EmptyString => s
  end.

Fixpoint strip_prefix (p s : string) : option string :=
  match p, s with
  | EmptyString, _ => Some s
  | String a p', String b s' =>
      if Ascii.eqb a b then strip_prefix p' s' else None
  | String _ _, EmptyString => None
  end.

Definition digit_of (c : ascii) : option Z :=
  let n := code c in
  if ((48 <=? n) && (n <=? 57))%nat then Some (Z.of_nat (n - 48)) else None.

Definition hex_of (c : ascii) : option nat :=
  let n := code c in
  if ((48 <=? n) && (n <=? 57))%nat then Some (n - 48)%nat
  else if ((65 <=? n) && (n <=? 70))%nat then Some (n - 55)%nat
  else if ((97 <=? n) && (n <=? 102))%nat then Some (n - 87)%nat
  else None.

(** The longest run of decimal digits at the head of [s]. *)
Fixpoint digits (s : string) : list Z * string :=
  match s with
  | String c r =>
      match digit_of c with
      | Some d => let '(ds, rest) := digits r in (d :: ds, rest)
      | None => ([], s)
      end
  | EmptyString => ([], s)
  end.

Definition value_of (ds : list Z) : Z :=
  fold_left (fun acc d => 10 * acc + d) ds 0.

(** Drops the zeros at the head of a reversed digit list, counting them. *)
Fixpoint drop_zeros (rds : list Z) : Z * list Z :=
  match rds with
  | d :: r => if d =? 0
              then let '(k, r') := drop_zeros r in (k + 1, r')
              else (0, rds)
  | [] => (0, [])
  end.

Definition number_of (neg : bool) (ds : list Z) (e : Z) : json :=
  let '(k, rds) := drop_zeros (rev ds) in
  let m := value_of (rev rds) in
  if m =? 0 then JNumber 0 0
  else JNumber (if neg then - m else m) (e + k).

(** The three parts of a number after the optional minus sign: [int],
    [frac?] and [exp?], each with the text left over. *)
Definition int_part (s : string) : option (list Z * string) :=
  match s with
  | String c r =>
      match digit_of c with
      | Some d => if d =? 0 then Some ([0], r) else Some (digits s)
      | None => None
      end
  | EmptyString => None
  end.

Definition frac_part (s : string) : option (list Z * string) :=
  match s with
  | String c r =>
      if Ascii.eqb c "." then
        match digits r with
        | ([], _) => None
        | (fds, r2) => Some (fds, r2)
        end
      else Some ([], s)
  | EmptyString => Some ([], s)
  end.

Definition signed (s : string) : Z * string :=
  match s with
  | String c r =>
      if Ascii.eqb c "+" then (1, r)
      else if Ascii.eqb c "-" then (-1, r)
      else (1, s)
  | EmptyString => (1, s)
  end.

Definition exp_part (s : string) : option (Z * string) :=
  match s with
  | String c r =>
      if Ascii.eqb c "e" || Ascii.eqb c "E" then
        let '(sgn, r1) := signed r in
        match digits r1 with
        | ([], _) => None
        | (eds, r2) => Some (sgn * value_of eds, r2)
        end
      else Some (0, s)
  | EmptyString => Some (0, s)
  end.

Definition parse_number (neg : bool) (s : string) : option (json * string) :=
  match int_part s with
  | None => None
  | Some (ids, r1) =>
      match frac_part r1 with
      | None => None
      | Some (fds, r2) =>
          match exp_part r2 with
          | None => None
          | Some (e, r3) =>
              Some (number_of neg (ids ++ fds)%list (e - Z.of_nat (length fds)), r3)
          end
      end
  end.

(** The code unit a two-character escape stands for. *)
Definition escape_of (e : ascii) : option nat :=
  if Ascii.eqb e quote then Some 34%nat
  else if Ascii.eqb e backslash then Some 92%nat
  else if Ascii.eqb e "/" then Some 47%nat
  else if Ascii.eqb e "b" then Some 8%nat
  else if Ascii.eqb e "f" then Some 12%nat
  else if Ascii.eqb e "n" then Some 10%nat
  else if Ascii.eqb e "r" then Some 13%nat
  else if Ascii.eqb e "t" then Some 9%nat
  else None.

Definition hex4 (h1 h2 h3 h4 : ascii) : option nat :=
  match hex_of h1, hex_of h2, hex_of h3, hex_of h4 with
  | Some a, Some b, Some c, Some d => Some (((a * 16 + b) * 16 + c) * 16 + d)%nat
  | _, _, _, _ => None
  end.

Definition cons_unit (u : N) (p : option (Js.units * string))
  : option (Js.units * string) :=
  match p with
  | Some (t, rest) => Some (u :: t, rest)
  | None => None
  end.

(** The characters of a string literal after its opening quote.  An escape
    [\uXXXX] stands for the code unit it names, whatever that is. *)
Fixpoint parse_chars (s : string) : option (Js.units * string) :=
  match s with
  | EmptyString => None
  | String c r =>
      if Ascii.eqb c quote then Some ([], r)
      else if Ascii.eqb c backslash then
        match r with
        | EmptyString => None
        | String e r' =>
            if Ascii.eqb e "u" then
              match r' with
              | String h1 (String h2 (String h3 (String h4 r''))) =>
                  match hex4 h1 h2 h3 h4 with
                  | Some u => cons_unit (N.of_nat u) (parse_chars r'')
                  | None => None
                  end
              | _ => None
              end
            else
              match escape_of e with
              | Some u => cons_unit (N.of_nat u) (parse_chars r')
              | None => None
              end
        end
      else if (code c <? 32)%nat then None
      else cons_unit (N_of_ascii c) (parse_chars r)
  end.

Definition lift {A} (p : option (A * string)) : parsed A :=
  match p with
  | Some (a, rest) => Parsed a rest
  | None => SyntaxErr
  end.

(** [closes c s]: after white space [s] goes on with [c]; what follows it. *)
Definition closes (c : ascii) (s : string) : option string :=
  match skip_ws s with
  | String c' rest => if Ascii.eqb c' c then Some rest else None
  | EmptyString => None
  end.

Definition literal (tail : string) (v : json) (s : string) : parsed json :=
  match strip_prefix tail s with
  | Some rest => Parsed v rest
  | None => SyntaxErr
  end.

(** [parse_value] reads one value; [parse_elems] and [parse_members] read
    the rest of an array or object whose opening bracket (or a comma) has
    just been consumed, accumulating in [acc]. *)
Fixpoint parse_value (fuel : nat) (s : string) : parsed json :=
  match fuel with
  | O => OutOfFuel
  | S f =>
      match skip_ws s with
      | EmptyString => SyntaxErr
      | String c r =>
          if Ascii.eqb c quote then
            lift (option_map (fun tr => (JString (fst tr), snd tr)) (parse_chars r))
          else if Ascii.eqb c "[" then
            match closes "]" r with
            | Some rest => Parsed (JArray []) rest
            | None => parse_elems f r []
            end
          else if Ascii.eqb c "{" then
            match closes "}" r with
            | Some rest => Parsed (JObject []) rest
            | None => parse_members f r []
            end
          else if Ascii.eqb c "t" then literal "rue" (JBool true) r
          else if Ascii.eqb c "f" then literal "alse" (JBool false) r
          else if Ascii.eqb c "n" then literal "ull" JNull r
          else if Ascii.eqb c "-" then lift (parse_number true r)
          else lift (parse_number false (String c r))
      end
  end
with parse_elems (fuel : nat) (s : string) (acc : list json) : parsed json :=
  match fuel with
  | O => OutOfFuel
  | S f =>
      match parse_value f s with
      | Parsed v rest =>
          match skip_ws rest with
          | String c rest' =>
              if Ascii.eqb c "," then parse_elems f rest' (acc ++ [v])%list
              else if Ascii.eqb c "]" then Parsed (JArray (acc ++ [v])%list) rest'
              else SyntaxErr
          | EmptyString => SyntaxErr
          end
      | other => other
      end
  end
with parse_members (fuel : nat) (s : string) (acc : list (Js.units * json))
  : parsed json :=
  match fuel with
  | O => OutOfFuel
  | S f =>
      match skip_ws s with
      | String c r =>
          if Ascii.eqb c quote then
            match parse_chars r with
            | Some (k, rest) =>
                match closes ":" rest with
                | Some rest1 =>
                    match parse_value f rest1 with
                    | Parsed v rest2 =>
                        match skip_ws rest2 with
                        | String c' rest3 =>
                            if Ascii.eqb c' "," then
                              parse_members f rest3 (acc ++ [(k, v)])%list
                            else if Ascii.eqb c' "}" then
                              Parsed (JObject (acc ++ [(k, v)])%list) rest3
                            else SyntaxErr
                        | EmptyString => SyntaxErr
                        end
                    | other => other
                    end
                | None => SyntaxErr
                end
            | None => SyntaxErr
            end
          else SyntaxErr
      | EmptyString => SyntaxErr
      end
  end.

(** Two units of fuel per character are enough (see [parse_value_fuel]). *)
Definition fuel_for (s : string) : nat := 2 * String.length s + 2.

(** [JSON.parse]: [None] stands for the [SyntaxError] it throws. *)
Definition parse (s : string) : option json :=
  match parse_value (fuel_for s) s with
  | Parsed v rest =>
      match skip_ws rest with
      | EmptyString => Some v
      | String _ _ => None
      end
  | _ => None
  end.

(** Own-property lookup on a parsed object, for a member name of the
    program text: of two members with the same key the later one wins. *)
Fixpoint lookup (k : string) (fields : list (Js.units * json)) : option json :=
  match fields with
  | [] => None
  | (k', v) :: r =>
      match lookup k r with
      | Some x => Some x
      | None => if Js.sameUnits k' (Js.wide k) then Some v else None
      end
  end.

(** [!v] for a parsed value. *)
Definition falsy (v : json) : bool :=
  match v with
  | JNull => true
  | JBool b => negb b
  | JNumber m e => Qeq_bool (numberValue m e) 0
  | JString s => match s with [] => true | _ :: _ => false end
  | JArray _ | JObject _ => false
  end.

End Json.

(** ** services/geminiService.ts: the effects *)

Import Json.

Inductive Provider := gemini | custom.

Record AISettings := {
  provider : Provider;
  baseUrl : option string;
  customApiKey : option string;
  modelName : string;
  temperature : Q;
  tutorPersona : string
}.

Definition DEFAULT_MODEL : string := "gemini-2.5-flash".

(** What [throw] can carry: [new Error(message)], the [SyntaxError] of
    [JSON.parse], the [TypeError] of a property read on [null] or
    [undefined], and whatever the SDK or [fetch] rejects with. *)
Inductive exn :=
  | Error (message : string)
  | SyntaxError
  | TypeError
  | Rejected (reason : string).

(** The response schemas, built from the SDK's [Type] tags. *)
Inductive Schema :=
  | SString
  | SStringEnum (values : list string)
  | SInteger
  | SArray (items : Schema)
  | SObject (properties : list (string * Schema)) (required : list string).

Inductive Tool := googleSearch.

(** The prompts are template literals; a prompt is recorded as its template
    and the values substituted into it, the English wording left out. *)
Inductive Prompt :=
  | FindArticles (topic : string)
  | WriteArticles (topic : string)
  | FormatImported (fileName rawTextHead : string)
  | DefineWord (w : string) (context : option string)
  | Translate (text : string)
  | EstimateLevel (vocabulary : string)
  | MakeQuiz (w : string)
  | MakeExam (lvl knownWordsSample requirements : string).

Inductive Part :=
  | TextPart (text : string)
  | InlineData (data mimeType : string).

(** [string | { parts: any[] }]. *)
Inductive Contents :=
  | PromptText (p : Prompt)
  | Parts (parts : list Part).

Inductive Role := user | system | assistant.

Inductive Content :=
  | OfPrompt (p : Prompt)
  | Plain (text : string)
  | SchemaInstruction (schema : Schema).

Record Message := { role : Role; content : Content }.

Record HistoryItem := { h_role : string; h_parts : list string }.

Record GenerateContentRequest := {
  gc_model : string;
  gc_contents : Contents;
  gc_temperature : option Q;
  gc_tools : option (list Tool);
  gc_responseSchema : option Schema
}.

Record ChatRequest := {
  chat_model : string;
  chat_history : list HistoryItem;
  systemInstruction : string;
  chat_temperature : Q;
  chat_message : string
}.

Record FetchRequest := {
  endpoint : string;
  authorization : string;
  body_model : string;
  body_messages : list Message;
  body_temperature : Q
}.

Inductive Request :=
  | GenerateContent (r : GenerateContentRequest)
  | SendMessage (r : ChatRequest)
  | Fetch (r : FetchRequest).

(** A [fetch] response: [response.ok], [response.statusText], and what
    [(await response.json()).choices?.[0]?.message?.content] evaluates to: an
    exception, or the content string when there is one. *)
Record HttpResponse := {
  ok : bool;
  statusText : string;
  messageContent : exn + option string
}.

(** The outside world: how the [n]-th network request of a run is answered
    and what the [n]-th reading of [Date.now()] is. *)
Record World := {
  answerGenerateContent : nat -> GenerateContentRequest -> exn + option string;
  answerSendMessage : nat -> ChatRequest -> exn + option string;
  answerFetch : nat -> FetchRequest -> exn + HttpResponse;
  clock : nat -> Z
}.

(** The trace of a run: the network requests issued so far, oldest first,
    and the number of clock readings. *)
Record Effects := {
  requests : list Request;
  ticks : nat
}.

Inductive outcome (A : Type) :=
  | Returned (a : A)
  | Thrown (e : exn).
Arguments Returned {A} a.
Arguments Thrown {A} e.

Definition M (A : Type) : Type := World -> Effects -> outcome A * Effects.

Definition ret {A} (a : A) : M A := fun _ st => (Returned a, st).

Definition throw {A} (e : exn) : M A := fun _ st => (Thrown e, st).

Definition bind {A B} (m : M A) (k : A -> M B) : M B :=
  fun W st =>
    match m W st with
    | (Returned a, st') => k a W st'
    | (Thrown e, st') => (Thrown e, st')
    end.

(** [try { m } catch (e) { handler e }]. *)
Definition try_catch {A} (m : M A) (handler : exn -> M A) : M A :=
  fun W st =>
    match m W st with
    | (Returned a, st') => (Returned a, st')
    | (Thrown e, st') => handler e W st'
    end.

Notation "x <- m ;; k" := (bind m (fun x => k))
  (at level 61, m at next level, right associativity).
Notation "'try' m 'catch' e => h" := (try_catch m (fun e => h))
  (at level 61, m at next level, e name, right associativity).

Definition record (r : Request) (st : Effects) : Effects :=
  {| requests := (requests st ++ [r])%list; ticks := ticks st |}.

Definition settle {A} (r : exn + A) (st : Effects) : outcome A * Effects :=
  match r with
  | inl e => (Thrown e, st)
  | inr a => (Returned a, st)
  end.

(** [await ai.models.generateContent(r)], then [response.text]. *)
Definition generateContent (r : GenerateContentRequest) : M (option string) :=
  fun W st =>
    settle (answerGenerateContent W (length (requests st)) r)
           (record (GenerateContent r) st).

(** [ai.chats.create(...)] and [await chat.sendMessage(...)], then [result.text]. *)
Definition sendMessage (r : ChatRequest) : M (option string) :=
  fun W st =>
    settle (answerSendMessage W (length (requests st)) r)
           (record (SendMessage r) st).

(** [await fetch(endpoint, { method: 'POST', ... })]. *)
Definition fetch (r : FetchRequest) : M HttpResponse :=
  fun W st =>
    settle (answerFetch W (length (requests st)) r) (record (Fetch r) st).

(** [Date.now()]. *)
Definition Date_now : M Z :=
  fun W st =>
    (Returned (clock W (ticks st)),
     {| requests := requests st; ticks := S (ticks st) |}).

Definition JSON_parse (text : string) : M json :=
  match Json.parse text with
  | Some v => ret v
  | None => throw SyntaxError
  end.

(** [v.k] on a parsed value: a [TypeError] on [null]; [undefined] (here
    [None]) when [v] has no such member.  Only the member names read in this
    file are meant, none of which a string, number, boolean or array owns. *)
Definition prop (v : json) (k : string) : M (option json) :=
  match v with
  | JNull => throw TypeError
  | JObject fields => ret (Json.lookup k fields)
  | _ => ret None
  end.

(** [s || d] on an optional string. *)
Definition orElse (s : option string) (d : string) : string :=
  match s with
  | Some t => if String.eqb t "" then d else t
  | None => d
  end.

(** [v || d] on an optional parsed value. *)
Definition orDefault (v : option json) (d : string) : json :=
  match v with
  | Some x => if Json.falsy x then JString (Js.wide d) else x
  | None => JString (Js.wide d)
  end.

Fixpoint mapM {A B} (f : A -> M B) (xs : list A) : M (list B) :=
  match xs with
  | [] => ret []
  | x :: r => y <- f x ;; ys <- mapM f r ;; ret (y :: ys)
  end.

(** ** services/geminiService.ts: the operations *)

Section GeminiService.

(** [s.replace(/^FENCE\s*/, '')]: the fence at the head of [s] and the
    white space after it are removed. *)
Definition replaceOpeningFence (fence s : string) : string :=
  match Json.strip_prefix fence s with
  | Some r => Js.trimStart r
  | None => s
  end.

(** [s.replace(/\s*```$/, '')]: the pattern matches only when [s] ends with
    the fence, and then from the start of the white space before it. *)
Definition replaceClosingFence (s : string) : string :=
  if Js.endsWith s "```"
  then Js.trimEnd (substring 0 (String.length s - 3) s)
  else s.

Definition cleanJsonText (text : string) : string :=
  if String.eqb text "" then "{}"
  else
    let clean := Js.trim text in
    if Js.startsWith clean "```json" then
      replaceClosingFence (replaceOpeningFence "```json" clean)
    else if Js.startsWith clean "```" then
      replaceClosingFence (replaceOpeningFence "```" clean)
    else clean.

(** [settings?.provider || 'gemini'], [settings?.modelName || DEFAULT_MODEL]
    and [settings?.temperature ?? 0.7]. *)
Definition providerOf (settings : option AISettings) : Provider :=
  match settings with
  | Some s => provider s
  | None => gemini
  end.

Definition modelOf (settings : option AISettings) : string :=
  orElse (option_map modelName settings) DEFAULT_MODEL.

Definition temperatureOf (settings : option AISettings) : Q :=
  match settings with
  | Some s => temperature s
  | None => 7 # 10
  end.

(** [!settings?.baseUrl || !settings?.customApiKey] is false exactly when
    both are present and non-empty; they are returned then. *)
Definition truthy (s : option string) : option string :=
  match s with
  | Some t => if String.eqb t "" then None else Some t
  | None => None
  end.

Definition credentials (settings : option AISettings) : option (string * string) :=
  match settings with
  | Some s =>
      match truthy (baseUrl s), truthy (customApiKey s) with
      | Some url, Some key => Some (url, key)
      | _, _ => None
      end
  | None => None
  end.

Definition chatCompletions (url : string) : string :=
  if Js.endsWith url "/" then url ++ "chat/completions"
  else url ++ "/chat/completions".

(** [prompt.parts.find((p: any) => p.text)]. *)
Definition findText (parts : list Part) : option string :=
  match find (fun p => match p with
                       | TextPart t => negb (String.eqb t "")
                       | InlineData _ _ => false
                       end) parts with
  | Some (TextPart t) => Some t
  | _ => None
  end.

Definition userMessage (prompt : Contents) : Message :=
  match prompt with
  | PromptText p => {| role := user; content := OfPrompt p |}
  | Parts parts =>
      match findText parts with
      | Some t => {| role := user; content := Plain t |}
      | None => {| role := user;
                   content := Plain "Content not supported for custom provider yet" |}
      end
  end.

(** Universal AI caller. *)
Definition callAI (prompt : Contents) (settings : option AISettings)
    (schema : option Schema) (tools : option (list Tool)) : M string :=
  let model := modelOf settings in
  let temp := temperatureOf settings in
  match providerOf settings with
  | gemini =>
      try (text <- generateContent
                     {| gc_model := model;
                        gc_contents := prompt;
                        gc_temperature := Some temp;
                        gc_tools := tools;
                        gc_responseSchema := schema |} ;;
           ret (orElse text ""))
      catch error => throw error
  | custom =>
      match credentials settings with
      | None => throw (Error "Missing Base URL or API Key for custom provider")
      | Some (url, key) =>
          let messages :=
            (userMessage prompt ::
             match schema with
             | Some sc => [ {| role := system; content := SchemaInstruction sc |} ]
             | None => []
             end)%list in
          try (response <- fetch
                             {| endpoint := chatCompletions url;
                                authorization := "Bearer " ++ key;
                                body_model := model;
                                body_messages := messages;
                                body_temperature := temp |} ;;
               if negb (ok response)
               then throw (Error ("Custom API Error: " ++ statusText response))
               else
                 match messageContent response with
                 | inl e => throw e
                 | inr c => ret (orElse c "")
                 end)
          catch error => throw error
      end
  end.

Inductive ArticleType := TextArticle | ImageArticle | WebArticle.

(** The object [searchArticles] builds per element; [title] and [content]
    are whatever the element holds under these names. *)
Record Article := {
  a_id : string;
  a_title : option json;
  a_content : option json;
  a_source : string;
  a_dateAdded : Z;
  a_type : ArticleType
}.

Definition toArticle (sourceLabel : string) (ia : nat * json) : M Article :=
  let '(index, a) := ia in
  t1 <- Date_now ;;
  title <- prop a "title" ;;
  body <- prop a "content" ;;
  t2 <- Date_now ;;
  ret {| a_id := Js.toString t1 ++ Js.toString (Z.of_nat index);
         a_title := title;
         a_content := body;
         a_source := sourceLabel;
         a_dateAdded := t2;
         a_type := WebArticle |}.

Definition searchArticles (topic : string) (settings : option AISettings)
  : M (list Article) :=
  try (fetched <-
         match providerOf settings with
         | gemini =>
             rawText <- callAI (PromptText (FindArticles topic)) settings
                               None (Some [googleSearch]) ;;
             ret (rawText, "Google Search")
         | custom =>
             rawText <- callAI (PromptText (WriteArticles topic)) settings
                               None None ;;
             ret (rawText, "AI Generated")
         end ;;
       let '(rawText, sourceLabel) := fetched in
       let text := cleanJsonText rawText in
       match Json.parse text with
       | None => ret []                   (* "Failed to parse search results" *)
       | Some (JArray rawArticles) =>
           mapM (toArticle sourceLabel) (indexed rawArticles)
       | Some _ => ret []
       end)
  catch error =>
    throw (Error "Failed to fetch articles. Please check your AI settings.").

Definition ocrInstruction : string :=
  "Transcribe the English text from this image accurately. Preserve paragraph structure. Do not add any commentary.".

Definition ocrUnsupported : string :=
  "OCR is currently optimized for Gemini Provider. Please switch to Gemini for image scanning.".

Definition extractTextFromImage (base64Image mimeType : string)
    (settings : option AISettings) : M string :=
  match providerOf settings with
  | custom => ret ocrUnsupported
  | gemini =>
      try (text <- generateContent
                     {| gc_model := modelOf settings;
                        gc_contents := Parts [InlineData base64Image mimeType;
                                              TextPart ocrInstruction];
                        gc_temperature := None;
                        gc_tools := None;
                        gc_responseSchema := None |} ;;
           ret (orElse text ""))
      catch error => throw (Error "Failed to extract text from image.")
  end.

Definition importSchema : Schema :=
  SObject [("title", SString); ("content", SString)] ["title"; "content"].

Definition processImportedText (rawText fileName : string)
    (settings : option AISettings) : M (json * json) :=
  try (rawTextResponse <-
         callAI (PromptText (FormatImported fileName (substring 0 15000 rawText)))
                settings (Some importSchema) None ;;
       data <- JSON_parse (cleanJsonText rawTextResponse) ;;
       title <- prop data "title" ;;
       body <- prop data "content" ;;
       ret (orDefault title fileName, orDefault body rawText))
  catch error => ret (JString (Js.wide fileName), JString (Js.wide rawText)).

Definition definitionSchema : Schema :=
  SObject [("word", SString); ("phonetic", SString);
           ("chineseMeaning", SString); ("englishDefinition", SString);
           ("exampleSentence", SString); ("partOfSpeech", SString);
           ("level", SString); ("synonyms", SArray SString);
           ("antonyms", SArray SString); ("relatedWords", SArray SString)]
          ["word"; "chineseMeaning"; "englishDefinition"; "level"].

(** The parsed value is returned as it is ([data as WordDefinition]). *)
Definition defineWord (w : string) (contextSentence : option string)
    (settings : option AISettings) : M json :=
  try (responseText <-
         callAI (PromptText (DefineWord w (truthy contextSentence)))
                settings (Some definitionSchema) None ;;
       data <- JSON_parse (cleanJsonText responseText) ;;
       ret data)
  catch error => throw (Error "Failed to define word.").

Definition translateText (text : string) (settings : option AISettings)
  : M string :=
  try (callAI (PromptText (Translate text)) settings None None)
  catch error => throw (Error "Failed to translate text.").

Definition assessLevel (vocabularyList : list string)
    (settings : option AISettings) : M string :=
  match vocabularyList with
  | [] => ret "Unknown"
  | _ =>
      try (text <- callAI (PromptText (EstimateLevel (Js.join ", " vocabularyList)))
                          settings None None ;;
           ret (orElse (Some (Js.trim text)) "Unknown"))
      catch error => ret "Unknown"
  end.

Definition quizSchema : Schema :=
  SObject [("question", SString); ("options", SArray SString);
           ("correctOptionIndex", SInteger)]
          ["question"; "options"; "correctOptionIndex"].

(** The object literal [generateQuizForWord] returns [as QuizQuestion]:
    three of its members are read off the parsed response unchecked. *)
Record GeneratedQuiz := {
  g_id : string;
  g_type : QuestionType;
  g_question : option json;
  g_options : option json;
  g_correctOptionIndex : option json;
  g_explanation : string
}.

Definition generateQuizForWord (w : string) (settings : option AISettings)
  : M GeneratedQuiz :=
  try (responseText <-
         callAI (PromptText (MakeQuiz w)) settings (Some quizSchema) None ;;
       data <- JSON_parse (cleanJsonText responseText) ;;
       t <- Date_now ;;
       q <- prop data "question" ;;
       opts <- prop data "options" ;;
       idx <- prop data "correctOptionIndex" ;;
       ret {| g_id := Js.toString t;
              g_type := FillBlank;
              g_question := q;
              g_options := opts;
              g_correctOptionIndex := idx;
              g_explanation := "The correct answer is " ++ w ++ "." |})
  catch error => throw error.

Definition examSchema : Schema :=
  SArray
    (SObject [("id", SString);
              ("type", SStringEnum ["fill-blank"; "phonetic-match";
                                    "translation-en-zh"; "translation-zh-en"]);
              ("question", SString); ("options", SArray SString);
              ("correctOptionIndex", SInteger); ("explanation", SString)]
             ["id"; "type"; "question"; "options"; "correctOptionIndex";
              "explanation"]).

Definition generateExam (lvl : string) (knownWords : list string)
    (requirements : option string) (settings : option AISettings) : M json :=
  try (let knownWordsSample := Js.join ", " (Js.lastN 30 knownWords) in
       responseText <-
         callAI (PromptText (MakeExam lvl knownWordsSample
                               (orElse requirements "General practice")))
                settings (Some examSchema) None ;;
       questions <- JSON_parse (cleanJsonText responseText) ;;
       ret questions)
  catch error => throw (Error "Failed to generate exam.").

(** [{ role: h.role === 'model' ? 'assistant' : 'user', content: h.parts[0].text }]. *)
Definition toMessage (h : HistoryItem) : M Message :=
  match h_parts h with
  | [] => throw TypeError
  | text :: _ =>
      ret {| role := if String.eqb (h_role h) "model" then assistant else user;
             content := Plain text |}
  end.

Definition chatWithTutor (history : list HistoryItem) (newMessage : string)
    (userStatsContext : string) (settings : option AISettings)
  : M (option string) :=
  let persona := orElse (option_map tutorPersona settings)
                        "You are a helpful English Tutor." in
  match providerOf settings, settings with
  | custom, Some s =>
      match credentials settings with
      | None => throw (Error "Missing credentials")
      | Some (url, key) =>
          past <- mapM toMessage history ;;
          let messages :=
            ({| role := system;
                content := Plain (persona ++ " User Context: " ++ userStatsContext) |}
             :: past ++ [ {| role := user; content := Plain newMessage |} ])%list in
          try (response <- fetch
                             {| endpoint := chatCompletions url;
                                authorization := "Bearer " ++ key;
                                body_model := modelName s;
                                body_messages := messages;
                                body_temperature := temperature s |} ;;
               match messageContent response with
               | inl e => throw e
               | inr c => ret (Some (orElse c "Error: No response."))
               end)
          catch e =>
            ret (Some "I'm having trouble connecting to your custom AI provider.")
      end
  | _, _ =>
      sendMessage
        {| chat_model := modelOf settings;
           chat_history := history;
           systemInstruction :=
             persona ++ " User Context: " ++ userStatsContext ++ ".";
           chat_temperature := temperatureOf settings;
           chat_message := newMessage |}
  end.

End GeminiService.

(** ** What the claims speak of *)

Section Vocabulary.

(** A text made of white space only. *)
Fixpoint allSpace (s : string) : bool :=
  match s with
  | String c r => Js.is_space c && allSpace r
  | EmptyString => true
  end.

(** [v.k] without the exception: the member of an object, [undefined] for
    anything else. *)
Definition member (v : json) (k : string) : option json :=
  match v with
  | JObject fields => Json.lookup k fields
  | _ => None
  end.



(** The integer a parsed number stands for, when it is one (and not so
    large that the double is infinite). *)
Definition asInteger (v : option json) : option Z :=
  match v with
  | Some (JNumber m e) =>
      let x := Qred (Json.numberValue m e) in
      if (Qden x =? 1)%positive && (Z.abs (Qnum x) <? 2 ^ 1024)
      then Some (Qnum x) else None
  | _ => None
  end.

(** [correctOptionIndex] is an index into [options], and the option there
    is the word, letter case apart. *)
Definition pointsAtWord (w : string) (opts idx : option json) : bool :=
  match opts, asInteger idx with
  | Some (JArray items), Some i =>
      (0 <=? i) && (i <? Z.of_nat (length items)) &&
      match Js.index items i with
      | Some (JString o) => Js.lowerIs o (Js.toLowerCase w)
      | _ => false
      end
  | _, _ => false
  end.

Definition quizConforms (w : string) (q : GeneratedQuiz) : bool :=
  pointsAtWord w (g_options q) (g_correctOptionIndex q).

(** The [callAI] invocation of [searchArticles], by provider. *)
Definition searchCall (topic : string) (settings : option AISettings) : M string :=
  match providerOf settings with
  | gemini => callAI (PromptText (FindArticles topic)) settings None
                     (Some [googleSearch])
  | custom => callAI (PromptText (WriteArticles topic)) settings None None
  end.

(** The [callAI] invocations of the other operations. *)
Definition defineCall (w : string) (contextSentence : option string)
    (settings : option AISettings) : M string :=
  callAI (PromptText (DefineWord w (truthy contextSentence))) settings
         (Some definitionSchema) None.

Definition importCall (rawText fileName : string) (settings : option AISettings)
  : M string :=
  callAI (PromptText (FormatImported fileName (substring 0 15000 rawText)))
         settings (Some importSchema) None.

Definition assessCall (vocabularyList : list string)
    (settings : option AISettings) : M string :=
  callAI (PromptText (EstimateLevel (Js.join ", " vocabularyList)))
         settings None None.

Definition translateCall (text : string) (settings : option AISettings) : M string :=
  callAI (PromptText (Translate text)) settings None None.

Definition quizCall (w : string) (settings : option AISettings) : M string :=
  callAI (PromptText (MakeQuiz w)) settings (Some quizSchema) None.

Definition examCall (lvl : string) (knownWords : list string)
    (requirements : option string) (settings : option AISettings) : M string :=
  callAI (PromptText (MakeExam lvl (Js.join ", " (Js.lastN 30 knownWords))
                        (orElse requirements "General practice")))
         settings (Some examSchema) None.

(** The request of [chatWithTutor] on the native backend. *)
Definition nativeChat (history : list HistoryItem) (newMessage : string)
    (userStatsContext : string) (settings : option AISettings) : ChatRequest :=
  {| chat_model := modelOf settings;
     chat_history := history;
     systemInstruction :=
       orElse (option_map tutorPersona settings) "You are a helpful English Tutor."
       ++ " User Context: " ++ userStatsContext ++ ".";
     chat_temperature := temperatureOf settings;
     chat_message := newMessage |}.

(** The [n]-th request, if it is the [fetch] of [r], is rejected, or is
    answered and reading the answer throws. *)
Definition fetchFails (W : World) (n : nat) (r : FetchRequest) : Prop :=
  match answerFetch W n r with
  | inl _ => True
  | inr response =>
      match messageContent response with
      | inl _ => True
      | inr _ => False
      end
  end.

Definition connectionTrouble : string :=
  "I'm having trouble connecting to your custom AI provider.".

Definition sourceLabelOf (settings : option AISettings) : string :=
  match providerOf settings with
  | gemini => "Google Search"
  | custom => "AI Generated"
  end.


(** Network requests issued between two traces. *)
Definition issued (before after : Effects) : nat :=
  (length (requests after) - length (requests before))%nat.

Definition nonNegative (w : SavedWord) : Prop := 0 <= reviewCount w.

Definition missingCredentials : exn :=
  Error "Missing Base URL or API Key for custom provider".

End Vocabulary.

(** ** Sample inputs *)

Section Samples.

Definition dq : string := String Json.quote "".
Definition nl : string := String (ascii_of_nat 10) "".

(** [{"a":1}] and the three texts around it. *)
Definition objectA : string := "{" ++ dq ++ "a" ++ dq ++ ":1}".
Definition fencedJson : string := "```json" ++ nl ++ objectA ++ nl ++ "```".
Definition fencedPlain : string := "```" ++ nl ++ objectA ++ nl ++ "```".

(** [[{"title":"A","content":"B C D"}]]. *)
Definition oneArticle : string :=
  "[{" ++ dq ++ "title" ++ dq ++ ":" ++ dq ++ "A" ++ dq ++ ","
       ++ dq ++ "content" ++ dq ++ ":" ++ dq ++ "B C D" ++ dq ++ "}]".

(** [[{"title":"\u4e2d\u6587","content":"B C D"}]] and
    [{"chineseMeaning":"\u732b"}], written with escapes. *)
Definition escapedArticle : string :=
  "[{" ++ dq ++ "title" ++ dq ++ ":" ++ dq ++ "\u4e2d\u6587" ++ dq ++ ","
       ++ dq ++ "content" ++ dq ++ ":" ++ dq ++ "B C D" ++ dq ++ "}]".

Definition escapedMeaning : string :=
  "{" ++ dq ++ "chineseMeaning" ++ dq ++ ":" ++ dq ++ "\u732b" ++ dq ++ "}".

(** [{"question":"A ______ purrs.","options":["dog","cat"],"correctOptionIndex":5}]. *)
Definition strayIndexQuiz : string :=
  "{" ++ dq ++ "question" ++ dq ++ ":" ++ dq ++ "A ______ purrs." ++ dq ++ ","
      ++ dq ++ "options" ++ dq ++ ":[" ++ dq ++ "dog" ++ dq ++ ","
      ++ dq ++ "cat" ++ dq ++ "],"
      ++ dq ++ "correctOptionIndex" ++ dq ++ ":5}".

(** [{"question":"A ______ purrs.","options":["dog","Cat"],"correctOptionIndex":1}]. *)
Definition goodQuiz : string :=
  "{" ++ dq ++ "question" ++ dq ++ ":" ++ dq ++ "A ______ purrs." ++ dq ++ ","
      ++ dq ++ "options" ++ dq ++ ":[" ++ dq ++ "dog" ++ dq ++ ","
      ++ dq ++ "Cat" ++ dq ++ "],"
      ++ dq ++ "correctOptionIndex" ++ dq ++ ":1}".

(** A world in which the native backend answers every request with [text],
    the generic one is unreachable, and the clock starts at [1000]. *)
Definition nativeSays (text : string) : World :=
  {| answerGenerateContent := fun _ _ => inr (Some text);
     answerSendMessage := fun _ _ => inr (Some text);
     answerFetch := fun _ _ => inl (Rejected "Failed to fetch");
     clock := fun n => 1000 + Z.of_nat n |}.

(** A world in which every network request fails. *)
Definition offline : World :=
  {| answerGenerateContent := fun _ _ => inl (Rejected "network down");
     answerSendMessage := fun _ _ => inl (Rejected "network down");
     answerFetch := fun _ _ => inl (Rejected "Failed to fetch");
     clock := fun n => 1000 + Z.of_nat n |}.

Definition start : Effects := {| requests := []; ticks := 0 |}.

Definition genericSettings (url key : option string) : AISettings :=
  {| provider := custom;
     baseUrl := url;
     customApiKey := key;
     modelName := "deepseek-chat";
     temperature := 7 # 10;
     tutorPersona := "" |}.

Definition noBaseUrl : option AISettings :=
  Some (genericSettings None (Some "sk-1")).

Definition complete : option AISettings :=
  Some (genericSettings (Some "https://api.deepseek.com") (Some "sk-1")).

Definition defOf (w : string) : WordDefinition :=
  {| word := w; phonetic := ""; chineseMeaning := ""; englishDefinition := "";
     exampleSentence := ""; partOfSpeech := ""; level := "A1";
     synonyms := None; antonyms := None; relatedWords := None |}.

Definition quizOn (prompt : string) (opts : list string) (k : Z) : QuizQuestion :=
  {| q_id := "1"; q_type := FillBlank; question := prompt; options := opts;
     correctOptionIndex := k; explanation := None |}.

(** Every count [c] of right answers among [n] questions, for [n] from 1
    to [most]. *)
Definition counts (most : nat) : list (Z * Z) :=
  flat_map (fun n => map (fun c => (Z.of_nat c, Z.of_nat (S n))) (seq 0 (S (S n))))
           (seq 0 most).

Definition threeQuestions : list QuizQuestion :=
  [quizOn "q1" ["a"; "b"] 0; quizOn "q2" ["c"; "d"] 1; quizOn "q3" ["e"; "f"] 1].

End Samples.

(** ** More of what the properties speak of *)

Definition isFetch (r : Request) : bool :=
  match r with
  | Fetch _ => true
  | _ => false
  end.

(** From one trace to the next either nothing was requested, or one request
    that went to the native SDK. *)
Definition nativeStep (before after : Effects) : Prop :=
  requests after = requests before \/
  exists r, requests after = (requests before ++ [r])%list /\ isFetch r = false.

(** No white space at either end. *)
Definition tight (s : string) : Prop :=
  Js.trimStart s = s /\ Js.trimEnd s = s.

Definition searchFailed : exn :=
  Error "Failed to fetch articles. Please check your AI settings.".

(** The message [chatWithTutor] makes of a well-formed history item. *)
Definition messageOf (h : HistoryItem) : Message :=
  {| role := if String.eqb (h_role h) "model" then assistant else user;
     content := Plain (hd "" (h_parts h)) |}.

Definition personaOf (settings : option AISettings) : string :=
  orElse (option_map tutorPersona settings) "You are a helpful English Tutor.".

(** A text of [n] copies of one character. *)
Fixpoint filler (n : nat) (c : ascii) : string :=
  match n with
  | O => EmptyString
  | S k => String c (filler k c)
  end.

(** The request went to the backend the settings select: to [fetch] exactly
    when that is the generic one. *)
Definition routed (settings : option AISettings) (before after : Effects) : Prop :=
  requests after = requests before \/
  exists r, requests after = (requests before ++ [r])%list /\
            isFetch r = match providerOf settings with
                        | custom => true
                        | gemini => false
                        end.

Definition wellFormed (history : list HistoryItem) : Prop :=
  Forall (fun h => h_parts h <> []) history.

(** The request of [chatWithTutor] on the generic backend. *)
Definition genericChat (url key : string) (s : AISettings)
    (history : list HistoryItem) (newMessage userStatsContext : string)
  : FetchRequest :=
  {| endpoint := chatCompletions url;
     authorization := "Bearer " ++ key;
     body_model := modelName s;
     body_messages :=
       ({| role := system;
           content := Plain (personaOf (Some s) ++ " User Context: " ++ userStatsContext) |}
        :: map messageOf history
        ++ [ {| role := user; content := Plain newMessage |} ])%list;
     body_temperature := temperature s |}.

Definition unauthorized (text : string) : World :=
  {| answerGenerateContent := fun _ _ => inl (Rejected "network down");
     answerSendMessage := fun _ _ => inl (Rejected "network down");
     answerFetch := fun _ _ =>
       inr {| ok := false; statusText := "Unauthorized";
              messageContent := inr (Some text) |};
     clock := fun n => 1000 + Z.of_nat n |}.

(** [x] is the member [m] when there is one that is not falsy, and the
    text [d] otherwise: [m || d]. *)
Definition memberOrText (m : option json) (d : string) (x : json) : Prop :=
  (m = Some x /\ Json.falsy x = false) \/
  (x = JString (Js.wide d) /\ forall v, m = Some v -> Json.falsy v = true).

(** Whatever the run throws is [new Error(message)]. *)
Definition throwsOnly {A} (message : string) (run : outcome A * Effects) : Prop :=
  match fst run with
  | Thrown e => e = Error message
  | Returned _ => True
  end.

(** ** App.tsx: the level re-assessment *)

(** [savedWords.map(w => w.word).slice(-20)]. *)
Definition levelSample (savedWords : list SavedWord) : list string :=
  Js.lastN 20 (map (fun w : SavedWord => word w) savedWords).

(** [updateLevel] of the persistence effect: the level to store in the user
    statistics, if one was asked for. *)
Definition updateLevel (savedWords : list SavedWord) (aiSettings : AISettings)
  : M (option string) :=
  if ((0 <? length savedWords) && (length savedWords mod 5 =? 0))%nat then
    lvl <- assessLevel (levelSample savedWords) (Some aiSettings) ;;
    ret (Some lvl)
  else ret None.

Definition ids (st : list SavedWord) : list string := map sw_id st.

Definition sampleWords : list SavedWord :=
  [newSavedWord (defOf "apple") 1 1; newSavedWord (defOf "Bread") 2 2;
   newSavedWord (defOf "cheese") 3 3].

(** ** components/Notebook.tsx *)

Module JsText.

(** [s.includes(sub)]. *)
Fixpoint includes (s sub : string) : bool :=
  String.prefix sub s ||
  match s with
  | String _ r => includes r sub
  | EmptyString => false
  end.

(** [s.split(sep)] for a separator of one character. *)
Fixpoint split (sep : ascii) (s : string) : list string :=
  match s with
  | EmptyString => [EmptyString]
  | String c r =>
      if Ascii.eqb c sep then EmptyString :: split sep r
      else match split sep r with
           | piece :: pieces => String c piece :: pieces
           | [] => [String c EmptyString]
           end
  end.

(** [c] occurs in [s]. *)
Fixpoint occurs (c : ascii) (s : string) : bool :=
  match s with
  | String d r => Ascii.eqb d c || occurs c r
  | EmptyString => false
  end.

(** [s.replace(/[^a-z]/g, '')]. *)
Fixpoint lettersOnly (s : string) : string :=
  match s with
  | String c r =>
      if ((97 <=? nat_of_ascii c) && (nat_of_ascii c <=? 122))%nat
      then String c (lettersOnly r) else lettersOnly r
  | EmptyString => EmptyString
  end.

End JsText.

Record Note := {
  n_id : string;
  n_title : string;
  n_content : string;
  n_tags : list string;
  createdAt : Z;
  updatedAt : Z
}.

(** The state of the new-note form. *)
Record NoteForm := {
  isCreating : bool;
  newNoteTitle : string;
  newNoteContent : string;
  newNoteTags : string
}.

(** [newNoteTags.split(',').map(t => t.trim()).filter(Boolean)]. *)
Definition tagsOf (newNoteTags : string) : list string :=
  filter (fun t => negb (String.eqb t ""))
         (map Js.trim (JsText.split "," newNoteTags)).

(** [handleSaveNote]: the note handed to [onAddNote], if any, and the form
    afterwards. *)
Definition handleSaveNote (form : NoteForm) : M (option Note * NoteForm) :=
  if String.eqb (Js.trim (newNoteTitle form)) "" then ret (None, form)
  else
    t1 <- Date_now ;;
    t2 <- Date_now ;;
    t3 <- Date_now ;;
    ret (Some {| n_id := Js.toString t1;
                 n_title := newNoteTitle form;
                 n_content := newNoteContent form;
                 n_tags := tagsOf (newNoteTags form);
                 createdAt := t2;
                 updatedAt := t3 |},
         {| isCreating := false;
            newNoteTitle := "";
            newNoteContent := "";
            newNoteTags := "" |}).

Definition filteredNotes (notes : list Note) (search : string) : list Note :=
  filter (fun n =>
            JsText.includes (Js.toLowerCase (n_title n)) (Js.toLowerCase search) ||
            JsText.includes (Js.toLowerCase (n_content n)) (Js.toLowerCase search) ||
            existsb (fun t => JsText.includes (Js.toLowerCase t) (Js.toLowerCase search))
                    (n_tags n))
         notes.

Definition filteredWords (words : list SavedWord) (search : string)
  : list SavedWord :=
  filter (fun w : SavedWord =>
            JsText.includes (Js.toLowerCase (word w)) (Js.toLowerCase search) ||
            JsText.includes (chineseMeaning w) search)
         words.

(** [new Map(entries).get(key)]: of two entries with one key the later one
    is kept. *)
Fixpoint mapGet {V} (key : string) (entries : list (string * V)) : option V :=
  match entries with
  | [] => None
  | (k, v) :: r =>
      match mapGet key r with
      | Some x => Some x
      | None => if String.eqb k key then Some v else None
      end
  end.

(** The decision [ContentHighlighter] takes for one part of the split
    content: the saved word whose tooltip the part gets, if any. *)
Definition highlight (savedWords : list SavedWord) (part : string)
  : option SavedWord :=
  let wordMap := map (fun w : SavedWord => (Js.toLowerCase (word w), w)) savedWords in
  let clean := JsText.lettersOnly (Js.toLowerCase part) in
  match mapGet clean wordMap with
  | Some found => if (1 <? String.length clean)%nat then Some found else None
  | None => None
  end.

Definition draft (title tags : string) : NoteForm :=
  {| isCreating := true; newNoteTitle := title;
     newNoteContent := "body"; newNoteTags := tags |}.

(** ** components/TutorChat.tsx *)

Record ChatMessage := {
  cm_id : string;
  cm_role : string;
  cm_text : string
}.

Record UserStats := {
  estimatedLevel : string;
  wordsLearned : Z;
  articlesRead : Z
}.

Definition toHistory (messages : list ChatMessage) : list HistoryItem :=
  map (fun m => {| h_role := cm_role m; h_parts := [cm_text m] |}) messages.

Definition contextOf (userStats : UserStats) : string :=
  "Level: " ++ estimatedLevel userStats
  ++ ", Words Learned: " ++ Js.toString (wordsLearned userStats)
  ++ ", Articles Read: " ++ Js.toString (articlesRead userStats).

(** [handleSend]: the message list after the exchange, [None] when the input
    is blank and nothing happens.  [chatWithTutor] is called without
    settings. *)
Definition handleSend (input : string) (messages : list ChatMessage)
    (userStats : UserStats) : M (option (list ChatMessage)) :=
  if String.eqb (Js.trim input) "" then ret None
  else
    t1 <- Date_now ;;
    let userMsg := {| cm_id := Js.toString t1; cm_role := "user"; cm_text := input |} in
    botMsg <-
      (try (responseText <- chatWithTutor (toHistory messages) (cm_text userMsg)
                                          (contextOf userStats) None ;;
            t2 <- Date_now ;;
            ret {| cm_id := Js.toString (t2 + 1);
                   cm_role := "model";
                   cm_text := orElse responseText
                                     "I'm having trouble thinking right now." |})
       catch error =>
         t3 <- Date_now ;;
         ret {| cm_id := Js.toString t3;
                cm_role := "model";
                cm_text := "Sorry, I encountered an error. Please try again." |}) ;;
    ret (Some (messages ++ [userMsg; botMsg])%list).

Definition greeting : ChatMessage :=
  {| cm_id := "1"; cm_role := "model";
     cm_text := "Hello! I'm LinguaBot, your personal English tutor. How can I help you today?" |}.

Definition beginner : UserStats :=
  {| estimatedLevel := "A2"; wordsLearned := 12; articlesRead := 3 |}.

(** ** components/Importer.tsx *)

(** What a submission of the importer leads to: [onImport(article)], an
    [alert] (its wording depends on the language), or nothing. *)
Inductive AlertKind := NoArticlesFound | FetchingFailed.

Inductive Submission :=
  | Imported (article : Article)
  | Alerted (kind : AlertKind)
  | Ignored.

(** [handleSearch]; [searchArticles] is called without settings. *)
Definition handleSearch (searchQuery : string) : M Submission :=
  if String.eqb (Js.trim searchQuery) "" then ret Ignored
  else
    try (articles <- searchArticles searchQuery None ;;
         match articles with
         | first :: _ => ret (Imported first)
         | [] => ret (Alerted NoArticlesFound)
         end)
    catch err => ret (Alerted FetchingFailed).

Definition handleManualSubmit (manualTitle manualContent : string) : M Submission :=
  if String.eqb manualTitle "" || String.eqb manualContent "" then ret Ignored
  else
    t1 <- Date_now ;;
    t2 <- Date_now ;;
    ret (Imported {| a_id := Js.toString t1;
                     a_title := Some (JString (Js.wide manualTitle));
                     a_content := Some (JString (Js.wide manualContent));
                     a_source := "User Input";
                     a_dateAdded := t2;
                     a_type := TextArticle |}).

(** ** components/Settings.tsx *)

(** The initial [formData]. *)
Definition formInit (settings : AISettings) : AISettings :=
  {| provider := provider settings;
     baseUrl := Some (orElse (baseUrl settings) "");
     customApiKey := Some (orElse (customApiKey settings) "");
     modelName := modelName settings;
     temperature := temperature settings;
     tutorPersona := tutorPersona settings |}.

Definition defaultPersona : string :=
  "You are a helpful, encouraging English Learning Tutor. Provide advice in a mix of English and Chinese.".

(** What the form's controls do to [formData]. *)
Inductive FormAction :=
  | SelectGemini
  | SelectCustom
  | TypeBaseUrl (value : string)
  | TypeApiKey (value : string)
  | ChooseModel (value : string)
  | SlideTemperature (value : Q)
  | TypePersona (value : string)
  | Reset.

Definition formStep (formData : AISettings) (a : FormAction) : AISettings :=
  match a with
  | SelectGemini =>
      {| provider := gemini; baseUrl := baseUrl formData;
         customApiKey := customApiKey formData;
         modelName := "gemini-2.5-flash";
         temperature := temperature formData;
         tutorPersona := tutorPersona formData |}
  | SelectCustom =>
      {| provider := custom; baseUrl := Some "https://api.deepseek.com";
         customApiKey := customApiKey formData;
         modelName := "deepseek-chat";
         temperature := temperature formData;
         tutorPersona := tutorPersona formData |}
  | TypeBaseUrl v =>
      {| provider := provider formData; baseUrl := Some v;
         customApiKey := customApiKey formData;
         modelName := modelName formData;
         temperature := temperature formData;
         tutorPersona := tutorPersona formData |}
  | TypeApiKey v =>
      {| provider := provider formData; baseUrl := baseUrl formData;
         customApiKey := Some v;
         modelName := modelName formData;
         temperature := temperature formData;
         tutorPersona := tutorPersona formData |}
  | ChooseModel v =>
      {| provider := provider formData; baseUrl := baseUrl formData;
         customApiKey := customApiKey formData;
         modelName := v;
         temperature := temperature formData;
         tutorPersona := tutorPersona formData |}
  | SlideTemperature v =>
      {| provider := provider formData; baseUrl := baseUrl formData;
         customApiKey := customApiKey formData;
         modelName := modelName formData;
         temperature := v;
         tutorPersona := tutorPersona formData |}
  | TypePersona v =>
      {| provider := provider formData; baseUrl := baseUrl formData;
         customApiKey := customApiKey formData;
         modelName := modelName formData;
         temperature := temperature formData;
         tutorPersona := v |}
  | Reset =>
      {| provider := gemini; baseUrl := Some ""; customApiKey := Some "";
         modelName := "gemini-2.5-flash"; temperature := 7 # 10;
         tutorPersona := defaultPersona |}
  end.

(** The settings handed to [onSave] after a session with the form. *)
Definition editSettings (settings : AISettings) (actions : list FormAction)
  : AISettings :=
  fold_left formStep actions (formInit settings).

(** The [aiSettings] the application starts with. *)
Definition initialSettings : AISettings :=
  {| provider := gemini; baseUrl := None; customApiKey := None;
     modelName := "gemini-2.5-flash"; temperature := 7 # 10;
     tutorPersona := defaultPersona |}.

(** No key is typed, or only an empty one. *)
Definition typesNoKey (a : FormAction) : bool :=
  match a with
  | TypeApiKey v => String.eqb v ""
  | _ => true
  end.

(** ** components/QuizPopup.tsx *)

Record QuizPopupState := {
  isVisible : bool;
  popupQuestion : option GeneratedQuiz;
  loading : bool;
  selectedOption : option Z;
  targetWordId : option string
}.

(** [Math.floor(random * words.length)], [random] being what
    [Math.random()] returned, taken exactly. *)
Definition randomIndex (random : Q) (count : nat) : Z :=
  Qfloor (random * inject_Z (Z.of_nat count)).

(** [triggerQuiz]; [generateQuizForWord] is called without settings.  With
    no word under the index, [randomWord.id] throws before the [try]. *)
Definition triggerQuiz (words : list SavedWord) (random : Q) (s : QuizPopupState)
  : M QuizPopupState :=
  if isVisible s then ret s
  else
    match Js.index words (randomIndex random (length words)) with
    | None => throw TypeError
    | Some randomWord =>
        try (q <- generateQuizForWord (word randomWord) None ;;
             ret {| isVisible := true;
                    popupQuestion := Some q;
                    loading := false;
                    selectedOption := selectedOption s;
                    targetWordId := Some (sw_id randomWord) |})
        catch e =>
          ret {| isVisible := false;
                 popupQuestion := popupQuestion s;
                 loading := false;
                 selectedOption := selectedOption s;
                 targetWordId := Some (sw_id randomWord) |}
    end.

(** [index === question.correctOptionIndex]. *)
Definition isRightOption (index : Z) (q : GeneratedQuiz) : bool :=
  match asInteger (g_correctOptionIndex q) with
  | Some k => index =? k
  | None => false
  end.

(** [handleOptionClick]: the state afterwards and the [onResult(id, success)]
    call it schedules, if any. *)
Definition handleOptionClick (index : Z) (s : QuizPopupState)
  : QuizPopupState * option (string * bool) :=
  match selectedOption s, popupQuestion s, truthy (targetWordId s) with
  | None, Some q, Some id =>
      ({| isVisible := isVisible s;
          popupQuestion := popupQuestion s;
          loading := loading s;
          selectedOption := Some index;
          targetWordId := targetWordId s |},
       Some (id, isRightOption index q))
  | _, _, _ => (s, None)
  end.

Definition handleClose (s : QuizPopupState) : QuizPopupState :=
  {| isVisible := false;
     popupQuestion := None;
     loading := loading s;
     selectedOption := None;
     targetWordId := None |}.

Definition hidden : QuizPopupState :=
  {| isVisible := false; popupQuestion := None; loading := false;
     selectedOption := None; targetWordId := None |}.

(** A popup showing a question on the word with identifier ["2"], and the
    same popup once the option at [index] has been clicked. *)
Definition asking : QuizPopupState :=
  {| isVisible := true;
     popupQuestion :=
       Some {| g_id := "7"; g_type := FillBlank;
               g_question := None; g_options := None;
               g_correctOptionIndex := Some (Json.JNumber 1 0);
               g_explanation := "" |};
     loading := false; selectedOption := None;
     targetWordId := Some "2" |}.

Definition answered (index : Z) : QuizPopupState :=
  {| isVisible := true;
     popupQuestion := popupQuestion asking;
     loading := false; selectedOption := Some index;
     targetWordId := Some "2" |}.

(** ** components/ExamMode.tsx and Notebook.tsx: the percentage shown *)

(** [Math.round] on a double: the nearest integer, the upper one of the two
    when the double lies half way. *)
Definition Math_round (x : Q) : Z := Qfloor (x + (1 # 2)).

(** The result screen:
    [Math.round((questions.filter((q,i) => q.correctOptionIndex === answers[i]).length
                 / questions.length) * 100)]. *)
Definition shownPercent (questions : list QuizQuestion) (answers : list Z) : Z :=
  let right :=
    filter (fun iq : nat * QuizQuestion =>
              match nth_error answers (fst iq) with
              | Some a => correctOptionIndex (snd iq) =? a
              | None => false
              end) (indexed questions) in
  Math_round (Double.mul (Double.div (inject_Z (Z.of_nat (length right)))
                                     (inject_Z (Z.of_nat (length questions))))
                         100).

(** The exam history of the notebook: [Math.round(res.score)]. *)
Definition historyPercent (res : ExamResult) : Z := Math_round (score res).

(** Case analysis on the result of the [callAI] invocation in the goal. *)
Ltac case_callAI :=
  match goal with
  | |- context [callAI ?p ?s ?sc ?t ?W ?st] =>
      let text := fresh "text" in
      let e := fresh "e" in
      let st' := fresh "st'" in
      destruct (callAI p s sc t W st) as [[text|e] st'] eqn:?
  end.

(** * Properties *)

(** ** The JSON reader terminates within its fuel *)

Section JsonFacts.

Lemma skip_ws_le (s : string) : (String.length (skip_ws s) <= String.length s)%nat.
Proof.
  induction s as [|c s IH]; simpl; [lia|].
  destruct (is_ws c); simpl; lia.
Qed.

Lemma closes_lt (c : ascii) (s r : string) :
  closes c s = Some r -> (String.length r < String.length s)%nat.
Proof.
  unfold closes. pose proof (skip_ws_le s) as Hle.
  destruct (skip_ws s) as [|c' rest]; [discriminate|].
  destruct (Ascii.eqb c' c); [|discriminate].
  intros H. inversion H; subst. simpl in Hle. lia.
Qed.

Lemma strip_prefix_le (p s r : string) :
  strip_prefix p s = Some r -> (String.length r <= String.length s)%nat.
Proof.
  revert s. induction p as [|a p IH]; intros s; simpl.
  - intros H. inversion H. lia.
  - destruct s as [|b s]; [discriminate|].
    destruct (Ascii.eqb a b); [|discriminate].
    intros H. apply IH in H. simpl. lia.
Qed.

Lemma digits_le (s : string) : (String.length (snd (digits s)) <= String.length s)%nat.
Proof.
  induction s as [|c s IH]; simpl; [lia|].
  destruct (digit_of c); simpl; [|lia].
  destruct (digits s) as [ds rest]. simpl in *. lia.
Qed.

Lemma int_part_lt (s : string) ds r :
  int_part s = Some (ds, r) -> (String.length r < String.length s)%nat.
Proof.
  unfold int_part. destruct s as [|c s]; [discriminate|].
  destruct (digit_of c) as [d|] eqn:Hd; [|discriminate].
  destruct (d =? 0)%Z.
  - intros H. inversion H; subst. simpl. lia.
  - simpl. rewrite Hd. pose proof (digits_le s) as Hle.
    destruct (digits s) as [ds' rest]. intros H. inversion H; subst.
    simpl in *. lia.
Qed.

Lemma frac_part_le (s : string) ds r :
  frac_part s = Some (ds, r) -> (String.length r <= String.length s)%nat.
Proof.
  unfold frac_part. destruct s as [|c s]; [intros H; inversion H; subst; lia|].
  destruct (Ascii.eqb c ".").
  - pose proof (digits_le s) as Hle. destruct (digits s) as [[|d fds] rest];
      [discriminate|]. intros H. inversion H; subst. simpl in *. lia.
  - intros H. inversion H; subst. lia.
Qed.

Lemma signed_le (s : string) : (String.length (snd (signed s)) <= String.length s)%nat.
Proof.
  unfold signed. destruct s as [|c s]; simpl; [lia|].
  destruct (Ascii.eqb c "+"); simpl; [lia|].
  destruct (Ascii.eqb c "-"); simpl; lia.
Qed.

Lemma exp_part_le (s : string) e r :
  exp_part s = Some (e, r) -> (String.length r <= String.length s)%nat.
Proof.
  unfold exp_part. destruct s as [|c s]; [intros H; inversion H; subst; lia|].
  destruct (Ascii.eqb c "e" || Ascii.eqb c "E").
  - pose proof (signed_le s) as Hs. destruct (signed s) as [sgn r1].
    pose proof (digits_le r1) as Hd. destruct (digits r1) as [[|d eds] rest];
      [discriminate|]. intros H. inversion H; subst. simpl in *. lia.
  - intros H. inversion H; subst. lia.
Qed.

Lemma parse_number_lt (neg : bool) (s : string) v r :
  parse_number neg s = Some (v, r) -> (String.length r < String.length s)%nat.
Proof.
  unfold parse_number.
  destruct (int_part s) as [[ids r1]|] eqn:Hi; [|discriminate].
  destruct (frac_part r1) as [[fds r2]|] eqn:Hf; [|discriminate].
  destruct (exp_part r2) as [[e r3]|] eqn:He; [|discriminate].
  intros H. inversion H; subst.
  apply int_part_lt in Hi. apply frac_part_le in Hf. apply exp_part_le in He. lia.
Qed.

Lemma cons_unit_rest c p t r :
  cons_unit c p = Some (t, r) -> exists t', p = Some (t', r).
Proof.
  destruct p as [[t' r']|]; simpl; [|discriminate].
  intros H. inversion H; subst. eauto.
Qed.

Lemma parse_chars_lt (s : string) t r :
  parse_chars s = Some (t, r) -> (String.length r < String.length s)%nat.
Proof.
  remember (String.length s) as n eqn:Hn. revert s t r Hn.
  induction n as [n IH] using lt_wf_ind. intros s t r Hn.
  destruct s as [|c s]; [discriminate|]. simpl in Hn. cbn [parse_chars].
  destruct (Ascii.eqb c quote); [intros H; inversion H; subst; simpl; lia|].
  destruct (Ascii.eqb c backslash).
  - destruct s as [|e s']; [discriminate|].
    destruct (Ascii.eqb e "u").
    + destruct s' as [|h1 [|h2 [|h3 [|h4 s'']]]]; try discriminate.
      destruct (hex4 h1 h2 h3 h4) as [u|]; [|discriminate].
      intros H. apply cons_unit_rest in H. destruct H as [t' H].
      eapply (IH (String.length s'')) in H; [|simpl in Hn; lia|reflexivity]. simpl in Hn. lia.
    + destruct (escape_of e); [|discriminate].
      intros H. apply cons_unit_rest in H. destruct H as [t' H].
      eapply (IH (String.length s')) in H; [|simpl in Hn; lia|reflexivity]. simpl in Hn. lia.
  - destruct (code c <? 32)%nat; [discriminate|].
    intros H. apply cons_unit_rest in H. destruct H as [t' H].
    eapply (IH (String.length s)) in H; [|lia|reflexivity]. lia.
Qed.


Lemma lift_rest {A} (p : option (A * string)) (a : A) (r : string) :
  lift p = Parsed a r -> p = Some (a, r).
Proof.
  destruct p as [[a' r']|]; simpl; [|discriminate].
  intros H. inversion H; subst. reflexivity.
Qed.

Lemma lift_fuel {A} (p : option (A * string)) : lift p <> OutOfFuel.
Proof. destruct p as [[a r]|]; discriminate. Qed.

Lemma literal_le tail v s v' r :
  literal tail v s = Parsed v' r -> (String.length r <= String.length s)%nat.
Proof.
  unfold literal. destruct (strip_prefix tail s) eqn:Hp; [|discriminate].
  intros H. inversion H; subst. eapply strip_prefix_le; eauto.
Qed.

Lemma literal_fuel tail v s : literal tail v s <> OutOfFuel.
Proof. unfold literal. destruct (strip_prefix tail s); discriminate. Qed.

(** Whatever the fuel, a value that is read consumes at least one character. *)
Lemma parse_consumes (f : nat) :
  (forall s v r, parse_value f s = Parsed v r -> (String.length r < String.length s)%nat) /\
  (forall s acc v r, parse_elems f s acc = Parsed v r -> (String.length r < String.length s)%nat) /\
  (forall s acc v r, parse_members f s acc = Parsed v r -> (String.length r < String.length s)%nat).
Proof.
  induction f as [|f [IHv [IHe IHm]]]; [repeat split; intros; discriminate|].
  split; [|split].
  - intros s v r. cbn [parse_value].
    pose proof (skip_ws_le s) as Hws.
    destruct (skip_ws s) as [|c t]; [discriminate|]. simpl in Hws.
    destruct (Ascii.eqb c quote).
    { intros H. apply lift_rest in H.
      destruct (parse_chars t) as [[k rest]|] eqn:Hc; [|discriminate].
      simpl in H. inversion H; subst. apply parse_chars_lt in Hc. lia. }
    destruct (Ascii.eqb c "[").
    { destruct (closes "]" t) as [rest|] eqn:Hcl.
      - intros H. inversion H; subst. apply closes_lt in Hcl. lia.
      - intros H. apply IHe in H. lia. }
    destruct (Ascii.eqb c "{").
    { destruct (closes "}" t) as [rest|] eqn:Hcl.
      - intros H. inversion H; subst. apply closes_lt in Hcl. lia.
      - intros H. apply IHm in H. lia. }
    destruct (Ascii.eqb c "t"); [intros H; apply literal_le in H; lia|].
    destruct (Ascii.eqb c "f"); [intros H; apply literal_le in H; lia|].
    destruct (Ascii.eqb c "n"); [intros H; apply literal_le in H; lia|].
    destruct (Ascii.eqb c "-").
    { intros H. apply lift_rest, parse_number_lt in H. lia. }
    intros H. apply lift_rest, parse_number_lt in H. simpl in H. lia.
  - intros s acc v r. cbn [parse_elems].
    destruct (parse_value f s) as [v1 rest| |] eqn:Hv; try discriminate.
    apply IHv in Hv. pose proof (skip_ws_le rest) as Hws.
    destruct (skip_ws rest) as [|c rest']; [discriminate|]. simpl in Hws.
    destruct (Ascii.eqb c ","); [intros H; apply IHe in H; lia|].
    destruct (Ascii.eqb c "]"); [|discriminate].
    intros H. inversion H; subst. lia.
  - intros s acc v r. cbn [parse_members].
    pose proof (skip_ws_le s) as Hws.
    destruct (skip_ws s) as [|c t]; [discriminate|]. simpl in Hws.
    destruct (Ascii.eqb c quote); [|discriminate].
    destruct (parse_chars t) as [[k rest]|] eqn:Hc; [|discriminate].
    apply parse_chars_lt in Hc.
    destruct (closes ":" rest) as [rest1|] eqn:Hcl; [|discriminate].
    apply closes_lt in Hcl.
    destruct (parse_value f rest1) as [v1 rest2| |] eqn:Hv; try discriminate.
    apply IHv in Hv. pose proof (skip_ws_le rest2) as Hws2.
    destruct (skip_ws rest2) as [|c' rest3]; [discriminate|]. simpl in Hws2.
    destruct (Ascii.eqb c' ","); [intros H; apply IHm in H; lia|].
    destruct (Ascii.eqb c' "}"); [|discriminate].
    intros H. inversion H; subst. lia.
Qed.

(** With two units of fuel per character the parser does not run out. *)
Lemma parse_fuel (f : nat) :
  (forall s, (2 * String.length s + 1 <= f)%nat -> parse_value f s <> OutOfFuel) /\
  (forall s acc, (2 * String.length s + 2 <= f)%nat -> parse_elems f s acc <> OutOfFuel) /\
  (forall s acc, (2 * String.length s + 2 <= f)%nat -> parse_members f s acc <> OutOfFuel).
Proof.
  induction f as [|f [IHv [IHe IHm]]]; [repeat split; intros; lia|].
  destruct (parse_consumes f) as [Cv _].
  split; [|split].
  - intros s Hf. cbn [parse_value].
    pose proof (skip_ws_le s) as Hws.
    destruct (skip_ws s) as [|c t]; [discriminate|]. simpl in Hws.
    destruct (Ascii.eqb c quote); [apply lift_fuel|].
    destruct (Ascii.eqb c "[").
    { destruct (closes "]" t); [discriminate|]. apply IHe. lia. }
    destruct (Ascii.eqb c "{").
    { destruct (closes "}" t); [discriminate|]. apply IHm. lia. }
    destruct (Ascii.eqb c "t"); [apply literal_fuel|].
    destruct (Ascii.eqb c "f"); [apply literal_fuel|].
    destruct (Ascii.eqb c "n"); [apply literal_fuel|].
    destruct (Ascii.eqb c "-"); apply lift_fuel.
  - intros s acc Hf. cbn [parse_elems].
    pose proof (IHv s) as Hv. pose proof (Cv s) as Hc.
    destruct (parse_value f s) as [v rest| |]; [|discriminate|apply Hv; lia].
    specialize (Hc v rest eq_refl). pose proof (skip_ws_le rest) as Hws.
    destruct (skip_ws rest) as [|c rest']; [discriminate|]. simpl in Hws.
    destruct (Ascii.eqb c ","); [apply IHe; lia|].
    destruct (Ascii.eqb c "]"); discriminate.
  - intros s acc Hf. cbn [parse_members].
    pose proof (skip_ws_le s) as Hws.
    destruct (skip_ws s) as [|c t]; [discriminate|]. simpl in Hws.
    destruct (Ascii.eqb c quote); [|discriminate].
    destruct (parse_chars t) as [[k rest]|] eqn:Hk; [|discriminate].
    apply parse_chars_lt in Hk.
    destruct (closes ":" rest) as [rest1|] eqn:Hcl; [|discriminate].
    apply closes_lt in Hcl.
    pose proof (IHv rest1) as Hv. pose proof (Cv rest1) as Hc.
    destruct (parse_value f rest1) as [v rest2| |]; [|discriminate|apply Hv; lia].
    specialize (Hc v rest2 eq_refl). pose proof (skip_ws_le rest2) as Hws2.
    destruct (skip_ws rest2) as [|c' rest3]; [discriminate|]. simpl in Hws2.
    destruct (Ascii.eqb c' ","); [apply IHm; lia|].
    destruct (Ascii.eqb c' "}"); discriminate.
Qed.

(** [JSON.parse] never answers [None] for want of fuel. *)
Lemma parse_value_fuel (s : string) : parse_value (fuel_for s) s <> OutOfFuel.
Proof. apply parse_fuel. unfold fuel_for. lia. Qed.

End JsonFacts.


(** ** The saved-word collection *)

Section StoreFacts.

Lemma sameText_refl (w : SavedWord) : sameText w w = true.
Proof. unfold sameText. apply String.eqb_refl. Qed.

Lemma sameText_text (w w' : SavedWord) :
  sameText w w' = true <-> Js.toLowerCase (word w') = Js.toLowerCase (word w).
Proof. unfold sameText. apply String.eqb_eq. Qed.

Lemma find_existsb {A} (f : A -> bool) (l : list A) :
  find f l = None <-> existsb f l = false.
Proof.
  induction l as [|a l IH]; simpl; [tauto|].
  destruct (f a); simpl; [split; discriminate | exact IH].
Qed.

Lemma existsb_false_filter {A} (f : A -> bool) (l : list A) :
  existsb f l = false -> filter f l = [].
Proof.
  induction l as [|a l IH]; simpl; [reflexivity|].
  destruct (f a); simpl; [discriminate | exact IH].
Qed.

Lemma absent_text (w : SavedWord) (prev : list SavedWord) :
  existsb (sameText w) prev = false ->
  ~ In (Js.toLowerCase (word w)) (texts prev).
Proof.
  intros Hnone Hin. unfold texts in Hin.
  apply in_map_iff in Hin. destruct Hin as [x [Hx Hin]].
  assert (Hex : existsb (sameText w) prev = true).
  { apply existsb_exists. exists x. split; [exact Hin|].
    apply sameText_text. exact Hx. }
  congruence.
Qed.

Lemma texts_quiz (i : string) (ok : bool) (prev : list SavedWord) :
  texts (handleQuizResult i ok prev) = texts prev.
Proof.
  unfold texts, handleQuizResult. rewrite map_map.
  apply map_ext. intros w. destruct (String.eqb (sw_id w) i); reflexivity.
Qed.

Lemma texts_filter_NoDup (f : SavedWord -> bool) (prev : list SavedWord) :
  NoDup (texts prev) -> NoDup (texts (filter f prev)).
Proof.
  induction prev as [|w prev IH]; simpl; intros Hnd; [constructor|].
  inversion Hnd as [|? ? Hnotin Hrest]; subst.
  destruct (f w); simpl; [|auto].
  constructor; [|auto].
  intros Hin. apply Hnotin.
  unfold texts in *. apply in_map_iff in Hin.
  destruct Hin as [x [Hx Hin]]. apply filter_In in Hin.
  apply in_map_iff. exists x. tauto.
Qed.

Lemma applyOp_NoDup (op : StoreOp) (prev : list SavedWord) :
  NoDup (texts prev) -> NoDup (texts (applyOp prev op)).
Proof.
  intros Hnd. destruct op as [w|i ok|i]; simpl.
  - unfold handleSaveWord.
    destruct (find (sameText w) prev) eqn:Hfind; [exact Hnd|].
    simpl. constructor; [|exact Hnd].
    apply absent_text. apply find_existsb. exact Hfind.
  - rewrite texts_quiz. exact Hnd.
  - apply texts_filter_NoDup. exact Hnd.
Qed.

Lemma fold_applyOp_NoDup (ops : list StoreOp) (st : list SavedWord) :
  NoDup (texts st) -> NoDup (texts (fold_left applyOp ops st)).
Proof.
  revert st. induction ops as [|op ops IH]; simpl; intros st Hnd; [exact Hnd|].
  apply IH. apply applyOp_NoDup. exact Hnd.
Qed.

Lemma applyOp_nonNegative (op : StoreOp) (prev : list SavedWord) :
  (forall w, op = OpSave w -> nonNegative w) ->
  Forall nonNegative prev -> Forall nonNegative (applyOp prev op).
Proof.
  intros Hnew Hall. destruct op as [w|i ok|i]; simpl.
  - unfold handleSaveWord. destruct (find (sameText w) prev); [exact Hall|].
    constructor; [apply Hnew; reflexivity | exact Hall].
  - unfold handleQuizResult. apply Forall_map.
    eapply Forall_impl; [|exact Hall].
    intros w Hw. unfold nonNegative in *.
    destruct (String.eqb (sw_id w) i); [|exact Hw].
    destruct ok; simpl; lia.
  - unfold handleDeleteWord. apply Forall_forall. intros w Hin.
    apply filter_In in Hin. destruct Hin as [Hin _].
    eapply Forall_forall in Hall; eauto.
Qed.

Lemma fold_actions_nonNegative (acts : list UserAction) (st : list SavedWord) :
  Forall nonNegative st ->
  Forall nonNegative (fold_left applyOp (map opOf acts) st).
Proof.
  revert st. induction acts as [|a acts IH]; simpl; intros st Hall; [exact Hall|].
  apply IH. apply applyOp_nonNegative; [|exact Hall].
  intros w Hw. destruct a; simpl in Hw; inversion Hw; subst.
  unfold nonNegative. simpl. lia.
Qed.

End StoreFacts.

(** C1. Saving a word whose text equals, letter case apart, that of a word
    already in the collection returns the collection unchanged; after any
    sequence of updates starting from the empty collection no two saved
    words share a text, letter case apart; and saving a word whose text is
    not yet there leaves exactly one entry with that text. *)
Theorem save_word_once (ops : list StoreOp) (w : SavedWord) (prev : list SavedWord) :
  (existsb (sameText w) prev = true -> handleSaveWord w prev = prev) /\
  NoDup (texts (runOps ops)) /\
  (countText w (runOps ops) <= 1)%nat /\
  (existsb (sameText w) prev = false ->
   countText w (handleSaveWord w prev) = 1%nat).
Proof.
  assert (Hnd : NoDup (texts (runOps ops))).
  { unfold runOps. apply fold_applyOp_NoDup. constructor. }
  repeat split.
  - intros Hdup. unfold handleSaveWord.
    destruct (find (sameText w) prev) eqn:Hfind; [reflexivity|].
    apply find_existsb in Hfind. congruence.
  - exact Hnd.
  - unfold countText. revert Hnd. generalize (runOps ops) as st.
    induction st as [|x st IH]; simpl; intros Hnd; [lia|].
    inversion Hnd as [|? ? Hnotin Hrest]; subst.
    destruct (sameText w x) eqn:Hx; simpl; [|auto].
    assert (Hnone : filter (sameText w) st = []).
    { apply existsb_false_filter.
      destruct (existsb (sameText w) st) eqn:Hex; [|reflexivity].
      exfalso. apply Hnotin. apply existsb_exists in Hex.
      destruct Hex as [y [Hin Hy]].
      apply sameText_text in Hx. apply sameText_text in Hy.
      unfold texts. apply in_map_iff. exists y. split; [congruence | exact Hin]. }
    rewrite Hnone. simpl. lia.
  - intros Hnew. unfold handleSaveWord, countText.
    destruct (find (sameText w) prev) eqn:Hfind.
    + apply find_some in Hfind. destruct Hfind as [Hin Hs].
      assert (existsb (sameText w) prev = true)
        by (apply existsb_exists; eauto).
      congruence.
    + simpl. rewrite sameText_refl. simpl.
      rewrite (existsb_false_filter _ _ Hnew). reflexivity.
Qed.

Lemma save_word_once_witness :
  let cat := newSavedWord (defOf "cat") 1 1 in
  let CAT := newSavedWord (defOf "CAT") 2 2 in
  handleSaveWord CAT [cat] = [cat] /\
  countText cat (handleSaveWord cat []) = 1%nat.
Proof.
  intros cat CAT. split.
  - apply (save_word_once [] CAT [cat]). reflexivity.
  - apply (save_word_once [] cat []). reflexivity.
Defined.

(** C10. Every saved word of every collection the user interface can reach
    has a review count of at least zero: words enter with a count of [0], a
    passed quiz adds one, and a failed quiz subtracts one but stops at zero. *)
Theorem reviewCount_never_negative (acts : list UserAction) (w : SavedWord)
    (success : bool) :
  Forall (fun x => 0 <= reviewCount x) (runActions acts) /\
  map reviewCount (handleQuizResult (sw_id w) success [w]) =
    [if success then reviewCount w + 1 else Z.max 0 (reviewCount w - 1)].
Proof.
  split.
  - unfold runActions, runOps.
    apply (fold_actions_nonNegative acts []). constructor.
  - simpl. rewrite String.eqb_refl. reflexivity.
Qed.

(** ** Rounding to the nearest double *)

Section DoubleFacts.

Import Double.

Lemma roundEven_cases (q : Q) :
  (roundEven q = Qfloor q /\ (q - inject_Z (Qfloor q) <= 1 # 2)%Q) \/
  (roundEven q = Qfloor q + 1 /\ (1 # 2 <= q - inject_Z (Qfloor q))%Q).
Proof.
  unfold roundEven.
  destruct (Qcompare_spec (q - inject_Z (Qfloor q)) (1 # 2)) as [H|H|H].
  - destruct (Z.even (Qfloor q)); [left | right]; split; try reflexivity;
      rewrite H; apply Qle_refl.
  - left. split; [reflexivity | apply Qlt_le_weak; exact H].
  - right. split; [reflexivity | apply Qlt_le_weak; exact H].
Qed.

Lemma roundEven_le (q : Q) (n : Z) : (q <= inject_Z n)%Q -> roundEven q <= n.
Proof.
  intros Hq. pose proof (Qfloor_resp_le _ _ Hq) as Hf. rewrite Qfloor_Z in Hf.
  destruct (roundEven_cases q) as [[-> _]|[-> Hhalf]]; [exact Hf|].
  assert (Hlt : (inject_Z (Qfloor q) < inject_Z n)%Q) by lra.
  rewrite <- Zlt_Qlt in Hlt. lia.
Qed.

Lemma roundEven_ge (q : Q) (n : Z) : (inject_Z n <= q)%Q -> n <= roundEven q.
Proof.
  intros Hq. pose proof (Qfloor_resp_le _ _ Hq) as Hf. rewrite Qfloor_Z in Hf.
  destruct (roundEven_cases q) as [[-> _]|[-> _]]; lia.
Qed.

Lemma roundEven_near (q : Q) :
  (q - (1 # 2) <= inject_Z (roundEven q) <= q + (1 # 2))%Q.
Proof.
  pose proof (Qfloor_le q) as Hlo. pose proof (Qlt_floor q) as Hhi.
  rewrite inject_Z_plus in Hhi. change (inject_Z 1) with 1%Q in Hhi.
  destruct (roundEven_cases q) as [[-> H]|[-> H]];
    [|rewrite inject_Z_plus; change (inject_Z 1) with 1%Q]; lra.
Qed.

Lemma pow2_pos (e : Z) : (0 < 2 ^ e)%Q.
Proof. apply Qpower_0_lt. reflexivity. Qed.

Lemma pow2_nat (e : Z) : 0 <= e -> (2 ^ e == inject_Z (2 ^ e))%Q.
Proof. intros He. rewrite Zpower_Qpower by exact He. reflexivity. Qed.

Lemma pow2_add (a b : Z) : (2 ^ (a + b) == 2 ^ a * 2 ^ b)%Q.
Proof. apply Qpower_plus. discriminate. Qed.

Lemma pow2_le (a b : Z) : a <= b -> (2 ^ a <= 2 ^ b)%Q.
Proof. intros H. apply Qpower_le_compat_l; [exact H | discriminate]. Qed.

Lemma pow2_lt_inv (a b : Z) : (2 ^ a < 2 ^ b)%Q -> a < b.
Proof.
  intros H. destruct (Z_lt_le_dec a b) as [Hlt|Hge]; [exact Hlt|].
  apply pow2_le in Hge. lra.
Qed.

Lemma ilog2_low (x : Q) : (0 < x)%Q -> (2 ^ ilog2 x <= x)%Q.
Proof.
  destruct x as [a b]. intros Hx.
  assert (Ha : 0 < a) by (unfold Qlt in Hx; simpl in Hx; lia).
  unfold ilog2. cbn [Qnum Qden].
  set (la := Z.log2 a). set (lb := Z.log2 (Z.pos b)).
  pose proof (Z.log2_spec a Ha) as [Hla _]. fold la in Hla.
  pose proof (Z.log2_spec (Z.pos b) eq_refl) as [_ Hlb]. fold lb in Hlb.
  assert (Hla0 : 0 <= la) by apply Z.log2_nonneg.
  assert (Hlb0 : 0 <= lb) by apply Z.log2_nonneg.
  assert (Hb : (0 < inject_Z (Z.pos b))%Q) by reflexivity.
  assert (Hab : (a # b == inject_Z a / inject_Z (Z.pos b))%Q) by apply Qmake_Qdiv.
  assert (Hgoal : forall r, (2 ^ r * inject_Z (Z.pos b) <= inject_Z a)%Q ->
                            (2 ^ r <= a # b)%Q).
  { intros r Hr. rewrite Hab. apply Qle_shift_div_l; assumption. }
  destruct (Z.leb_spec (Z.pos b * 2 ^ Z.max 0 (la - lb)) (a * 2 ^ Z.max 0 (- (la - lb))))
    as [Ht|Ht]; apply Hgoal.
  - destruct (Z_le_gt_dec 0 (la - lb)) as [Hk|Hk].
    + rewrite Z.max_r in Ht by lia. rewrite Z.max_l in Ht by lia.
      rewrite pow2_nat by lia. rewrite <- inject_Z_mult, <- Zle_Qle.
      rewrite Z.pow_0_r in Ht. lia.
    + rewrite Z.max_l in Ht by lia. rewrite Z.max_r in Ht by lia.
      replace (la - lb) with (- (- (la - lb))) by lia.
      rewrite Qpower_opp. rewrite pow2_nat by lia.
      set (p := 2 ^ (- (la - lb))) in *.
      assert (Hp : 0 < p) by (apply Z.pow_pos_nonneg; lia).
      assert (HpQ : (0 < inject_Z p)%Q) by (rewrite <- (Zlt_Qlt 0); exact Hp).
      rewrite Z.pow_0_r in Ht. rewrite Zle_Qle, !inject_Z_mult in Ht.
      change (inject_Z 1) with 1%Q in Ht.
      apply Qle_shift_div_r in Ht; [|exact HpQ].
      unfold Qdiv in Ht. lra.
  - clear Ht.
    assert (H1 : (2 ^ (la - lb - 1) * 2 ^ (lb + 1) == 2 ^ la)%Q).
    { rewrite <- pow2_add. replace (la - lb - 1 + (lb + 1)) with la by lia.
      reflexivity. }
    assert (H2 : (inject_Z (Z.pos b) <= 2 ^ (lb + 1))%Q).
    { rewrite pow2_nat by lia. rewrite <- Zle_Qle. unfold Z.succ in Hlb. lia. }
    assert (H3 : (2 ^ la <= inject_Z a)%Q).
    { rewrite pow2_nat by lia. rewrite <- Zle_Qle. exact Hla. }
    pose proof (pow2_pos (la - lb - 1)) as Hpos.
    nra.
Qed.


Lemma lastPlace_le (x : Q) (K : Z) :
  (0 < x)%Q -> (x < 2 ^ (K + 1))%Q -> -1022 <= K -> lastPlace x <= K - 52.
Proof.
  intros Hx Hlt HK. unfold lastPlace.
  assert (Habs : Qabs x = x).
  { destruct x as [a b]. unfold Qlt in Hx. simpl in Hx. unfold Qabs.
    rewrite Z.abs_eq by lia. reflexivity. }
  rewrite Habs. pose proof (ilog2_low x Hx) as Hlow.
  assert (Hk : ilog2 x < K + 1) by (apply pow2_lt_inv; lra).
  lia.
Qed.

Lemma round_zero (x : Q) : (x == 0)%Q -> round x = 0%Q.
Proof.
  intros H. unfold round. apply Qeq_bool_iff in H. rewrite H. reflexivity.
Qed.

Lemma round_nonzero (x : Q) :
  ~ (x == 0)%Q ->
  round x = (inject_Z (roundEven (x / 2 ^ lastPlace x)) * 2 ^ lastPlace x)%Q.
Proof.
  intros H. unfold round. destruct (Qeq_bool x 0) eqn:Hb; [|reflexivity].
  apply Qeq_bool_iff in Hb. contradiction.
Qed.

(** Below [2^53] the last place of a double has a non-positive exponent. *)
Lemma scaled (x : Q) :
  (0 < x)%Q -> (x < 2 ^ 53)%Q ->
  exists p : Z, 0 < p /\ (2 ^ lastPlace x == / inject_Z p)%Q.
Proof.
  intros Hx Hlt. pose proof (lastPlace_le x 52 Hx Hlt ltac:(lia)) as He.
  exists (2 ^ (- lastPlace x)). split; [apply Z.pow_pos_nonneg; lia|].
  rewrite <- pow2_nat by lia. rewrite Qpower_opp, Qinv_involutive. reflexivity.
Qed.

Lemma round_le (x : Q) (B : Z) :
  0 < B -> (inject_Z B < 2 ^ 53)%Q -> (x <= inject_Z B)%Q ->
  (round x <= inject_Z B)%Q.
Proof.
  intros HB Hsmall Hx.
  assert (HBQ : (0 < inject_Z B)%Q) by (rewrite <- (Zlt_Qlt 0); exact HB).
  destruct (Qeq_dec x 0) as [H0|H0]; [rewrite (round_zero x H0); lra|].
  rewrite (round_nonzero x H0).
  pose proof (pow2_pos (lastPlace x)) as He.
  destruct (Qlt_le_dec 0 x) as [Hpos|Hneg].
  - destruct (scaled x Hpos ltac:(lra)) as [p [Hp Hpe]].
    assert (HpQ : (0 < inject_Z p)%Q) by (rewrite <- (Zlt_Qlt 0); exact Hp).
    assert (Hm : roundEven (x / 2 ^ lastPlace x) <= B * p).
    { apply roundEven_le. rewrite Hpe. unfold Qdiv. rewrite Qinv_involutive.
      rewrite inject_Z_mult. nra. }
    rewrite Zle_Qle, inject_Z_mult in Hm.
    set (m := roundEven (x / 2 ^ lastPlace x)) in *. rewrite Hpe.
    apply Qle_shift_div_r; assumption.
  - assert (Hm : roundEven (x / 2 ^ lastPlace x) <= 0).
    { apply roundEven_le. change (inject_Z 0) with 0%Q.
      apply Qle_shift_div_r; [exact He | lra]. }
    rewrite Zle_Qle in Hm. change (inject_Z 0) with 0%Q in Hm. nra.
Qed.

Lemma round_ge (x : Q) (B : Z) :
  0 <= B -> (inject_Z B <= x)%Q -> (x < 2 ^ 53)%Q ->
  (inject_Z B <= round x)%Q.
Proof.
  intros HB Hx Hsmall.
  assert (HBQ : (0 <= inject_Z B)%Q) by (rewrite <- (Zle_Qle 0); exact HB).
  destruct (Qeq_dec x 0) as [H0|H0]; [rewrite (round_zero x H0); lra|].
  rewrite (round_nonzero x H0).
  assert (Hpos : (0 < x)%Q).
  { destruct (Qlt_le_dec 0 x) as [H|H]; [exact H|]. exfalso. apply H0. lra. }
  destruct (scaled x Hpos Hsmall) as [p [Hp Hpe]].
  assert (HpQ : (0 < inject_Z p)%Q) by (rewrite <- (Zlt_Qlt 0); exact Hp).
  assert (Hm : B * p <= roundEven (x / 2 ^ lastPlace x)).
  { apply roundEven_ge. rewrite Hpe. unfold Qdiv. rewrite Qinv_involutive.
    rewrite inject_Z_mult. nra. }
  rewrite Zle_Qle, inject_Z_mult in Hm.
  set (m := roundEven (x / 2 ^ lastPlace x)) in *. rewrite Hpe.
  apply Qle_shift_div_l; assumption.
Qed.

(** Rounding moves a number by at most half a unit in the last place. *)
Lemma round_error (x : Q) (K : Z) :
  (0 <= x)%Q -> (x < 2 ^ (K + 1))%Q -> -1022 <= K ->
  (x - 2 ^ (K - 53) <= round x <= x + 2 ^ (K - 53))%Q.
Proof.
  intros Hx Hlt HK. pose proof (pow2_pos (K - 53)) as HpK.
  destruct (Qeq_dec x 0) as [H0|H0]; [rewrite (round_zero x H0); lra|].
  rewrite (round_nonzero x H0).
  assert (Hpos : (0 < x)%Q).
  { destruct (Qlt_le_dec 0 x) as [H|H]; [exact H|]. exfalso. apply H0. lra. }
  pose proof (lastPlace_le x K Hpos Hlt HK) as He.
  pose proof (pow2_pos (lastPlace x)) as Hpe.
  pose proof (roundEven_near (x / 2 ^ lastPlace x)) as Hnear.
  assert (Hhalf : (2 ^ lastPlace x * (1 # 2) <= 2 ^ (K - 53))%Q).
  { replace (K - 53) with (K - 52 + -1) by lia. rewrite pow2_add.
    pose proof (pow2_le _ _ He) as Hle.
    assert (H2 : (2 ^ (-1) == 1 # 2)%Q) by reflexivity.
    rewrite H2. pose proof (pow2_pos (K - 52)). nra. }
  set (e := (2 ^ lastPlace x)%Q) in *.
  set (m := inject_Z (roundEven (x / e))) in *.
  assert (Hxe : (x / e * e == x)%Q) by (field; lra).
  split; nra.
Qed.

(** The double [(c / N) * 100] of a count [c] among [N]. *)
Lemma percentage (c N : Z) :
  0 <= c <= N -> 0 < N ->
  let p := mul (div (inject_Z c) (inject_Z N)) 100 in
  (0 <= p <= 100)%Q /\
  (p - (1 # 2 ^ 45) <= 100 * inject_Z c / inject_Z N <= p + (1 # 2 ^ 45))%Q /\
  (c = 0 -> (p == 0)%Q) /\
  (c = N -> (p == 100)%Q).
Proof.
  intros Hc HN p. subst p. unfold mul, div.
  assert (HNQ : (0 < inject_Z N)%Q) by (rewrite <- (Zlt_Qlt 0); exact HN).
  assert (HcQ : (0 <= inject_Z c <= inject_Z N)%Q)
    by (split; [rewrite <- (Zle_Qle 0) | rewrite <- Zle_Qle]; lia).
  set (x := (inject_Z c / inject_Z N)%Q).
  assert (Hx : (0 <= x <= 1)%Q).
  { unfold x. split; [apply Qle_shift_div_l | apply Qle_shift_div_r]; lra. }
  assert (H53 : (2 ^ 53 == 9007199254740992)%Q) by reflexivity.
  assert (H1 : (2 ^ (0 + 1) == 2)%Q) by reflexivity.
  assert (H7 : (2 ^ (6 + 1) == 128)%Q) by reflexivity.
  assert (He1 : (2 ^ (0 - 53) == 1 # 2 ^ 53)%Q) by reflexivity.
  assert (He2 : (2 ^ (6 - 53) == 1 # 2 ^ 47)%Q) by reflexivity.
  set (y := round x).
  assert (Hy : (0 <= y <= 1)%Q).
  { split.
    - apply (round_ge x 0); [lia | apply Hx | lra].
    - apply (round_le x 1); [lia | rewrite H53; reflexivity | apply Hx]. }
  pose proof (round_error x 0 ltac:(lra) ltac:(lra) ltac:(lia)) as Hey.
  fold y in Hey. rewrite He1 in Hey.
  assert (Hy100 : (0 <= y * 100 <= 100)%Q) by lra.
  pose proof (round_error (y * 100) 6 ltac:(lra) ltac:(lra) ltac:(lia)) as Hep.
  rewrite He2 in Hep.
  assert (Hxq : (100 * inject_Z c / inject_Z N == 100 * x)%Q)
    by (unfold x; field; lra).
  split; [|split; [|split]].
  - split.
    + apply (round_ge (y * 100) 0); [lia | apply Hy100 | lra].
    + apply (round_le (y * 100) 100); [lia | rewrite H53; reflexivity | apply Hy100].
  - rewrite Hxq.
    change (1 # 2 ^ 53)%Q with (1 # 9007199254740992)%Q in Hey.
    change (1 # 2 ^ 47)%Q with (1 # 140737488355328)%Q in Hep.
    change (1 # 2 ^ 45)%Q with (1 # 35184372088832)%Q.
    clear - Hey Hep. clearbody y x. lra.
  - intros ->. assert (Hx0 : (x == 0)%Q) by (unfold x; field; lra).
    unfold y. rewrite (round_zero x Hx0).
    rewrite round_zero; [reflexivity | ring].
  - intros ->. assert (Hx1 : (x == 1)%Q) by (unfold x; field; lra).
    assert (Hy1 : (y == 1)%Q).
    { apply Qle_antisym; [apply Hy|].
      apply (round_ge x 1); [lia | rewrite Hx1; apply Qle_refl
                             | rewrite Hx1, H53; reflexivity]. }
    assert (Hy2 : (y * 100 == 100)%Q) by (rewrite Hy1; reflexivity).
    apply Qle_antisym.
    + apply (round_le (y * 100) 100);
        [lia | rewrite H53; reflexivity | rewrite Hy2; apply Qle_refl].
    + apply (round_ge (y * 100) 100);
        [lia | rewrite Hy2; apply Qle_refl | rewrite Hy2, H53; reflexivity].
Qed.

End DoubleFacts.

(** On every count among up to sixty questions the percentage is the one the
    Standard Library's specification of binary64 gives. *)
Lemma percentage_as_SpecFloat :
  forallb (fun cn : Z * Z =>
             match Double.percentBySpecFloat (fst cn) (snd cn) with
             | Some v =>
                 Qeq_bool v (Double.mul (Double.div (inject_Z (fst cn))
                                                    (inject_Z (snd cn))) 100)
             | None => false
             end)
          (counts 60) = true.
Proof. vm_compute. reflexivity. Qed.

(** ** The exam scorer *)

Section ExamFacts.

Variable answers : list Z.

Lemma grade_fold (l : list (nat * QuizQuestion)) (sc : Z) (ms : list Mistake) :
  fold_left (gradeStep answers) l (sc, ms) =
  (sc + Z.of_nat (length (filter (rightAt answers) l)),
   (ms ++ map mistakeOf (map snd (filter (wrongAt answers) l)))%list).
Proof.
  revert sc ms. induction l as [|[idx q] l IH]; intros sc ms.
  - simpl. rewrite Z.add_0_r, app_nil_r. reflexivity.
  - cbn [fold_left filter gradeStep].
    change (wrongAt answers (idx, q)) with (negb (isCorrect answers idx q)).
    change (rightAt answers (idx, q)) with (isCorrect answers idx q).
    destruct (isCorrect answers idx q); cbn [negb]; rewrite IH.
    + f_equal. cbn [length]. lia.
    + f_equal. cbn [map]. rewrite <- app_assoc. reflexivity.
Qed.

Lemma right_wrong_split (l : list (nat * QuizQuestion)) :
  (length (filter (rightAt answers) l) + length (filter (wrongAt answers) l)
   = length l)%nat.
Proof.
  induction l as [|qi l IH]; simpl; [reflexivity|].
  unfold wrongAt at 1. destruct (rightAt answers qi); simpl; lia.
Qed.

Lemma indexed_length {A} (xs : list A) : length (indexed xs) = length xs.
Proof.
  unfold indexed. rewrite length_combine, length_seq. apply Nat.min_id.
Qed.

End ExamFacts.

(** C5, as stated, fails: the score is not [100 * c / N].  With two right
    answers out of three the code stores the double [(2 / 3) * 100], which is
    66.66666666666666 ([4691249611844266 / 2^46]): it is neither the number
    [200 / 3] nor the double nearest to it, 66.66666666666667, which is what
    [100 * 2 / 3] gives on doubles. *)
Lemma exam_score_inexact :
  let r := calculateResult threeQuestions [0; 0; 1] 5 6 in
  correctCount threeQuestions [0; 0; 1] = 2%nat /\
  score r == 4691249611844266 # 2 ^ 46 /\
  ~ score r == 100 * 2 / 3 /\
  ~ score r == Double.div (Double.mul 100 2) 3.
Proof.
  split; [reflexivity|]. split; [vm_compute; reflexivity|].
  split; intros H; vm_compute in H; discriminate.
Qed.

(** C5, amended. For an exam of [N > 0] questions, with [c] the number of
    positions [i] at which [answers[i]] equals
    [questions[i].correctOptionIndex], the loop counts [c] right answers and
    the score is the double [(c / N) * 100], the quotient and the product
    each rounded to the nearest double.  It lies between 0 and 100, within
    [2^-45] of [100 * c / N], and is exactly 0 when [c = 0] and exactly 100
    when [c = N].  The result has [N - c] mistakes, [totalQuestions = N], and
    its mistakes are, in order, the (question, correct answer) pairs of the
    questions answered otherwise. *)
Theorem exam_result_counts (questions : list QuizQuestion) (answers : list Z)
    (now1 now2 : Z) :
  questions <> [] ->
  let r := calculateResult questions answers now1 now2 in
  let N := length questions in
  let c := correctCount questions answers in
  fst (grade questions answers) = Z.of_nat c /\
  score r = Double.mul (Double.div (inject_Z (Z.of_nat c)) (inject_Z (Z.of_nat N))) 100 /\
  (0 <= score r <= 100)%Q /\
  (score r - (1 # 2 ^ 45) <= 100 * inject_Z (Z.of_nat c) / inject_Z (Z.of_nat N)
                          <= score r + (1 # 2 ^ 45))%Q /\
  (c = 0%nat -> score r == 0) /\
  (c = N -> score r == 100) /\
  length (mistakes r) = (N - c)%nat /\
  totalQuestions r = Z.of_nat N /\
  mistakes r = map mistakeOf (missed questions answers).
Proof.
  intros Hne r N c. subst r.
  pose proof (right_wrong_split answers (indexed questions)) as Hsplit.
  rewrite indexed_length in Hsplit. fold N in Hsplit.
  assert (HN : (0 < N)%nat) by (subst N; destruct questions; [congruence | simpl; lia]).
  assert (Hc : (c <= N)%nat) by (subst c; unfold correctCount; lia).
  destruct (percentage (Z.of_nat c) (Z.of_nat N) ltac:(lia) ltac:(lia))
    as [Hrange [Hnear [Hnone Hall]]].
  unfold calculateResult, grade. rewrite grade_fold.
  cbn [score mistakes totalQuestions fst]. rewrite Z.add_0_l.
  fold N. unfold correctCount in c. fold c.
  split; [reflexivity|]. split; [reflexivity|].
  split; [exact Hrange|]. split; [exact Hnear|].
  split; [intros H0; apply Hnone; lia|]. split; [intros HcN; apply Hall; lia|].
  split; [|split; reflexivity].
  cbn [app]. rewrite !length_map. subst c. unfold correctCount. lia.
Qed.

Lemma exam_result_counts_witness :
  let r := calculateResult threeQuestions [0; 0; 1] 5 6 in
  fst (grade threeQuestions [0; 0; 1]) = 2 /\
  score r = Double.mul (Double.div 2 3) 100 /\
  (0 <= score r <= 100)%Q /\
  (score r - (1 # 2 ^ 45) <= 100 * 2 / 3 <= score r + (1 # 2 ^ 45))%Q /\
  (2%nat = 0%nat -> score r == 0) /\
  (2%nat = 3%nat -> score r == 100) /\
  length (mistakes r) = 1%nat /\
  totalQuestions r = 3 /\
  mistakes r = [ {| m_question := "q2"; correctAns := Some "d" |} ].
Proof.
  apply (exam_result_counts threeQuestions [0; 0; 1] 5 6). discriminate.
Defined.

(** ** Fence stripping *)

Section FenceFacts.

Lemma append_nil_r (s : string) : s ++ "" = s.
Proof. induction s as [|c s IH]; simpl; [reflexivity | now rewrite IH]. Qed.

Lemma append_assoc (a b c : string) : (a ++ b) ++ c = a ++ (b ++ c).
Proof. induction a as [|x a IH]; simpl; [reflexivity | now rewrite IH]. Qed.

Lemma append_length (a b : string) :
  String.length (a ++ b) = (String.length a + String.length b)%nat.
Proof. induction a as [|x a IH]; simpl; [reflexivity | now rewrite IH]. Qed.

Lemma strip_prefix_append (p s : string) : strip_prefix p (p ++ s) = Some s.
Proof.
  induction p as [|c p IH]; simpl; [reflexivity|].
  rewrite Ascii.eqb_refl. exact IH.
Qed.

Lemma prefix_append (p s : string) : String.prefix p (p ++ s) = true.
Proof.
  induction p as [|c p IH]; simpl; [destruct s; reflexivity|].
  destruct (ascii_dec c c); [exact IH | congruence].
Qed.

Lemma substring_head (a b : string) : substring 0 (String.length a) (a ++ b) = a.
Proof.
  induction a as [|x a IH]; simpl.
  - destruct b; reflexivity.
  - now rewrite IH.
Qed.

Lemma substring_tail (a b : string) :
  substring (String.length a) (String.length b) (a ++ b) = b.
Proof.
  induction a as [|x a IH]; simpl; [|exact IH].
  induction b as [|y b IHb]; simpl; [reflexivity|]. now rewrite IHb.
Qed.

Lemma endsWith_append (a b : string) : Js.endsWith (a ++ b) b = true.
Proof.
  unfold Js.endsWith. rewrite append_length.
  replace (String.length a + String.length b - String.length b)%nat
    with (String.length a) by lia.
  rewrite substring_tail, String.eqb_refl.
  apply andb_true_iff. split; [apply Nat.leb_le; lia | reflexivity].
Qed.

Lemma trimStart_spaces (ws s : string) :
  allSpace ws = true -> Js.trimStart (ws ++ s) = Js.trimStart s.
Proof.
  induction ws as [|c ws IH]; simpl; [reflexivity|].
  intros H. apply andb_true_iff in H. destruct H as [Hc Hws].
  rewrite Hc. apply IH. exact Hws.
Qed.

Lemma trimStart_tight (body s : string) :
  body <> "" -> Js.trimStart body = body -> Js.trimStart (body ++ s) = body ++ s.
Proof.
  destruct body as [|c body]; [congruence|]. intros _. simpl.
  destruct (Js.is_space c) eqn:Hc; [|reflexivity].
  intros H. exfalso.
  assert (Hlen : forall t, (String.length (Js.trimStart t) <= String.length t)%nat).
  { induction t as [|x t IHt]; simpl; [lia|].
    destruct (Js.is_space x); simpl; lia. }
  specialize (Hlen body). rewrite H in Hlen. simpl in Hlen. lia.
Qed.

Lemma trimEnd_spaces (ws : string) : allSpace ws = true -> Js.trimEnd ws = "".
Proof.
  induction ws as [|c ws IH]; simpl; [reflexivity|].
  intros H. apply andb_true_iff in H. destruct H as [Hc Hws].
  rewrite (IH Hws), Hc. reflexivity.
Qed.

Lemma trimEnd_append (s t : string) :
  Js.trimEnd (s ++ t)
  = match Js.trimEnd t with
    | EmptyString => Js.trimEnd s
    | t' => s ++ t'
    end.
Proof.
  induction s as [|c s IH]; simpl.
  - destruct (Js.trimEnd t); reflexivity.
  - rewrite IH. destruct (Js.trimEnd t) eqn:Ht; [reflexivity|].
    destruct s; reflexivity.
Qed.

Lemma trimEnd_fence (s : string) : Js.trimEnd (s ++ "```") = s ++ "```".
Proof. rewrite trimEnd_append. reflexivity. Qed.

Lemma trimEnd_tight (body ws : string) :
  allSpace ws = true -> Js.trimEnd body = body -> Js.trimEnd (body ++ ws) = body.
Proof.
  intros Hws Hb. rewrite trimEnd_append, (trimEnd_spaces ws Hws). exact Hb.
Qed.

Lemma replaceClosingFence_append (s : string) :
  replaceClosingFence (s ++ "```") = Js.trimEnd s.
Proof.
  unfold replaceClosingFence. rewrite endsWith_append, append_length.
  replace (String.length s + String.length "```" - 3)%nat with (String.length s)
    by (simpl; lia).
  rewrite substring_head. reflexivity.
Qed.

(** The body between an opening fence [tag], white space, and the closing
    fence. *)
Lemma strip_fences (tag ws1 body ws2 : string) :
  allSpace ws1 = true -> allSpace ws2 = true ->
  body <> "" -> Js.trimStart body = body -> Js.trimEnd body = body ->
  replaceClosingFence
    (replaceOpeningFence tag (tag ++ ws1 ++ body ++ ws2 ++ "```")) = body.
Proof.
  intros H1 H2 Hne Hs He.
  unfold replaceOpeningFence. rewrite strip_prefix_append.
  rewrite (trimStart_spaces ws1 _ H1), (trimStart_tight body _ Hne Hs).
  rewrite <- append_assoc, replaceClosingFence_append.
  apply trimEnd_tight; assumption.
Qed.

Lemma fenced_trim (tag rest : string) :
  Js.trimStart tag = tag -> tag <> "" ->
  Js.trim (tag ++ rest ++ "```") = tag ++ rest ++ "```".
Proof.
  intros Ht Hne. unfold Js.trim.
  rewrite (trimStart_tight tag _ Hne Ht).
  rewrite <- append_assoc. apply trimEnd_fence.
Qed.

Lemma not_fenced (s : string) :
  Js.startsWith s "```" = false -> Js.startsWith s "```json" = false.
Proof.
  unfold Js.startsWith. intros H.
  destruct s as [|a [|b [|c t]]]; cbn [String.prefix] in *; try reflexivity;
    repeat (destruct (ascii_dec _ _); try reflexivity).
  destruct t; discriminate.
Qed.

Lemma space_not_j (ws s : string) :
  ws <> "" -> allSpace ws = true -> String.prefix "json" (ws ++ s) = false.
Proof.
  destruct ws as [|c ws]; [congruence|]. intros _ H. simpl in H.
  apply andb_true_iff in H. destruct H as [Hc _]. cbn [append String.prefix].
  destruct (ascii_dec "j" c) as [<-|]; [discriminate | reflexivity].
Qed.

End FenceFacts.


(** C6. [cleanJsonText] maps each of the three texts (fenced with the [json]
    tag, fenced without it, not fenced) to a text that [JSON.parse] reads as
    the object [{a:1}].  In general it removes an opening fence, with or
    without the tag, the closing fence and the white space next to them, and
    returns a trimmed text without opening fence as it is. *)
Theorem cleanJsonText_examples :
  Forall (fun text => Json.parse (cleanJsonText text)
                      = Some (JObject [(Js.wide "a", JNumber 1 0)]))
         [fencedJson; fencedPlain; objectA] /\
  (forall ws1 body ws2,
      allSpace ws1 = true -> allSpace ws2 = true ->
      body <> "" -> Js.trimStart body = body -> Js.trimEnd body = body ->
      cleanJsonText ("```json" ++ ws1 ++ body ++ ws2 ++ "```") = body) /\
  (forall ws1 body ws2,
      ws1 <> "" -> allSpace ws1 = true -> allSpace ws2 = true ->
      body <> "" -> Js.trimStart body = body -> Js.trimEnd body = body ->
      cleanJsonText ("```" ++ ws1 ++ body ++ ws2 ++ "```") = body) /\
  (forall text,
      text <> "" -> Js.trim text = text -> Js.startsWith text "```" = false ->
      cleanJsonText text = text).
Proof.
  split; [repeat constructor|]. split; [|split].
  - intros ws1 body ws2 H1 H2 Hne Hs He.
    unfold cleanJsonText. cbn [append String.eqb].
    change (String "`" (String "`" (String "`" (String "j" (String "s"
             (String "o" (String "n" (ws1 ++ body ++ ws2 ++ "```"))))))))
      with ("```json" ++ ws1 ++ body ++ ws2 ++ "```").
    replace ("```json" ++ ws1 ++ body ++ ws2 ++ "```")
      with ("```json" ++ (ws1 ++ body ++ ws2) ++ "```")
      by (now rewrite !append_assoc).
    rewrite fenced_trim by (reflexivity || discriminate).
    unfold Js.startsWith. rewrite prefix_append.
    rewrite !append_assoc. apply strip_fences; assumption.
  - intros ws1 body ws2 Hws H1 H2 Hne Hs He.
    unfold cleanJsonText. cbn [append String.eqb].
    change (String "`" (String "`" (String "`" (ws1 ++ body ++ ws2 ++ "```"))))
      with ("```" ++ ws1 ++ body ++ ws2 ++ "```").
    replace ("```" ++ ws1 ++ body ++ ws2 ++ "```")
      with ("```" ++ (ws1 ++ body ++ ws2) ++ "```")
      by (now rewrite !append_assoc).
    rewrite fenced_trim by (reflexivity || discriminate).
    assert (Hj : Js.startsWith ("```" ++ (ws1 ++ body ++ ws2) ++ "```") "```json"
                 = false).
    { unfold Js.startsWith. cbn [append].
      change (String.prefix "```json"
                (String "`" (String "`" (String "`" ((ws1 ++ body ++ ws2) ++ "```")))))
        with (String.prefix "json" ((ws1 ++ body ++ ws2) ++ "```")).
      rewrite !append_assoc. apply space_not_j; assumption. }
    rewrite Hj. unfold Js.startsWith. rewrite prefix_append.
    rewrite !append_assoc. apply strip_fences; assumption.
  - intros text Hne Htrim Hplain.
    unfold cleanJsonText. rewrite Htrim, Hplain, (not_fenced text Hplain).
    destruct text; [congruence | reflexivity].
Qed.

Lemma cleanJsonText_examples_witness :
  cleanJsonText fencedJson = objectA /\
  cleanJsonText fencedPlain = objectA /\
  cleanJsonText objectA = objectA.
Proof.
  destruct cleanJsonText_examples as [_ [Hjson [Hplain Hbare]]].
  split; [|split].
  - apply (Hjson nl objectA nl); try reflexivity. discriminate.
  - apply (Hplain nl objectA nl); try reflexivity; discriminate.
  - apply (Hbare objectA); try reflexivity. discriminate.
Defined.

(** ** The gateway *)

Section GatewayFacts.

Lemma bind_returned {A B} (m : M A) (k : A -> M B) W st a st' :
  m W st = (Returned a, st') -> bind m k W st = k a W st'.
Proof. intros H. unfold bind. rewrite H. reflexivity. Qed.

Lemma bind_thrown {A B} (m : M A) (k : A -> M B) W st e st' :
  m W st = (Thrown e, st') -> bind m k W st = (Thrown e, st').
Proof. intros H. unfold bind. rewrite H. reflexivity. Qed.

Lemma try_returned {A} (m : M A) (h : exn -> M A) W st a st' :
  m W st = (Returned a, st') -> try_catch m h W st = (Returned a, st').
Proof. intros H. unfold try_catch. rewrite H. reflexivity. Qed.

Lemma try_thrown {A} (m : M A) (h : exn -> M A) W st e st' :
  m W st = (Thrown e, st') -> try_catch m h W st = h e W st'.
Proof. intros H. unfold try_catch. rewrite H. reflexivity. Qed.

Lemma settle_requests {A} (r : exn + A) (st : Effects) :
  snd (settle r st) = st.
Proof. destruct r; reflexivity. Qed.

Lemma missing_credentials (s : AISettings) :
  truthy (baseUrl s) = None \/ truthy (customApiKey s) = None ->
  credentials (Some s) = None.
Proof.
  unfold credentials. intros [H|H]; rewrite H; [reflexivity|].
  destruct (truthy (baseUrl s)); reflexivity.
Qed.

(** Without credentials the generic branch of [callAI] throws at once. *)
Lemma callAI_missing_credentials prompt (s : AISettings) schema tools W st :
  provider s = custom ->
  credentials (Some s) = None ->
  callAI prompt (Some s) schema tools W st = (Thrown missingCredentials, st).
Proof.
  intros Hp Hc. unfold callAI, providerOf. rewrite Hp, Hc. reflexivity.
Qed.

(** [callAI] leaves the clock alone and issues no request (then it has
    thrown the missing-credentials error) or exactly one. *)
Lemma callAI_trace prompt settings schema tools W st :
  let st' := snd (callAI prompt settings schema tools W st) in
  ticks st' = ticks st /\
  (st' = st \/ exists r, requests st' = (requests st ++ [r])%list).
Proof.
  unfold callAI.
  destruct (providerOf settings).
  - unfold try_catch, bind, generateContent, throw, ret.
    destruct (answerGenerateContent W _ _); simpl; split; eauto.
  - destruct (credentials settings) as [[url key]|]; [|simpl; auto].
    unfold try_catch, bind, fetch, throw, ret.
    destruct (answerFetch W _ _) as [e|resp]; simpl; [split; eauto|].
    destruct (ok resp); simpl; [|split; eauto].
    destruct (messageContent resp); simpl; split; eauto.
Qed.

Lemma callAI_issued prompt settings schema tools W st :
  (issued st (snd (callAI prompt settings schema tools W st)) <= 1)%nat.
Proof.
  destruct (callAI_trace prompt settings schema tools W st) as [_ [H|[r H]]];
    unfold issued.
  - rewrite H. lia.
  - rewrite H, length_app. simpl. lia.
Qed.

Lemma parse_failure_not_empty (text : string) :
  Json.parse (cleanJsonText text) = None -> text <> "".
Proof. intros H ->. vm_compute in H. discriminate. Qed.

End GatewayFacts.

(** C7. [assessLevel] on the empty list returns ["Unknown"] and leaves the
    trace untouched (no request is issued); on any list it returns and never
    throws; and when the provider call behind it fails it returns
    ["Unknown"]. *)
Theorem assessLevel_unknown :
  (forall settings W st, assessLevel [] settings W st = (Returned "Unknown", st)) /\
  (forall words settings W st,
      exists lvl st', assessLevel words settings W st = (Returned lvl, st')) /\
  (forall words settings W st e st',
      words <> [] ->
      assessCall words settings W st = (Thrown e, st') ->
      assessLevel words settings W st = (Returned "Unknown", st')).
Proof.
  repeat split.
  - intros words settings W st.
    destruct words as [|w ws]; [now exists "Unknown", st|].
    unfold assessLevel, try_catch, bind.
    case_callAI; unfold ret; eauto.
  - intros words settings W st e st' Hne Hcall.
    destruct words as [|w ws]; [congruence|].
    unfold assessLevel. erewrite try_thrown; [reflexivity|].
    erewrite bind_thrown; [reflexivity | exact Hcall].
Qed.

Lemma assessLevel_unknown_witness :
  assessLevel ["cat"] None offline start
  = (Returned "Unknown",
     snd (assessCall ["cat"] None offline start)).
Proof.
  destruct assessLevel_unknown as [_ [_ H]].
  apply (H ["cat"] None offline start (Rejected "network down")).
  - discriminate.
  - reflexivity.
Defined.

(** ** Missing credentials on the generic backend *)

(** C2, as stated, fails: with the generic provider selected and no base URL,
    [assessLevel] does not fail; it returns ["Unknown"] (and issues no
    request). *)
Lemma assessLevel_missing_credentials_returns :
  assessLevel ["cat"] noBaseUrl offline start = (Returned "Unknown", start) /\
  fst (assessLevel ["cat"] noBaseUrl offline start) <> Thrown missingCredentials.
Proof. split; [reflexivity | discriminate]. Qed.

(** C2, amended. With the generic provider selected and the base URL or the
    API key absent or empty, [callAI] throws the missing-credentials error
    and no operation issues a request (the trace is returned untouched):
    quiz generation throws that error, chat throws its own
    missing-credentials error, word definition, translation, exam generation
    and search throw their operation's error, while [assessLevel] returns
    ["Unknown"], [processImportedText] returns the file name and the raw
    text, and [extractTextFromImage] returns its notice. *)
Theorem missing_credentials_no_request (s : AISettings) (W : World) (st : Effects) :
  provider s = custom ->
  truthy (baseUrl s) = None \/ truthy (customApiKey s) = None ->
  (forall prompt schema tools,
      callAI prompt (Some s) schema tools W st = (Thrown missingCredentials, st)) /\
  (forall w, generateQuizForWord w (Some s) W st = (Thrown missingCredentials, st)) /\
  (forall history message context,
      chatWithTutor history message context (Some s) W st
      = (Thrown (Error "Missing credentials"), st)) /\
  (forall w context,
      defineWord w context (Some s) W st
      = (Thrown (Error "Failed to define word."), st)) /\
  (forall text,
      translateText text (Some s) W st
      = (Thrown (Error "Failed to translate text."), st)) /\
  (forall lvl known requirements,
      generateExam lvl known requirements (Some s) W st
      = (Thrown (Error "Failed to generate exam."), st)) /\
  (forall topic,
      searchArticles topic (Some s) W st
      = (Thrown (Error "Failed to fetch articles. Please check your AI settings."),
         st)) /\
  (forall words, assessLevel words (Some s) W st = (Returned "Unknown", st)) /\
  (forall rawText fileName,
      processImportedText rawText fileName (Some s) W st
      = (Returned (JString (Js.wide fileName), JString (Js.wide rawText)), st)) /\
  (forall base64Image mimeType,
      extractTextFromImage base64Image mimeType (Some s) W st
      = (Returned ocrUnsupported, st)).
Proof.
  intros Hp Hmissing.
  pose proof (missing_credentials s Hmissing) as Hc.
  pose proof (fun p sc t => callAI_missing_credentials p s sc t W st Hp Hc) as Hcall.
  repeat split; intros.
  - apply Hcall.
  - unfold generateQuizForWord.
    erewrite try_thrown; [reflexivity|]. erewrite bind_thrown; [reflexivity|apply Hcall].
  - unfold chatWithTutor, providerOf. rewrite Hp, Hc. reflexivity.
  - unfold defineWord.
    erewrite try_thrown; [reflexivity|]. erewrite bind_thrown; [reflexivity|apply Hcall].
  - unfold translateText. erewrite try_thrown; [reflexivity|apply Hcall].
  - unfold generateExam.
    erewrite try_thrown; [reflexivity|]. erewrite bind_thrown; [reflexivity|apply Hcall].
  - unfold searchArticles, providerOf. rewrite Hp.
    erewrite try_thrown; [reflexivity|].
    erewrite bind_thrown; [reflexivity|].
    erewrite bind_thrown; [reflexivity|apply Hcall].
  - destruct words as [|w ws]; [reflexivity|]. unfold assessLevel.
    erewrite try_thrown; [reflexivity|]. erewrite bind_thrown; [reflexivity|apply Hcall].
  - unfold processImportedText.
    erewrite try_thrown; [reflexivity|]. erewrite bind_thrown; [reflexivity|apply Hcall].
  - unfold extractTextFromImage, providerOf. rewrite Hp. reflexivity.
Qed.

Lemma missing_credentials_no_request_witness :
  generateQuizForWord "cat" noBaseUrl offline start
  = (Thrown missingCredentials, start).
Proof.
  apply (missing_credentials_no_request
           (genericSettings None (Some "sk-1")) offline start).
  - reflexivity.
  - left. reflexivity.
Defined.

(** ** Responses that are not JSON *)

(** C3, as stated, fails: a response that is not JSON is not read as the
    empty object.  [cleanJsonText] hands ["oops"] on as it is, [JSON.parse]
    rejects it, and [defineWord] throws instead of returning a value whose
    members default. *)
Lemma defineWord_not_json_throws :
  cleanJsonText "oops" = "oops" /\
  Json.parse (cleanJsonText "oops") = None /\
  fst (defineWord "cat" None None (nativeSays "oops") start)
  = Thrown (Error "Failed to define word.").
Proof. repeat split; vm_compute; reflexivity. Qed.

(** C3, amended. Only the empty response is replaced by ["{}"], which parses
    to the empty object.  A response that is not valid JSON after fence
    stripping is never empty, and the parse failure is raised in every
    operation that parses: word definition and exam generation throw their
    operation's error, quiz generation throws the [SyntaxError], search
    returns the empty list, and [processImportedText] returns the file name
    and the raw text. *)
Theorem not_json_propagates (text : string) :
  Json.parse (cleanJsonText text) = None ->
  text <> "" /\
  cleanJsonText "" = "{}" /\
  Json.parse (cleanJsonText "") = Some (JObject []) /\
  (forall w context settings W st st',
      defineCall w context settings W st = (Returned text, st') ->
      defineWord w context settings W st
      = (Thrown (Error "Failed to define word."), st')) /\
  (forall w settings W st st',
      quizCall w settings W st = (Returned text, st') ->
      generateQuizForWord w settings W st = (Thrown SyntaxError, st')) /\
  (forall lvl known requirements settings W st st',
      examCall lvl known requirements settings W st = (Returned text, st') ->
      generateExam lvl known requirements settings W st
      = (Thrown (Error "Failed to generate exam."), st')) /\
  (forall topic settings W st st',
      searchCall topic settings W st = (Returned text, st') ->
      searchArticles topic settings W st = (Returned [], st')) /\
  (forall rawText fileName settings W st st',
      importCall rawText fileName settings W st = (Returned text, st') ->
      processImportedText rawText fileName settings W st
      = (Returned (JString (Js.wide fileName), JString (Js.wide rawText)), st')).
Proof.
  intros Hparse.
  assert (Hthrow : forall W st, JSON_parse (cleanJsonText text) W st
                                = (Thrown SyntaxError, st)).
  { intros W st. unfold JSON_parse. rewrite Hparse. reflexivity. }
  split; [apply parse_failure_not_empty; exact Hparse|].
  split; [reflexivity|]. split; [reflexivity|].
  repeat split; intros.
  - unfold defineWord. erewrite try_thrown; [reflexivity|].
    erewrite bind_returned; [|eassumption].
    erewrite bind_thrown; [reflexivity|apply Hthrow].
  - unfold generateQuizForWord. erewrite try_thrown; [reflexivity|].
    erewrite bind_returned; [|eassumption].
    erewrite bind_thrown; [reflexivity|apply Hthrow].
  - unfold generateExam. erewrite try_thrown; [reflexivity|].
    erewrite bind_returned; [|eassumption].
    erewrite bind_thrown; [reflexivity|apply Hthrow].
  - unfold searchArticles. unfold searchCall in H.
    erewrite try_returned; [reflexivity|].
    destruct (providerOf settings);
      (erewrite bind_returned;
       [|erewrite bind_returned; [reflexivity|eassumption]]);
      cbv beta iota; rewrite Hparse; reflexivity.
  - unfold processImportedText. erewrite try_thrown; [reflexivity|].
    erewrite bind_returned; [|eassumption].
    erewrite bind_thrown; [reflexivity|apply Hthrow].
Qed.

Lemma not_json_propagates_witness :
  defineWord "cat" None None (nativeSays "oops") start
  = (Thrown (Error "Failed to define word."),
     snd (defineCall "cat" None None (nativeSays "oops") start)).
Proof.
  assert (Hparse : Json.parse (cleanJsonText "oops") = None) by reflexivity.
  destruct (not_json_propagates "oops" Hparse) as [_ [_ [_ [H _]]]].
  apply (H "cat" None None (nativeSays "oops") start). reflexivity.
Defined.

(** ** The quiz generator *)

(** C4, as stated, fails: the answer
    [{"question":"A ______ purrs.","options":["dog","cat"],"correctOptionIndex":5}]
    is returned as a quiz whose index lies outside its two options. *)
Lemma quiz_index_out_of_range :
  match fst (generateQuizForWord "cat" None (nativeSays strayIndexQuiz) start) with
  | Returned q =>
      g_options q = Some (JArray [JString (Js.wide "dog"); JString (Js.wide "cat")]) /\
      g_correctOptionIndex q = Some (JNumber 5 0) /\
      quizConforms "cat" q = false
  | Thrown _ => False
  end.
Proof. vm_compute. repeat split. Qed.

(** C4, amended. When the response parses to a value other than [null],
    [generateQuizForWord] returns a fill-blank question whose [question],
    [options] and [correctOptionIndex] are the members of that value,
    unchecked, with the explanation built from the word; so the index lies
    within the options and points at the word, letter case apart, exactly
    when this holds of the response. *)
Theorem quiz_reflects_response (w : string) (settings : option AISettings)
    (W : World) (st st' : Effects) (text : string) (data : json) :
  quizCall w settings W st = (Returned text, st') ->
  Json.parse (cleanJsonText text) = Some data ->
  data <> JNull ->
  exists q st'',
    generateQuizForWord w settings W st = (Returned q, st'') /\
    requests st'' = requests st' /\
    g_type q = FillBlank /\
    g_question q = member data "question" /\
    g_options q = member data "options" /\
    g_correctOptionIndex q = member data "correctOptionIndex" /\
    g_explanation q = "The correct answer is " ++ w ++ "." /\
    quizConforms w q
    = pointsAtWord w (member data "options") (member data "correctOptionIndex").
Proof.
  intros Hcall Hparse Hnull.
  unfold generateQuizForWord.
  destruct data; try congruence;
    (eexists; eexists; split;
     [ erewrite try_returned; [reflexivity|];
       erewrite bind_returned; [|exact Hcall];
       unfold JSON_parse; rewrite Hparse; reflexivity
     | repeat split; reflexivity ]).
Qed.

Lemma quiz_reflects_response_witness :
  exists q st'',
    generateQuizForWord "cat" None (nativeSays goodQuiz) start = (Returned q, st'') /\
    requests st''
    = requests (snd (quizCall "cat" None (nativeSays goodQuiz) start)) /\
    g_type q = FillBlank /\
    g_question q = Some (JString (Js.wide "A ______ purrs.")) /\
    g_options q = Some (JArray [JString (Js.wide "dog"); JString (Js.wide "Cat")]) /\
    g_correctOptionIndex q = Some (JNumber 1 0) /\
    g_explanation q = "The correct answer is cat." /\
    quizConforms "cat" q = true.
Proof.
  apply (quiz_reflects_response "cat" None (nativeSays goodQuiz) start _ goodQuiz
           (JObject [(Js.wide "question", JString (Js.wide "A ______ purrs."));
                     (Js.wide "options",
                      JArray [JString (Js.wide "dog"); JString (Js.wide "Cat")]);
                     (Js.wide "correctOptionIndex", JNumber 1 0)])).
  - reflexivity.
  - reflexivity.
  - discriminate.
Defined.

(** ** Search *)

Section SearchFacts.

Variable label : string.



Lemma indexed_snd {A} (xs : list A) : map snd (indexed xs) = xs.
Proof.
  unfold indexed. generalize 0%nat.
  induction xs as [|x xs IH]; intros n; simpl; [reflexivity|].
  rewrite IH. reflexivity.
Qed.


End SearchFacts.

Lemma searchArticles_after_call (topic : string) (settings : option AISettings)
    (W : World) (st st' : Effects) (text : string) :
  searchCall topic settings W st = (Returned text, st') ->
  searchArticles topic settings W st
  = try_catch
      (match Json.parse (cleanJsonText text) with
       | None => ret []
       | Some (JArray rawArticles) =>
           mapM (toArticle (sourceLabelOf settings)) (indexed rawArticles)
       | Some _ => ret []
       end)
      (fun _ => throw (Error "Failed to fetch articles. Please check your AI settings."))
      W st'.
Proof.
  unfold searchCall, searchArticles, sourceLabelOf. intros Hcall.
  unfold try_catch at 1.
  destruct (providerOf settings);
    (erewrite bind_returned;
     [|erewrite bind_returned; [reflexivity|exact Hcall]]);
    reflexivity.
Qed.



(** An escape stands for the code unit it names, above U+00FF as well:
    responses written with such escapes are JSON, and are read like any
    other. *)
Lemma escapes_are_read :
  Json.parse (dq ++ "\u4e2d\u00E9A\n" ++ dq)
  = Some (JString [20013; 233; 65; 10]%N) /\
  fst (searchArticles "space travel" None (nativeSays escapedArticle) start)
  = Returned [ {| a_id := "10000";
                  a_title := Some (JString [20013; 25991]%N);
                  a_content := Some (JString (Js.wide "B C D"));
                  a_source := "Google Search";
                  a_dateAdded := 1001;
                  a_type := WebArticle |} ] /\
  fst (defineWord "cat" None None (nativeSays escapedMeaning) start)
  = Returned (JObject [(Js.wide "chineseMeaning", JString [29483]%N)]).
Proof. repeat split; vm_compute; reflexivity. Qed.

(** ** Failures and retries *)

Section FailureFacts.

Lemma JSON_parse_state (text : string) W st :
  snd (JSON_parse text W st) = st.
Proof. unfold JSON_parse. destruct (Json.parse text); reflexivity. Qed.

Lemma mapM_toMessage_state (history : list HistoryItem) W st :
  snd (mapM toMessage history W st) = st.
Proof.
  induction history as [|h history IH]; [reflexivity|].
  cbn [mapM]. unfold bind at 1, toMessage at 1.
  destruct (h_parts h); [reflexivity|].
  cbn [ret]. unfold bind.
  destruct (mapM toMessage history W st) as [[ys|e] st'];
    simpl in IH; subst; reflexivity.
Qed.

Lemma issued_refl (st : Effects) : issued st st = 0%nat.
Proof. unfold issued. lia. Qed.

Lemma issued_record (r : Request) (st : Effects) :
  issued st (record r st) = 1%nat.
Proof. unfold issued, record. simpl. rewrite length_app. simpl. lia. Qed.

Lemma issued_ticks (st st' : Effects) (n : nat) :
  issued st {| requests := requests st'; ticks := n |} = issued st st'.
Proof. reflexivity. Qed.

Lemma defineWord_issued w context settings W st :
  (issued st (snd (defineWord w context settings W st)) <= 1)%nat.
Proof.
  unfold defineWord, try_catch, bind.
  pose proof (callAI_issued (PromptText (DefineWord w (truthy context)))
                settings (Some definitionSchema) None W st) as Hi.
  case_callAI; simpl in Hi; [|exact Hi].
  unfold JSON_parse. destruct (Json.parse _); exact Hi.
Qed.

Lemma translateText_issued text settings W st :
  (issued st (snd (translateText text settings W st)) <= 1)%nat.
Proof.
  unfold translateText, try_catch.
  pose proof (callAI_issued (PromptText (Translate text)) settings None None W st)
    as Hi.
  case_callAI; exact Hi.
Qed.

Lemma generateQuizForWord_issued w settings W st :
  (issued st (snd (generateQuizForWord w settings W st)) <= 1)%nat.
Proof.
  unfold generateQuizForWord, try_catch, bind.
  pose proof (callAI_issued (PromptText (MakeQuiz w)) settings (Some quizSchema)
                None W st) as Hi.
  case_callAI; simpl in Hi; [|exact Hi].
  unfold JSON_parse. destruct (Json.parse _) as [data|]; [|exact Hi].
  destruct data; exact Hi.
Qed.

Lemma generateExam_issued lvl known requirements settings W st :
  (issued st (snd (generateExam lvl known requirements settings W st)) <= 1)%nat.
Proof.
  unfold generateExam, try_catch, bind.
  pose proof (callAI_issued
                (PromptText (MakeExam lvl (Js.join ", " (Js.lastN 30 known))
                               (orElse requirements "General practice")))
                settings (Some examSchema) None W st) as Hi.
  case_callAI; simpl in Hi; [|exact Hi].
  unfold JSON_parse. destruct (Json.parse _); exact Hi.
Qed.

Lemma chatWithTutor_issued history message context settings W st :
  (issued st (snd (chatWithTutor history message context settings W st)) <= 1)%nat.
Proof.
  assert (Hnative : (issued st (snd (sendMessage
                       (nativeChat history message context settings) W st)) <= 1)%nat).
  { unfold sendMessage. rewrite settle_requests, issued_record. lia. }
  unfold chatWithTutor.
  destruct (providerOf settings); [exact Hnative|].
  destruct settings as [s|]; [|exact Hnative].
  destruct (credentials (Some s)) as [[url key]|];
    [|unfold throw; simpl; rewrite issued_refl; lia].
  unfold bind at 1.
  pose proof (mapM_toMessage_state history W st) as Hpast.
  destruct (mapM toMessage history W st) as [[past|e] st1]; simpl in Hpast; subst st1;
    [|simpl; rewrite issued_refl; lia].
  unfold try_catch, bind, fetch.
  destruct (answerFetch W _ _) as [e|resp]; simpl;
    [rewrite issued_record; lia|].
  destruct (messageContent resp); simpl; rewrite issued_record; lia.
Qed.

End FailureFacts.

(** C9, as stated, fails for chat on the generic provider: with credentials
    present and the network down, [chatWithTutor] does not throw; it returns
    a fixed reply. *)
Lemma chat_generic_failure_returns :
  fst (chatWithTutor [] "hi" "" complete offline start)
  = Returned (Some connectionTrouble) /\
  fst (chatWithTutor [] "hi" "" complete offline start)
  <> Thrown (Rejected "Failed to fetch").
Proof. split; [vm_compute; reflexivity | discriminate]. Qed.

(** C9, amended. On either provider, word definition, translation, quiz
    generation and exam generation throw whenever the [callAI] behind them
    throws, and the three that parse throw whenever the response does not
    parse.  Chat throws the provider's error on the native backend and a
    missing-credentials error on the generic backend without credentials;
    with credentials, a failure of the request or of reading its answer is
    caught and the fixed connection-trouble reply is returned.  None of the
    five issues more than one network request. *)
Theorem failures_raise_without_retry (settings : option AISettings) (W : World)
    (st : Effects) :
  (forall w context,
      (forall e st', defineCall w context settings W st = (Thrown e, st') ->
         defineWord w context settings W st
         = (Thrown (Error "Failed to define word."), st')) /\
      (forall text st', defineCall w context settings W st = (Returned text, st') ->
         Json.parse (cleanJsonText text) = None ->
         defineWord w context settings W st
         = (Thrown (Error "Failed to define word."), st')) /\
      (issued st (snd (defineWord w context settings W st)) <= 1)%nat) /\
  (forall text,
      (forall e st', translateCall text settings W st = (Thrown e, st') ->
         translateText text settings W st
         = (Thrown (Error "Failed to translate text."), st')) /\
      (issued st (snd (translateText text settings W st)) <= 1)%nat) /\
  (forall w,
      (forall e st', quizCall w settings W st = (Thrown e, st') ->
         generateQuizForWord w settings W st = (Thrown e, st')) /\
      (forall text st', quizCall w settings W st = (Returned text, st') ->
         Json.parse (cleanJsonText text) = None ->
         generateQuizForWord w settings W st = (Thrown SyntaxError, st')) /\
      (issued st (snd (generateQuizForWord w settings W st)) <= 1)%nat) /\
  (forall lvl known requirements,
      (forall e st', examCall lvl known requirements settings W st = (Thrown e, st') ->
         generateExam lvl known requirements settings W st
         = (Thrown (Error "Failed to generate exam."), st')) /\
      (forall text st',
         examCall lvl known requirements settings W st = (Returned text, st') ->
         Json.parse (cleanJsonText text) = None ->
         generateExam lvl known requirements settings W st
         = (Thrown (Error "Failed to generate exam."), st')) /\
      (issued st (snd (generateExam lvl known requirements settings W st)) <= 1)%nat) /\
  (forall history message context,
      (forall e,
         providerOf settings = gemini ->
         answerSendMessage W (length (requests st))
                           (nativeChat history message context settings) = inl e ->
         chatWithTutor history message context settings W st
         = (Thrown e, record (SendMessage (nativeChat history message context settings)) st)) /\
      (providerOf settings = custom ->
       credentials settings = None ->
       chatWithTutor history message context settings W st
       = (Thrown (Error "Missing credentials"), st)) /\
      (forall url key past,
         providerOf settings = custom ->
         credentials settings = Some (url, key) ->
         mapM toMessage history W st = (Returned past, st) ->
         (forall r, fetchFails W (length (requests st)) r) ->
         fst (chatWithTutor history message context settings W st)
         = Returned (Some connectionTrouble)) /\
      (issued st (snd (chatWithTutor history message context settings W st)) <= 1)%nat).
Proof.
  assert (Hsyntax : forall text st', Json.parse (cleanJsonText text) = None ->
             JSON_parse (cleanJsonText text) W st' = (Thrown SyntaxError, st')).
  { intros text st' Hp. unfold JSON_parse. rewrite Hp. reflexivity. }
  split; [|split; [|split; [|split]]].
  - intros w context. split; [|split].
    + intros e st' Hcall. unfold defineWord.
      erewrite try_thrown; [reflexivity|].
      erewrite bind_thrown; [reflexivity | exact Hcall].
    + intros text st' Hcall Hparse. unfold defineWord.
      erewrite try_thrown; [reflexivity|].
      erewrite bind_returned; [|exact Hcall].
      erewrite bind_thrown; [reflexivity | apply Hsyntax; exact Hparse].
    + apply defineWord_issued.
  - intros text. split.
    + intros e st' Hcall. unfold translateText.
      erewrite try_thrown; [reflexivity | exact Hcall].
    + apply translateText_issued.
  - intros w. split; [|split].
    + intros e st' Hcall. unfold generateQuizForWord.
      erewrite try_thrown; [reflexivity|].
      erewrite bind_thrown; [reflexivity | exact Hcall].
    + intros text st' Hcall Hparse. unfold generateQuizForWord.
      erewrite try_thrown; [reflexivity|].
      erewrite bind_returned; [|exact Hcall].
      erewrite bind_thrown; [reflexivity | apply Hsyntax; exact Hparse].
    + apply generateQuizForWord_issued.
  - intros lvl known requirements. split; [|split].
    + intros e st' Hcall. unfold generateExam.
      erewrite try_thrown; [reflexivity|].
      erewrite bind_thrown; [reflexivity | exact Hcall].
    + intros text st' Hcall Hparse. unfold generateExam.
      erewrite try_thrown; [reflexivity|].
      erewrite bind_returned; [|exact Hcall].
      erewrite bind_thrown; [reflexivity | apply Hsyntax; exact Hparse].
    + apply generateExam_issued.
  - intros history message context. split; [|split; [|split]].
    + intros e Hp Hfail. unfold chatWithTutor. rewrite Hp.
      fold (nativeChat history message context settings).
      unfold sendMessage. rewrite Hfail. reflexivity.
    + intros Hp Hc. unfold chatWithTutor. rewrite Hp.
      destruct settings as [s|]; [|discriminate]. rewrite Hc. reflexivity.
    + intros url key past Hp Hc Hpast Hdown. unfold chatWithTutor. rewrite Hp.
      destruct settings as [s|]; [|discriminate]. rewrite Hc.
      erewrite bind_returned; [|exact Hpast].
      unfold try_catch, bind, fetch.
      match goal with
      | |- context [answerFetch W ?n ?r] =>
          pose proof (Hdown r) as Hfail; unfold fetchFails in Hfail;
          destruct (answerFetch W n r) as [e|resp]; [reflexivity|];
          simpl; destruct (messageContent resp); [reflexivity | contradiction]
      end.
    + apply chatWithTutor_issued.
Qed.

Lemma failures_raise_without_retry_witness :
  defineWord "cat" None None offline start
  = (Thrown (Error "Failed to define word."),
     snd (defineCall "cat" None None offline start)) /\
  fst (chatWithTutor [] "hi" "" complete offline start)
  = Returned (Some connectionTrouble).
Proof.
  split.
  - destruct (failures_raise_without_retry None offline start) as [H _].
    destruct (H "cat" None) as [Hthrow _].
    apply (Hthrow (Rejected "network down")). reflexivity.
  - destruct (failures_raise_without_retry complete offline start)
      as [_ [_ [_ [_ H]]]].
    destruct (H [] "hi" "") as [_ [_ [Hcaught _]]].
    apply (Hcaught "https://api.deepseek.com" "sk-1" []).
    + reflexivity.
    + reflexivity.
    + reflexivity.
    + intros r. exact I.
Defined.

(** * Further properties of the service layer *)

Section TrimFacts.

Lemma trimStart_shorter (s : string) :
  (String.length (Js.trimStart s) <= String.length s)%nat.
Proof.
  induction s as [|c s IH]; simpl; [lia|].
  destruct (Js.is_space c); simpl; lia.
Qed.

Lemma trimStart_head (c : ascii) (r : string) :
  Js.trimStart (String c r) = String c r -> Js.is_space c = false.
Proof.
  simpl. destruct (Js.is_space c); [|reflexivity].
  intros H. pose proof (trimStart_shorter r) as Hle.
  rewrite H in Hle. simpl in Hle. lia.
Qed.

Lemma trimStart_idem (s : string) : Js.trimStart (Js.trimStart s) = Js.trimStart s.
Proof.
  induction s as [|c s IH]; simpl; [reflexivity|].
  destruct (Js.is_space c) eqn:Hc; [exact IH|]. simpl. rewrite Hc. reflexivity.
Qed.

Lemma trimEnd_idem (s : string) : Js.trimEnd (Js.trimEnd s) = Js.trimEnd s.
Proof.
  induction s as [|c s IH]; simpl; [reflexivity|].
  destruct (Js.trimEnd s) as [|d r'] eqn:Hr.
  - destruct (Js.is_space c) eqn:Hc; simpl; [reflexivity|]. rewrite Hc. reflexivity.
  - cbn [Js.trimEnd]. cbn [Js.trimEnd] in IH. rewrite IH. reflexivity.
Qed.

Lemma trimStart_trimEnd (s : string) :
  Js.trimStart s = s -> Js.trimStart (Js.trimEnd s) = Js.trimEnd s.
Proof.
  destruct s as [|c r]; [reflexivity|]. intros H.
  apply trimStart_head in H. cbn [Js.trimEnd].
  destruct (Js.trimEnd r); [rewrite H|]; simpl; rewrite H; reflexivity.
Qed.

Lemma trim_tight (s : string) : tight (Js.trim s).
Proof.
  unfold tight, Js.trim. split.
  - apply trimStart_trimEnd, trimStart_idem.
  - apply trimEnd_idem.
Qed.

Lemma trimStart_split (s : string) :
  exists ws, s = ws ++ Js.trimStart s.
Proof.
  induction s as [|c s [ws IH]]; [exists ""; reflexivity|]. simpl.
  destruct (Js.is_space c).
  - exists (String c ws). simpl. rewrite <- IH. reflexivity.
  - exists "". reflexivity.
Qed.

Lemma append_cancel (a b c : string) : a ++ b = a ++ c -> b = c.
Proof.
  induction a as [|x a IH]; simpl; [auto|]. intros H. inversion H. auto.
Qed.

Lemma trimEnd_shorter (s : string) :
  (String.length (Js.trimEnd s) <= String.length s)%nat.
Proof.
  induction s as [|c s IH]; simpl; [lia|].
  destruct (Js.trimEnd s); [destruct (Js.is_space c)|]; simpl in *; lia.
Qed.

(** A tail of a text that does not end in white space does not either. *)
Lemma trimEnd_tail (a b : string) :
  Js.trimEnd (a ++ b) = a ++ b -> Js.trimEnd b = b.
Proof.
  rewrite trimEnd_append. destruct (Js.trimEnd b) as [|d t] eqn:Hb.
  - intros H. pose proof (trimEnd_shorter a) as Hle. rewrite H in Hle.
    rewrite append_length in Hle. destruct b; [reflexivity | simpl in Hle; lia].
  - intros H. apply append_cancel in H. exact H.
Qed.

(** A head of a text that does not start with white space does not either. *)
Lemma trimStart_front (p q : string) :
  Js.trimStart (p ++ q) = p ++ q -> Js.trimStart p = p.
Proof.
  destruct p as [|c p]; [reflexivity|]. intros H.
  apply trimStart_head in H. simpl. rewrite H. reflexivity.
Qed.

Lemma substring_front (n : nat) (s : string) :
  exists q, s = substring 0 n s ++ q.
Proof.
  revert s. induction n as [|n IH]; intros s.
  - exists s. destruct s; reflexivity.
  - destruct s as [|c s]; [exists ""; reflexivity|].
    destruct (IH s) as [q Hq]. exists q. simpl. rewrite <- Hq. reflexivity.
Qed.

Lemma prefix_strip (p s : string) :
  String.prefix p s = true ->
  exists rest, Json.strip_prefix p s = Some rest /\ s = p ++ rest.
Proof.
  revert s. induction p as [|a p IH]; intros s.
  - intros _. exists s. split; reflexivity.
  - destruct s as [|b s]; [discriminate|]. cbn [String.prefix Json.strip_prefix].
    destruct (ascii_dec a b) as [<-|]; [|discriminate].
    intros H. destruct (IH s H) as [rest [Hs Heq]].
    exists rest. rewrite Ascii.eqb_refl. split; [exact Hs|].
    simpl. rewrite <- Heq. reflexivity.
Qed.

Lemma fence_removed_tight (fence clean : string) :
  tight clean -> Js.startsWith clean fence = true ->
  tight (replaceClosingFence (replaceOpeningFence fence clean)).
Proof.
  intros [Hs He] Hpre. unfold Js.startsWith in Hpre.
  destruct (prefix_strip fence clean Hpre) as [rest [Hstrip Heq]].
  unfold replaceOpeningFence. rewrite Hstrip.
  assert (Hrest : Js.trimEnd rest = rest).
  { apply (trimEnd_tail fence). rewrite <- Heq. exact He. }
  assert (Hopen : tight (Js.trimStart rest)).
  { split; [apply trimStart_idem|].
    destruct (trimStart_split rest) as [ws Hws].
    apply (trimEnd_tail ws). rewrite <- Hws. exact Hrest. }
  unfold replaceClosingFence.
  destruct (Js.endsWith (Js.trimStart rest) "```"); [|exact Hopen].
  destruct (substring_front (String.length (Js.trimStart rest) - 3) (Js.trimStart rest))
    as [q Hq].
  split; [|apply trimEnd_idem].
  apply trimStart_trimEnd. apply (trimStart_front _ q).
  rewrite <- Hq. apply Hopen.
Qed.

End TrimFacts.

(** X1. Whatever the text, [cleanJsonText] returns a text without white space
    at either end. *)
Theorem cleanJsonText_tight (text : string) :
  Js.trim (cleanJsonText text) = cleanJsonText text.
Proof.
  assert (H : tight (cleanJsonText text)).
  { unfold cleanJsonText. destruct (String.eqb text ""); [split; reflexivity|].
    pose proof (trim_tight text) as Ht.
    destruct (Js.startsWith (Js.trim text) "```json") eqn:Hj;
      [apply fence_removed_tight; assumption|].
    destruct (Js.startsWith (Js.trim text) "```") eqn:Hp;
      [apply fence_removed_tight; assumption | exact Ht]. }
  destruct H as [Hs He]. unfold Js.trim. rewrite Hs. exact He.
Qed.


Lemma assessLevel_result (words : list string) (settings : option AISettings)
    (W : World) (st : Effects) :
  exists lvl st',
    assessLevel words settings W st = (Returned lvl, st') /\
    lvl <> "" /\ Js.trim lvl = lvl /\ (issued st st' <= 1)%nat.
Proof.
  assert (Hunknown : "Unknown" <> "" /\ Js.trim "Unknown" = "Unknown")
    by (split; [discriminate | reflexivity]).
  destruct words as [|w ws].
  { exists "Unknown", st. split; [reflexivity|].
    split; [apply Hunknown|]. split; [apply Hunknown|]. rewrite issued_refl. lia. }
  pose proof (callAI_issued (PromptText (EstimateLevel (Js.join ", " (w :: ws))))
                settings None None W st) as Hi.
  unfold assessLevel, try_catch, bind. case_callAI; simpl in Hi.
  - unfold ret, orElse. destruct (String.eqb (Js.trim text) "") eqn:Hempty.
    + exists "Unknown", st'. split; [reflexivity|].
      split; [apply Hunknown|]. split; [apply Hunknown | exact Hi].
    + exists (Js.trim text), st'. split; [reflexivity|]. split; [|split].
      * intros Heq. rewrite Heq in Hempty. discriminate.
      * destruct (trim_tight text) as [Hs He]. unfold Js.trim at 1.
        rewrite Hs. exact He.
      * exact Hi.
  - exists "Unknown", st'. split; [reflexivity|].
    split; [apply Hunknown|]. split; [apply Hunknown | exact Hi].
Qed.

(** X2. A level returned by [assessLevel] is never empty and carries no
    white space at either end. *)
Theorem assessLevel_level_tight (words : list string) (settings : option AISettings)
    (W : World) (st st' : Effects) (lvl : string) :
  assessLevel words settings W st = (Returned lvl, st') ->
  lvl <> "" /\ Js.trim lvl = lvl.
Proof.
  intros Hrun.
  destruct (assessLevel_result words settings W st) as [l [s' [Heq [Hne [Ht _]]]]].
  rewrite Heq in Hrun. inversion Hrun; subst. split; assumption.
Qed.

Lemma assessLevel_level_tight_witness :
  "B1" <> "" /\ Js.trim "B1" = "B1".
Proof.
  apply (assessLevel_level_tight ["cat"] None (nativeSays (" B1" ++ nl)) start
           (snd (assessCall ["cat"] None (nativeSays (" B1" ++ nl)) start)) "B1").
  reflexivity.
Defined.

(** X3. The endpoint is the base URL, one trailing slash dropped, followed by
    [/chat/completions]: a base URL gives the same endpoint with and without
    a slash at its end. *)
Theorem chatCompletions_one_slash (url : string) :
  chatCompletions (url ++ "/") = url ++ "/chat/completions" /\
  (Js.endsWith url "/" = false ->
   chatCompletions url = chatCompletions (url ++ "/")).
Proof.
  assert (H : chatCompletions (url ++ "/") = url ++ "/chat/completions").
  { unfold chatCompletions. rewrite endsWith_append.
    rewrite append_assoc. reflexivity. }
  split; [exact H|]. intros Hno. rewrite H.
  unfold chatCompletions. rewrite Hno. reflexivity.
Qed.

Lemma chatCompletions_one_slash_witness :
  chatCompletions "https://api.deepseek.com"
  = chatCompletions "https://api.deepseek.com/".
Proof.
  apply (chatCompletions_one_slash "https://api.deepseek.com"). reflexivity.
Defined.

(** X4. [processImportedText] never throws and sends at most one request,
    that of the call behind it.  When this call returns a text that parses
    to a value other than [null], the title is the value's member [title] if
    there is one that is not falsy and the file name otherwise, and the
    content is its member [content] if there is one that is not falsy and the
    raw text otherwise.  In every other case (the call throws, the text does
    not parse, or it parses to [null]) the file name and the raw text are
    returned. *)
Theorem processImportedText_total (rawText fileName : string)
    (settings : option AISettings) (W : World) (st : Effects) :
  exists title body st',
    processImportedText rawText fileName settings W st
    = (Returned (title, body), st') /\
    st' = snd (importCall rawText fileName settings W st) /\
    (issued st st' <= 1)%nat /\
    (forall text data,
        fst (importCall rawText fileName settings W st) = Returned text ->
        Json.parse (cleanJsonText text) = Some data ->
        data <> JNull ->
        memberOrText (member data "title") fileName title /\
        memberOrText (member data "content") rawText body) /\
    ((forall text,
         fst (importCall rawText fileName settings W st) = Returned text ->
         Json.parse (cleanJsonText text) = None \/
         Json.parse (cleanJsonText text) = Some JNull) ->
     title = JString (Js.wide fileName) /\ body = JString (Js.wide rawText)).
Proof.
  pose proof (callAI_issued
                (PromptText (FormatImported fileName (substring 0 15000 rawText)))
                settings (Some importSchema) None W st) as Hi.
  assert (Hor : forall m d, memberOrText m d (orDefault m d)).
  { intros [x|] d; unfold memberOrText; simpl.
    - destruct (Json.falsy x) eqn:Hx.
      + right. split; [reflexivity|]. intros v Hv. inversion Hv; subst. exact Hx.
      + left. split; [reflexivity | exact Hx].
    - right. split; [reflexivity|]. intros v Hv. discriminate. }
  unfold processImportedText, importCall, try_catch, bind.
  case_callAI; cbn [fst snd] in *.
  - unfold JSON_parse. destruct (Json.parse (cleanJsonText text)) as [data|] eqn:Hp;
      cbn [ret throw].
    + destruct data; cbn [prop ret throw];
        (eexists; eexists; eexists; split; [reflexivity|];
         split; [reflexivity|]; split; [exact Hi|]; split;
         [ intros t d Ht Hd Hnn; inversion Ht; subst t; rewrite Hp in Hd;
           inversion Hd; subst d; try congruence; split; apply Hor
         | intros Hbad; destruct (Hbad text eq_refl) as [Hn|Hn];
           rewrite Hp in Hn; try discriminate; split; reflexivity ]).
    + eexists; eexists; eexists; split; [reflexivity|].
      split; [reflexivity|]. split; [exact Hi|]. split.
      * intros t d Ht Hd. inversion Ht; subst t. rewrite Hp in Hd. discriminate.
      * intros _. split; reflexivity.
  - eexists; eexists; eexists; split; [reflexivity|].
    split; [reflexivity|]. split; [exact Hi|]. split.
    + intros t d Ht. discriminate.
    + intros _. split; reflexivity.
Qed.

Section BoundFacts.

Lemma lastN_app {A} (n : nat) (old recent : list A) :
  (n <= length recent)%nat ->
  Js.lastN n (old ++ recent) = Js.lastN n recent.
Proof.
  intros Hn. unfold Js.lastN. rewrite length_app, skipn_app.
  rewrite skipn_all2 by lia. simpl. f_equal. lia.
Qed.

Lemma substring_all (s : string) : substring 0 (String.length s) s = s.
Proof.
  induction s as [|c s IH]; simpl; [reflexivity | now rewrite IH].
Qed.

End BoundFacts.

(** X5. [generateExam] looks at the last thirty known words only: words
    before them change neither its request nor its result. *)
Theorem generateExam_last_thirty (lvl : string) (old recent : list string)
    (requirements : option string) (settings : option AISettings)
    (W : World) (st : Effects) :
  (30 <= length recent)%nat ->
  generateExam lvl (old ++ recent) requirements settings W st
  = generateExam lvl recent requirements settings W st.
Proof.
  intros Hn. unfold generateExam. rewrite (lastN_app 30 old recent Hn). reflexivity.
Qed.

Lemma generateExam_last_thirty_witness :
  generateExam "B1" (["first"; "second"] ++ repeat "word" 30) None None
               (nativeSays "[]") start
  = generateExam "B1" (repeat "word" 30) None None (nativeSays "[]") start.
Proof.
  apply (generateExam_last_thirty "B1" ["first"; "second"] (repeat "word" 30)).
  simpl. lia.
Defined.

(** X6. Of the raw text only the first 15000 characters reach the model:
    text beyond them leaves the trace of [processImportedText] unchanged. *)
Theorem processImportedText_head (head extra fileName : string)
    (settings : option AISettings) (W : World) (st : Effects) :
  String.length head = 15000%nat ->
  snd (processImportedText (head ++ extra) fileName settings W st)
  = snd (processImportedText head fileName settings W st).
Proof.
  intros Hlen. unfold processImportedText.
  replace (substring 0 15000 (head ++ extra)) with head
    by (rewrite <- Hlen; symmetry; apply substring_head).
  replace (substring 0 15000 head) with head
    by (rewrite <- Hlen; symmetry; apply substring_all).
  unfold try_catch, bind. case_callAI; [|reflexivity].
  unfold JSON_parse. destruct (Json.parse _) as [data|]; [|reflexivity].
  destruct data; reflexivity.
Qed.

Lemma processImportedText_head_witness :
  snd (processImportedText (filler 15000 "a" ++ "tail") "notes.txt" None
                           (nativeSays "{}") start)
  = snd (processImportedText (filler 15000 "a") "notes.txt" None
                             (nativeSays "{}") start).
Proof.
  apply (processImportedText_head (filler 15000 "a") "tail"). vm_compute. reflexivity.
Defined.

(** X7. [defineWord] and [generateExam] return whatever the response parses
    to, with no check of its shape: an empty response gives the empty object
    from both. *)
Theorem parsed_value_returned_unchecked (settings : option AISettings) (W : World)
    (st st' : Effects) (text : string) :
  (forall w context v,
      defineCall w context settings W st = (Returned text, st') ->
      Json.parse (cleanJsonText text) = Some v ->
      defineWord w context settings W st = (Returned v, st')) /\
  (forall lvl known requirements v,
      examCall lvl known requirements settings W st = (Returned text, st') ->
      Json.parse (cleanJsonText text) = Some v ->
      generateExam lvl known requirements settings W st = (Returned v, st')) /\
  (forall w context,
      text = "" ->
      defineCall w context settings W st = (Returned text, st') ->
      defineWord w context settings W st = (Returned (JObject []), st')) /\
  (forall lvl known requirements,
      text = "" ->
      examCall lvl known requirements settings W st = (Returned text, st') ->
      generateExam lvl known requirements settings W st
      = (Returned (JObject []), st')).
Proof.
  assert (Hdef : forall w context v,
      defineCall w context settings W st = (Returned text, st') ->
      Json.parse (cleanJsonText text) = Some v ->
      defineWord w context settings W st = (Returned v, st')).
  { intros w context v Hcall Hparse. unfold defineWord.
    erewrite try_returned; [reflexivity|].
    erewrite bind_returned; [|exact Hcall].
    unfold JSON_parse. rewrite Hparse. reflexivity. }
  assert (Hexam : forall lvl known requirements v,
      examCall lvl known requirements settings W st = (Returned text, st') ->
      Json.parse (cleanJsonText text) = Some v ->
      generateExam lvl known requirements settings W st = (Returned v, st')).
  { intros lvl known requirements v Hcall Hparse. unfold generateExam.
    erewrite try_returned; [reflexivity|].
    erewrite bind_returned; [|exact Hcall].
    unfold JSON_parse. rewrite Hparse. reflexivity. }
  split; [exact Hdef|]. split; [exact Hexam|]. split.
  - intros w context -> Hcall. apply Hdef; [exact Hcall | reflexivity].
  - intros lvl known requirements -> Hcall. apply Hexam; [exact Hcall | reflexivity].
Qed.

Lemma parsed_value_returned_unchecked_witness :
  defineWord "cat" None None (nativeSays "[1]") start
  = (Returned (JArray [JNumber 1 0]),
     snd (defineCall "cat" None None (nativeSays "[1]") start)).
Proof.
  destruct (parsed_value_returned_unchecked None (nativeSays "[1]") start
              (snd (defineCall "cat" None None (nativeSays "[1]") start)) "[1]")
    as [H _].
  apply (H "cat" None); reflexivity.
Defined.

Section SearchFailureFacts.

Variable label : string.

Lemma toArticle_requests (ia : nat * json) W st :
  requests (snd (toArticle label ia W st)) = requests st.
Proof. destruct ia as [i a]. destruct a; reflexivity. Qed.

Lemma toArticle_not_null (i : nat) (a : json) W st :
  a <> JNull -> exists art st', toArticle label (i, a) W st = (Returned art, st').
Proof. intros Ha. destruct a; try congruence; eexists; eexists; reflexivity. Qed.

Lemma toArticle_null (i : nat) W st :
  exists st', toArticle label (i, JNull) W st = (Thrown TypeError, st').
Proof. eexists. reflexivity. Qed.

Lemma mapM_toArticle_requests (l : list (nat * json)) W st :
  requests (snd (mapM (toArticle label) l W st)) = requests st.
Proof.
  revert st. induction l as [|ia l IH]; intros st; [reflexivity|].
  cbn [mapM]. unfold bind at 1.
  pose proof (toArticle_requests ia W st) as Hhead.
  destruct (toArticle label ia W st) as [[art|e] st1]; simpl in Hhead; [|exact Hhead].
  unfold bind. specialize (IH st1).
  destruct (mapM (toArticle label) l W st1) as [[arts|e] st2]; simpl in *; congruence.
Qed.

Lemma mapM_toArticle_null (l : list (nat * json)) W st :
  In JNull (map snd l) ->
  exists st', mapM (toArticle label) l W st = (Thrown TypeError, st').
Proof.
  revert st. induction l as [|[i a] l IH]; intros st Hin; [contradiction|].
  cbn [mapM]. unfold bind at 1.
  assert (Hcase : a = JNull \/ a <> JNull) by (destruct a; auto; right; discriminate).
  destruct Hcase as [->|Ha].
  - destruct (toArticle_null i W st) as [st' Hnull]. rewrite Hnull. eauto.
  - destruct (toArticle_not_null i a W st Ha) as [art [st1 Hok]]. rewrite Hok.
    destruct Hin as [Heq|Hin]; [simpl in Heq; congruence|].
    destruct (IH st1 Hin) as [st' Hrest]. unfold bind. rewrite Hrest. eauto.
Qed.

End SearchFailureFacts.

(** X8. One [null] among the elements of the array makes the whole search
    fail: [searchArticles] throws its own error and returns none of the
    other articles. *)
Theorem searchArticles_null_element (topic : string) (settings : option AISettings)
    (W : World) (st st' : Effects) (text : string) (items : list json) :
  searchCall topic settings W st = (Returned text, st') ->
  Json.parse (cleanJsonText text) = Some (JArray items) ->
  In JNull items ->
  fst (searchArticles topic settings W st) = Thrown searchFailed.
Proof.
  intros Hcall Hparse Hnull.
  rewrite (searchArticles_after_call _ _ _ _ _ _ Hcall), Hparse.
  destruct (mapM_toArticle_null (sourceLabelOf settings) (indexed items) W st')
    as [st'' Hrun]; [rewrite indexed_snd; exact Hnull|].
  erewrite try_thrown; [reflexivity | exact Hrun].
Qed.

Lemma searchArticles_null_element_witness :
  fst (searchArticles "space travel" None (nativeSays "[{}, null]") start)
  = Thrown searchFailed.
Proof.
  apply (searchArticles_null_element "space travel" None (nativeSays "[{}, null]")
           start (snd (searchCall "space travel" None (nativeSays "[{}, null]") start))
           "[{}, null]" [JObject []; JNull]).
  - reflexivity.
  - reflexivity.
  - right. left. reflexivity.
Defined.

(** X9. The caller of search, word definition, translation, exam generation
    and image transcription never sees the provider's own error: whatever
    these operations throw is their fixed message. *)
Theorem thrown_errors_masked (settings : option AISettings) (W : World)
    (st : Effects) :
  (forall topic,
      throwsOnly "Failed to fetch articles. Please check your AI settings."
                 (searchArticles topic settings W st)) /\
  (forall w context,
      throwsOnly "Failed to define word." (defineWord w context settings W st)) /\
  (forall text,
      throwsOnly "Failed to translate text." (translateText text settings W st)) /\
  (forall lvl known requirements,
      throwsOnly "Failed to generate exam."
                 (generateExam lvl known requirements settings W st)) /\
  (forall image mimeType,
      throwsOnly "Failed to extract text from image."
                 (extractTextFromImage image mimeType settings W st)).
Proof.
  assert (Hmask : forall A (m : M A) msg,
             throwsOnly msg (try_catch m (fun _ => throw (Error msg)) W st)).
  { intros A m msg. unfold throwsOnly, try_catch, throw.
    destruct (m W st) as [[a|e'] st']; simpl; auto. }
  repeat split; intros; try apply Hmask.
  unfold extractTextFromImage.
  destruct (providerOf settings); [apply Hmask | exact I].
Qed.

Section RoutingFacts.

Variable settings : option AISettings.
Variable W : World.
Variable st : Effects.

Lemma routed_same (a b : Effects) :
  requests a = requests b -> routed settings st a -> routed settings st b.
Proof. unfold routed. intros <-. auto. Qed.

Lemma routed_none : routed settings st st.
Proof. left. reflexivity. Qed.

Lemma callAI_routed prompt schema tools :
  routed settings st (snd (callAI prompt settings schema tools W st)).
Proof.
  unfold callAI, routed.
  destruct (providerOf settings).
  - right. unfold try_catch, bind, generateContent.
    destruct (answerGenerateContent W _ _); simpl; eexists; split; reflexivity.
  - destruct (credentials settings) as [[url key]|]; [|left; reflexivity].
    right. unfold try_catch, bind, fetch, throw, ret.
    destruct (answerFetch W _ _) as [e|resp]; simpl;
      [eexists; split; reflexivity|].
    destruct (ok resp); simpl; [|eexists; split; reflexivity].
    destruct (messageContent resp); simpl; eexists; split; reflexivity.
Qed.

Lemma searchArticles_requests topic :
  requests (snd (searchArticles topic settings W st))
  = requests (snd (searchCall topic settings W st)).
Proof.
  destruct (searchCall topic settings W st) as [[text|e] st'] eqn:Hcall.
  - rewrite (searchArticles_after_call _ _ _ _ _ _ Hcall).
    unfold try_catch. simpl snd.
    destruct (Json.parse (cleanJsonText text)) as [[| | | |items|]|]; try reflexivity.
    pose proof (mapM_toArticle_requests (sourceLabelOf settings) (indexed items) W st')
      as Hreq.
    destruct (mapM _ (indexed items) W st') as [[arts|e] st'']; exact Hreq.
  - unfold searchCall in Hcall. unfold searchArticles, try_catch.
    destruct (providerOf settings);
      (erewrite bind_thrown; [reflexivity|]);
      (erewrite bind_thrown; [reflexivity | exact Hcall]).
Qed.

End RoutingFacts.

(** X10. Every operation sends at most one request, and only to the backend
    the settings select: never to [fetch] under the native provider (or
    without settings), never to the SDK under the generic one. *)
Theorem requests_follow_provider (settings : option AISettings) (W : World)
    (st : Effects) :
  (forall topic, routed settings st (snd (searchArticles topic settings W st))) /\
  (forall image mimeType,
      routed settings st (snd (extractTextFromImage image mimeType settings W st))) /\
  (forall rawText fileName,
      routed settings st (snd (processImportedText rawText fileName settings W st))) /\
  (forall w context, routed settings st (snd (defineWord w context settings W st))) /\
  (forall text, routed settings st (snd (translateText text settings W st))) /\
  (forall words, routed settings st (snd (assessLevel words settings W st))) /\
  (forall w, routed settings st (snd (generateQuizForWord w settings W st))) /\
  (forall lvl known requirements,
      routed settings st (snd (generateExam lvl known requirements settings W st))) /\
  (forall history message context,
      routed settings st (snd (chatWithTutor history message context settings W st))).
Proof.
  repeat split; intros.
  - eapply routed_same; [symmetry; apply searchArticles_requests|].
    unfold searchCall. destruct (providerOf settings) eqn:Hp; apply callAI_routed.
  - unfold extractTextFromImage, routed.
    destruct (providerOf settings); [|left; reflexivity].
    right. unfold try_catch, bind, generateContent.
    destruct (answerGenerateContent W _ _); simpl; eexists; split; reflexivity.
  - pose proof (callAI_routed settings W st
                  (PromptText (FormatImported fileName (substring 0 15000 rawText)))
                  (Some importSchema) None) as Hr.
    unfold processImportedText, try_catch, bind. case_callAI; [|exact Hr].
    unfold JSON_parse. destruct (Json.parse _) as [data|]; [|exact Hr].
    destruct data; exact Hr.
  - pose proof (callAI_routed settings W st
                  (PromptText (DefineWord w (truthy context)))
                  (Some definitionSchema) None) as Hr.
    unfold defineWord, try_catch, bind. case_callAI; [|exact Hr].
    unfold JSON_parse. destruct (Json.parse _); exact Hr.
  - pose proof (callAI_routed settings W st (PromptText (Translate text)) None None)
      as Hr.
    unfold translateText, try_catch. case_callAI; exact Hr.
  - destruct words as [|w ws]; [apply routed_none|].
    pose proof (callAI_routed settings W st
                  (PromptText (EstimateLevel (Js.join ", " (w :: ws)))) None None)
      as Hr.
    unfold assessLevel, try_catch, bind. case_callAI; exact Hr.
  - pose proof (callAI_routed settings W st (PromptText (MakeQuiz w))
                  (Some quizSchema) None) as Hr.
    unfold generateQuizForWord, try_catch, bind. case_callAI; [|exact Hr].
    unfold JSON_parse. destruct (Json.parse _) as [data|]; [|exact Hr].
    destruct data; exact Hr.
  - pose proof (callAI_routed settings W st
                  (PromptText (MakeExam lvl (Js.join ", " (Js.lastN 30 known))
                                 (orElse requirements "General practice")))
                  (Some examSchema) None) as Hr.
    unfold generateExam, try_catch, bind. case_callAI; [|exact Hr].
    unfold JSON_parse. destruct (Json.parse _); exact Hr.
  - assert (Hnative : providerOf settings = gemini ->
              routed settings st
                (snd (sendMessage (nativeChat history message context settings) W st))).
    { intros Hp. unfold routed, sendMessage. rewrite Hp, settle_requests.
      right. eexists. split; reflexivity. }
    unfold chatWithTutor.
    destruct (providerOf settings) eqn:Hp; [apply Hnative; reflexivity|].
    destruct settings as [s|]; [|discriminate].
    destruct (credentials (Some s)) as [[url key]|]; [|apply routed_none].
    unfold bind at 1.
    pose proof (mapM_toMessage_state history W st) as Hpast.
    destruct (mapM toMessage history W st) as [[past|e] st1]; simpl in Hpast; subst st1;
      [|apply routed_none].
    unfold routed. rewrite Hp. right.
    unfold try_catch, bind, fetch.
    destruct (answerFetch W _ _) as [e|resp]; simpl; [eexists; split; reflexivity|].
    destruct (messageContent resp); simpl; eexists; split; reflexivity.
Qed.

Section ChatFacts.

Lemma mapM_toMessage_ok (history : list HistoryItem) W st :
  wellFormed history ->
  mapM toMessage history W st = (Returned (map messageOf history), st).
Proof.
  induction history as [|h history IH]; intros Hwf; [reflexivity|].
  inversion Hwf as [|? ? Hh Hrest]; subst.
  cbn [mapM map]. unfold toMessage at 1, messageOf at 1.
  destruct (h_parts h) as [|text parts]; [congruence|].
  unfold bind at 1. cbn [ret]. erewrite bind_returned; [|apply IH; exact Hrest].
  reflexivity.
Qed.

Lemma mapM_toMessage_bad (history : list HistoryItem) W st :
  Exists (fun h => h_parts h = []) history ->
  mapM toMessage history W st = (Thrown TypeError, st).
Proof.
  induction history as [|h history IH]; intros Hbad; [inversion Hbad|].
  cbn [mapM]. unfold toMessage at 1.
  destruct (h_parts h) as [|text parts] eqn:Hparts; [reflexivity|].
  inversion Hbad as [? ? Hh|? ? Hrest]; subst; [congruence|].
  unfold bind at 1. cbn [ret]. erewrite bind_thrown; [reflexivity | apply IH; exact Hrest].
Qed.

End ChatFacts.

(** X11. Only [callAI] looks at the HTTP status.  To an answer with a
    non-success status that still carries a reply, [callAI] responds by
    throwing an error naming the status text, while [chatWithTutor] on the
    generic backend returns the reply. *)
Theorem http_status_checked_by_callAI_only (s : AISettings) (url key : string)
    (W : World) (st : Effects) (response : HttpResponse) (reply : string) :
  provider s = custom ->
  credentials (Some s) = Some (url, key) ->
  (forall r, answerFetch W (length (requests st)) r = inr response) ->
  ok response = false ->
  messageContent response = inr (Some reply) ->
  reply <> "" ->
  (forall prompt schema tools,
      fst (callAI prompt (Some s) schema tools W st)
      = Thrown (Error ("Custom API Error: " ++ statusText response))) /\
  (forall history message context,
      wellFormed history ->
      fst (chatWithTutor history message context (Some s) W st)
      = Returned (Some reply)).
Proof.
  intros Hp Hc Hanswer Hok Hbody Hreply. split.
  - intros prompt schema tools. unfold callAI, providerOf. rewrite Hp, Hc.
    unfold try_catch, bind, fetch. rewrite Hanswer. simpl. rewrite Hok. reflexivity.
  - intros history message context Hwf.
    unfold chatWithTutor, providerOf. rewrite Hp, Hc.
    erewrite bind_returned; [|apply mapM_toMessage_ok; exact Hwf].
    unfold try_catch, bind, fetch. rewrite Hanswer. simpl. rewrite Hbody.
    unfold ret, orElse. simpl.
    destruct (String.eqb reply "") eqn:He; [|reflexivity].
    apply String.eqb_eq in He. congruence.
Qed.

Lemma http_status_checked_by_callAI_only_witness :
  fst (callAI (PromptText (Translate "hello")) complete None None
              (unauthorized "Bonjour") start)
  = Thrown (Error "Custom API Error: Unauthorized") /\
  fst (chatWithTutor [] "hello" "" complete (unauthorized "Bonjour") start)
  = Returned (Some "Bonjour").
Proof.
  destruct (http_status_checked_by_callAI_only
              (genericSettings (Some "https://api.deepseek.com") (Some "sk-1"))
              "https://api.deepseek.com" "sk-1" (unauthorized "Bonjour") start
              {| ok := false; statusText := "Unauthorized";
                 messageContent := inr (Some "Bonjour") |} "Bonjour")
    as [Hcall Hchat]; try reflexivity; try discriminate.
  split.
  - apply Hcall.
  - apply Hchat. constructor.
Defined.

(** X12. On the generic backend with credentials, a history whose items all
    have a part is sent in one request: the persona and context as system
    message, the history in order (role [model] as [assistant], any other as
    [user], each with its first part), then the new message as [user].  A
    history item without parts makes [chatWithTutor] throw a [TypeError]
    before any request. *)
Theorem chat_generic_messages (s : AISettings) (url key : string)
    (history : list HistoryItem) (message context : string)
    (W : World) (st : Effects) :
  provider s = custom ->
  credentials (Some s) = Some (url, key) ->
  (wellFormed history ->
   requests (snd (chatWithTutor history message context (Some s) W st))
   = (requests st ++ [Fetch (genericChat url key s history message context)])%list) /\
  (Exists (fun h => h_parts h = []) history ->
   chatWithTutor history message context (Some s) W st = (Thrown TypeError, st)).
Proof.
  intros Hp Hc. split.
  - intros Hwf. unfold chatWithTutor, providerOf. rewrite Hp, Hc.
    erewrite bind_returned; [|apply mapM_toMessage_ok; exact Hwf].
    unfold try_catch, bind, fetch.
    fold (personaOf (Some s)).
    fold (genericChat url key s history message context).
    destruct (answerFetch W _ _) as [e|resp]; simpl; [reflexivity|].
    destruct (messageContent resp); reflexivity.
  - intros Hbad. unfold chatWithTutor, providerOf. rewrite Hp, Hc.
    erewrite bind_thrown; [reflexivity | apply mapM_toMessage_bad; exact Hbad].
Qed.

Lemma chat_generic_messages_witness :
  requests (snd (chatWithTutor [ {| h_role := "model"; h_parts := ["Hello!"] |} ]
                               "hi" "Level: B1" complete offline start))
  = [Fetch (genericChat "https://api.deepseek.com" "sk-1"
              (genericSettings (Some "https://api.deepseek.com") (Some "sk-1"))
              [ {| h_role := "model"; h_parts := ["Hello!"] |} ] "hi" "Level: B1")]
  /\
  chatWithTutor [ {| h_role := "user"; h_parts := [] |} ] "hi" "" complete offline start
  = (Thrown TypeError, start).
Proof.
  split.
  - apply (chat_generic_messages
             (genericSettings (Some "https://api.deepseek.com") (Some "sk-1"))
             "https://api.deepseek.com" "sk-1"
             [ {| h_role := "model"; h_parts := ["Hello!"] |} ] "hi" "Level: B1"
             offline start); try reflexivity.
    repeat constructor. discriminate.
  - apply (chat_generic_messages
             (genericSettings (Some "https://api.deepseek.com") (Some "sk-1"))
             "https://api.deepseek.com" "sk-1"
             [ {| h_role := "user"; h_parts := [] |} ] "hi" ""
             offline start); try reflexivity.
    constructor. reflexivity.
Defined.


(** * Further properties of the saved-word collection *)

Section MoreStoreFacts.

Lemma present_text (w : SavedWord) (prev : list SavedWord) :
  ~ In (Js.toLowerCase (word w)) (texts prev) ->
  existsb (sameText w) prev = false.
Proof.
  intros Hnot. destruct (existsb (sameText w) prev) eqn:Hex; [|reflexivity].
  exfalso. apply Hnot. apply existsb_exists in Hex.
  destruct Hex as [x [Hin Hx]]. apply sameText_text in Hx.
  unfold texts. apply in_map_iff. exists x. split; assumption.
Qed.

Lemma handleSaveWord_new (w : SavedWord) (prev : list SavedWord) :
  existsb (sameText w) prev = false -> handleSaveWord w prev = w :: prev.
Proof.
  intros Hnew. unfold handleSaveWord.
  destruct (find (sameText w) prev) eqn:Hfind; [|reflexivity].
  apply find_some in Hfind. destruct Hfind as [Hin Hs].
  assert (existsb (sameText w) prev = true) by (apply existsb_exists; eauto).
  congruence.
Qed.

Lemma delete_absent (id : string) (prev : list SavedWord) :
  ~ In id (ids prev) -> handleDeleteWord id prev = prev.
Proof.
  unfold handleDeleteWord, ids.
  induction prev as [|w prev IH]; simpl; intros Hnot; [reflexivity|].
  destruct (String.eqb (sw_id w) id) eqn:Heq.
  - apply String.eqb_eq in Heq. tauto.
  - simpl. rewrite IH by tauto. reflexivity.
Qed.

Lemma saves_stack (ws acc : list SavedWord) :
  NoDup (texts ws ++ texts acc) ->
  fold_left applyOp (map OpSave ws) acc = (rev ws ++ acc)%list.
Proof.
  revert acc. induction ws as [|w ws IH]; intros acc Hnd; [reflexivity|].
  cbn [map fold_left applyOp].
  cbn [texts map app] in Hnd. fold (texts ws) in Hnd.
  inversion Hnd as [|? ? Hnotin Hrest]; subst.
  rewrite handleSaveWord_new.
  - rewrite IH.
    + cbn [rev]. rewrite <- app_assoc. reflexivity.
    + cbn [texts map]. fold (texts acc).
      eapply Permutation_NoDup; [apply Permutation_middle | exact Hnd].
  - apply present_text. intros Hin. apply Hnotin. apply in_or_app. right. exact Hin.
Qed.

Lemma lastN_rev {A} (n : nat) (l : list A) :
  Js.lastN n (rev l) = rev (firstn n l).
Proof.
  unfold Js.lastN. rewrite length_rev, skipn_rev. f_equal.
  destruct (Nat.le_gt_cases n (length l)) as [Hle|Hgt].
  - f_equal. lia.
  - replace (length l - (length l - n))%nat with (length l) by lia.
    rewrite firstn_all, firstn_all2 by lia. reflexivity.
Qed.

End MoreStoreFacts.

(** X13. Saving a word whose text and identifier are both new and then
    deleting it by its identifier gives back the collection as it was. *)
Theorem save_then_delete (w : SavedWord) (prev : list SavedWord) :
  existsb (sameText w) prev = false ->
  ~ In (sw_id w) (ids prev) ->
  handleDeleteWord (sw_id w) (handleSaveWord w prev) = prev.
Proof.
  intros Hnew Hid. rewrite (handleSaveWord_new w prev Hnew).
  unfold handleDeleteWord. cbn [filter]. rewrite String.eqb_refl. cbn [negb].
  apply delete_absent. exact Hid.
Qed.

Lemma save_then_delete_witness :
  handleDeleteWord "4" (handleSaveWord (newSavedWord (defOf "date") 4 4) sampleWords)
  = sampleWords.
Proof.
  apply (save_then_delete (newSavedWord (defOf "date") 4 4) sampleWords).
  - reflexivity.
  - simpl. intros [H|[H|[H|[]]]]; discriminate.
Defined.

(** X14. Deleting by identifier removes every saved word that carries it and
    only those, leaves the collection alone when no word carries it, and
    done twice does what once does. *)
Theorem delete_by_id (id : string) (prev : list SavedWord) :
  ~ In id (ids (handleDeleteWord id prev)) /\
  (forall w, In w (handleDeleteWord id prev) <-> In w prev /\ sw_id w <> id) /\
  handleDeleteWord id (handleDeleteWord id prev) = handleDeleteWord id prev /\
  (~ In id (ids prev) -> handleDeleteWord id prev = prev).
Proof.
  assert (Hin : forall w, In w (handleDeleteWord id prev)
                          <-> In w prev /\ sw_id w <> id).
  { intros w. unfold handleDeleteWord. rewrite filter_In.
    rewrite negb_true_iff, String.eqb_neq. reflexivity. }
  assert (Hgone : ~ In id (ids (handleDeleteWord id prev))).
  { unfold ids. intros H. apply in_map_iff in H. destruct H as [w [Hid Hw]].
    apply Hin in Hw. tauto. }
  split; [exact Hgone|]. split; [exact Hin|]. split.
  - apply delete_absent. exact Hgone.
  - apply delete_absent.
Qed.

Lemma delete_by_id_witness :
  handleDeleteWord "9" sampleWords = sampleWords.
Proof.
  apply (delete_by_id "9" sampleWords).
  simpl. intros [H|[H|[H|[]]]]; discriminate.
Defined.

(** X15. A quiz result changes review counts only: identifiers, definitions
    and dates stay as they are, in the same order, and a result for an
    identifier no saved word carries leaves the collection unchanged. *)
Theorem quiz_result_keeps_words (id : string) (success : bool)
    (prev : list SavedWord) :
  ids (handleQuizResult id success prev) = ids prev /\
  map definition (handleQuizResult id success prev) = map definition prev /\
  map dateLearned (handleQuizResult id success prev) = map dateLearned prev /\
  (~ In id (ids prev) -> handleQuizResult id success prev = prev).
Proof.
  unfold handleQuizResult, ids. rewrite !map_map.
  repeat split.
  - apply map_ext. intros w. destruct (String.eqb (sw_id w) id); reflexivity.
  - apply map_ext. intros w. destruct (String.eqb (sw_id w) id); reflexivity.
  - apply map_ext. intros w. destruct (String.eqb (sw_id w) id); reflexivity.
  - induction prev as [|w prev IH]; simpl; intros Hnot; [reflexivity|].
    destruct (String.eqb (sw_id w) id) eqn:Heq.
    + apply String.eqb_eq in Heq. tauto.
    + rewrite IH by tauto. reflexivity.
Qed.

Lemma quiz_result_keeps_words_witness :
  handleQuizResult "9" true sampleWords = sampleWords.
Proof.
  apply (quiz_result_keeps_words "9" true sampleWords).
  simpl. intros [H|[H|[H|[]]]]; discriminate.
Defined.

(** X16. Words of pairwise different texts saved one after the other end up
    newest first, so the sample sent for the level assessment, the last
    twenty of the collection, is made of the twenty words saved first. *)
Theorem level_sample_is_oldest (ws : list SavedWord) :
  NoDup (texts ws) ->
  runOps (map OpSave ws) = rev ws /\
  levelSample (runOps (map OpSave ws))
  = rev (firstn 20 (map (fun w : SavedWord => word w) ws)).
Proof.
  intros Hnd.
  assert (Hrun : runOps (map OpSave ws) = rev ws).
  { unfold runOps. rewrite saves_stack; [apply app_nil_r|].
    cbn [texts map]. rewrite app_nil_r. exact Hnd. }
  split; [exact Hrun|].
  rewrite Hrun. unfold levelSample. rewrite map_rev. apply lastN_rev.
Qed.

Lemma level_sample_is_oldest_witness :
  runOps (map OpSave sampleWords) = rev sampleWords /\
  levelSample (runOps (map OpSave sampleWords)) = ["cheese"; "Bread"; "apple"].
Proof.
  apply (level_sample_is_oldest sampleWords).
  repeat constructor; simpl; intuition discriminate.
Defined.

(** X17. The level re-assessment never throws.  It sends a request only when
    the number of saved words is a positive multiple of five, one at most,
    and a level it reports is never empty. *)
Theorem updateLevel_quiet (savedWords : list SavedWord) (aiSettings : AISettings)
    (W : World) (st : Effects) :
  exists r st',
    updateLevel savedWords aiSettings W st = (Returned r, st') /\
    (issued st st' <= 1)%nat /\
    r <> Some "" /\
    (savedWords = [] \/ (length savedWords mod 5)%nat <> 0%nat ->
     r = None /\ st' = st).
Proof.
  unfold updateLevel.
  destruct ((0 <? length savedWords) && (length savedWords mod 5 =? 0))%nat eqn:Hdue.
  - apply andb_true_iff in Hdue. destruct Hdue as [Hpos Hmod].
    apply Nat.ltb_lt in Hpos. apply Nat.eqb_eq in Hmod.
    destruct (assessLevel_result (levelSample savedWords) (Some aiSettings) W st)
      as [lvl [st' [Hrun [Hne [_ Hi]]]]].
    exists (Some lvl), st'. split; [erewrite bind_returned; [reflexivity|exact Hrun]|].
    split; [exact Hi|]. split.
    + intros Heq. inversion Heq; subst. congruence.
    + intros [->|Hmod']; [simpl in Hpos; lia | congruence].
  - exists None, st. split; [reflexivity|]. split; [rewrite issued_refl; lia|].
    split; [discriminate | auto].
Qed.

Lemma updateLevel_quiet_witness :
  exists r st',
    updateLevel sampleWords (genericSettings None None) offline start
    = (Returned r, st') /\
    (issued start st' <= 1)%nat /\
    r <> Some "" /\
    r = None /\ st' = start.
Proof.
  destruct (updateLevel_quiet sampleWords (genericSettings None None) offline start)
    as [r [st' [Hrun [Hi [Hne Hskip]]]]].
  exists r, st'. split; [exact Hrun|]. split; [exact Hi|]. split; [exact Hne|].
  apply Hskip. right. simpl. discriminate.
Defined.


(** * Properties of the notebook *)

Section NotebookFacts.

Lemma occurs_trimStart (c : ascii) (s : string) :
  JsText.occurs c s = false -> JsText.occurs c (Js.trimStart s) = false.
Proof.
  induction s as [|d s IH]; simpl; [auto|].
  destruct (Js.is_space d); [|auto].
  intros H. apply orb_false_iff in H. apply IH, H.
Qed.

Lemma occurs_trimEnd (c : ascii) (s : string) :
  JsText.occurs c s = false -> JsText.occurs c (Js.trimEnd s) = false.
Proof.
  induction s as [|d s IH]; simpl; [auto|].
  intros H. apply orb_false_iff in H. destruct H as [Hd Hs].
  specialize (IH Hs).
  destruct (Js.trimEnd s); [destruct (Js.is_space d)|]; simpl in *;
    rewrite ?Hd, ?IH; reflexivity.
Qed.

Lemma split_pieces (sep : ascii) (s : string) :
  Forall (fun piece => JsText.occurs sep piece = false) (JsText.split sep s).
Proof.
  induction s as [|c s IH]; simpl; [repeat constructor|].
  destruct (Ascii.eqb c sep) eqn:Hc; [constructor; [reflexivity | exact IH]|].
  destruct (JsText.split sep s) as [|piece pieces].
  - repeat constructor. simpl. rewrite Hc. reflexivity.
  - inversion IH as [|? ? Hpiece Hrest]; subst.
    constructor; [|exact Hrest]. simpl. rewrite Hc. exact Hpiece.
Qed.

Lemma includes_empty (s : string) : JsText.includes s "" = true.
Proof. destruct s; reflexivity. Qed.

Lemma lower_unit_idem (c : ascii) : Js.lower_unit (Js.lower_unit c) = Js.lower_unit c.
Proof.
  destruct c as [[|] [|] [|] [|] [|] [|] [|] [|]]; vm_compute; reflexivity.
Qed.

Lemma toLowerCase_idem (s : string) :
  Js.toLowerCase (Js.toLowerCase s) = Js.toLowerCase s.
Proof.
  induction s as [|c s IH]; simpl; [reflexivity|].
  rewrite lower_unit_idem, IH. reflexivity.
Qed.

Lemma filter_all {A} (f : A -> bool) (l : list A) :
  (forall x, In x l -> f x = true) -> filter f l = l.
Proof.
  induction l as [|a l IH]; simpl; intros H; [reflexivity|].
  rewrite (H a) by auto. rewrite IH by auto. reflexivity.
Qed.

Lemma mapGet_found {V} (key : string) (entries : list (string * V)) (v : V) :
  mapGet key entries = Some v -> In (key, v) entries.
Proof.
  induction entries as [|[k x] r IH]; simpl; [discriminate|].
  destruct (mapGet key r) as [y|].
  - intros H. inversion H; subst. right. apply IH. reflexivity.
  - destruct (String.eqb k key) eqn:Hk; [|discriminate].
    apply String.eqb_eq in Hk. intros H. inversion H; subst. left. reflexivity.
Qed.

Lemma mapGet_unique {V} (key : string) (entries : list (string * V)) (v : V) :
  NoDup (map fst entries) -> In (key, v) entries -> mapGet key entries = Some v.
Proof.
  induction entries as [|[k x] r IH]; simpl; intros Hnd Hin; [contradiction|].
  inversion Hnd as [|? ? Hnotin Hrest]; subst.
  destruct Hin as [Heq|Hin].
  - inversion Heq; subst.
    destruct (mapGet key r) as [y|] eqn:Hget.
    + apply mapGet_found in Hget. exfalso. apply Hnotin.
      apply in_map_iff. exists (key, y). split; [reflexivity | exact Hget].
    + rewrite String.eqb_refl. reflexivity.
  - rewrite (IH Hrest Hin). reflexivity.
Qed.

Lemma lettersOnly_letters (s : string) (c : ascii) :
  JsText.occurs c (JsText.lettersOnly s) = true ->
  (97 <= nat_of_ascii c <= 122)%nat.
Proof.
  induction s as [|d s IH]; cbn [JsText.lettersOnly JsText.occurs]; [discriminate|].
  destruct ((97 <=? nat_of_ascii d) && (nat_of_ascii d <=? 122))%nat eqn:Hd; [|exact IH].
  cbn [JsText.occurs]. destruct (Ascii.eqb d c) eqn:Heq; [|exact IH].
  apply Ascii.eqb_eq in Heq. subst. intros _.
  apply andb_true_iff in Hd. destruct Hd as [H1 H2].
  apply Nat.leb_le in H1. apply Nat.leb_le in H2. lia.
Qed.

End NotebookFacts.

(** X18. [handleSaveNote] makes no note of a title that is empty or white
    space, and leaves the form and the clock alone then.  Otherwise the note
    carries the title and content as typed, the form is cleared, and each tag
    is non-empty, free of commas and of white space at either end. *)
Theorem handleSaveNote_tags (form : NoteForm) (W : World) (st : Effects) :
  (Js.trim (newNoteTitle form) = "" ->
   handleSaveNote form W st = (Returned (None, form), st)) /\
  (Js.trim (newNoteTitle form) <> "" ->
   exists note st',
     handleSaveNote form W st
     = (Returned (Some note, {| isCreating := false; newNoteTitle := "";
                                newNoteContent := ""; newNoteTags := "" |}), st') /\
     requests st' = requests st /\
     n_title note = newNoteTitle form /\
     n_content note = newNoteContent form /\
     Forall (fun t => t <> "" /\ Js.trim t = t /\ JsText.occurs "," t = false)
            (n_tags note)).
Proof.
  unfold handleSaveNote. split.
  - intros Hblank. rewrite Hblank. reflexivity.
  - intros Htitle.
    destruct (String.eqb (Js.trim (newNoteTitle form)) "") eqn:He;
      [apply String.eqb_eq in He; congruence|].
    eexists. eexists. split; [reflexivity|].
    repeat split. cbn [n_tags]. unfold tagsOf.
    apply Forall_forall. intros t Hin. apply filter_In in Hin.
    destruct Hin as [Hin Hne]. apply in_map_iff in Hin.
    destruct Hin as [piece [Ht Hpiece]]. subst t. split; [|split].
    + intros Heq. rewrite Heq in Hne. discriminate.
    + destruct (trim_tight piece) as [Hs Hend]. unfold Js.trim at 1.
      rewrite Hs. exact Hend.
    + pose proof (split_pieces "," (newNoteTags form)) as Hall.
      eapply Forall_forall in Hall; [|exact Hpiece].
      unfold Js.trim. apply occurs_trimEnd, occurs_trimStart. exact Hall.
Qed.

Lemma handleSaveNote_tags_witness :
  handleSaveNote (draft "   " "a,b") offline start
  = (Returned (None, draft "   " "a,b"), start) /\
  exists note st',
    handleSaveNote (draft "Verbs" " grammar, ,verbs ,") offline start
    = (Returned (Some note, {| isCreating := false; newNoteTitle := "";
                               newNoteContent := ""; newNoteTags := "" |}), st') /\
    requests st' = requests start /\
    n_title note = "Verbs" /\
    n_content note = "body" /\
    Forall (fun t => t <> "" /\ Js.trim t = t /\ JsText.occurs "," t = false)
           (n_tags note).
Proof.
  split.
  - apply (handleSaveNote_tags (draft "   " "a,b") offline start). reflexivity.
  - apply (handleSaveNote_tags (draft "Verbs" " grammar, ,verbs ,") offline start).
    discriminate.
Defined.

(** X19. With an empty search the notebook lists every note and every saved
    word, and the notes listed for a search text do not depend on the letter
    case it is typed in. *)
Theorem notebook_search (notes : list Note) (words : list SavedWord)
    (search : string) :
  filteredNotes notes "" = notes /\
  filteredWords words "" = words /\
  filteredNotes notes (Js.toLowerCase search) = filteredNotes notes search.
Proof.
  split; [|split].
  - unfold filteredNotes. apply filter_all. intros n _. cbn [Js.toLowerCase].
    rewrite includes_empty. reflexivity.
  - unfold filteredWords. apply filter_all. intros w _. cbn [Js.toLowerCase].
    rewrite includes_empty. reflexivity.
  - unfold filteredNotes. rewrite toLowerCase_idem. reflexivity.
Qed.

(** X20. The highlighter marks a part only with a saved word whose
    lower-cased text is the part's lower-cased letters [a-z], two at least:
    a saved word with any other character in its text, or a single letter,
    is never shown.  When no two saved words share a text, every saved word
    of two or more letters [a-z] is found from a part that spells it in any
    letter case, with whatever punctuation is attached. *)
Theorem highlight_matches_letters (savedWords : list SavedWord) (part : string) :
  (forall found,
      highlight savedWords part = Some found ->
      In found savedWords /\
      Js.toLowerCase (word found) = JsText.lettersOnly (Js.toLowerCase part) /\
      (2 <= String.length (Js.toLowerCase (word found)))%nat /\
      (forall c, JsText.occurs c (Js.toLowerCase (word found)) = true ->
                 (97 <= nat_of_ascii c <= 122)%nat)) /\
  (forall w,
      NoDup (texts savedWords) ->
      In w savedWords ->
      JsText.lettersOnly (Js.toLowerCase part) = Js.toLowerCase (word w) ->
      (2 <= String.length (Js.toLowerCase (word w)))%nat ->
      highlight savedWords part = Some w).
Proof.
  unfold highlight. split.
  - intros found.
    destruct (mapGet _ _) as [m|] eqn:Hget; [|discriminate].
    destruct (1 <? String.length _)%nat eqn:Hlen; [|discriminate].
    intros H. injection H as <-. apply mapGet_found in Hget.
    apply in_map_iff in Hget. destruct Hget as [x [Hx Hin]].
    injection Hx as Hkey ->. apply Nat.ltb_lt in Hlen.
    split; [exact Hin|]. split; [exact Hkey|]. rewrite Hkey. split; [lia|].
    intros c. apply lettersOnly_letters.
  - intros w Hnd Hin Hclean Hlen. rewrite Hclean.
    rewrite (mapGet_unique _ _ w).
    + replace (1 <? String.length (Js.toLowerCase (word w)))%nat with true
        by (symmetry; apply Nat.ltb_lt; lia). reflexivity.
    + rewrite map_map. exact Hnd.
    + apply in_map_iff. exists w. split; [reflexivity | exact Hin].
Qed.

Lemma highlight_matches_letters_witness :
  highlight sampleWords "bread!" = Some (newSavedWord (defOf "Bread") 2 2).
Proof.
  apply (highlight_matches_letters sampleWords "bread!").
  - repeat constructor; simpl; intuition discriminate.
  - right. left. reflexivity.
  - reflexivity.
  - simpl. lia.
Defined.

(** * Properties of the views *)

(** X21. [handleSend] ignores a blank input.  For any other input it never
    throws and appends exactly two messages to the list: the user's text as
    typed, then a reply of role [model] that is never empty; it sends one
    request, to the native chat, carrying the earlier messages as history
    and the input as the new message. *)
Theorem handleSend_appends (input : string) (messages : list ChatMessage)
    (userStats : UserStats) (W : World) (st : Effects) :
  (Js.trim input = "" ->
   handleSend input messages userStats W st = (Returned None, st)) /\
  (Js.trim input <> "" ->
   exists u b st',
     handleSend input messages userStats W st
     = (Returned (Some (messages ++ [u; b])%list), st') /\
     cm_role u = "user" /\ cm_text u = input /\
     cm_role b = "model" /\ cm_text b <> "" /\
     requests st'
     = (requests st
        ++ [SendMessage (nativeChat (toHistory messages) input
                                    (contextOf userStats) None)])%list).
Proof.
  unfold handleSend. split.
  - intros Hblank. rewrite Hblank. reflexivity.
  - intros Hinput.
    destruct (String.eqb (Js.trim input) "") eqn:He;
      [apply String.eqb_eq in He; congruence|].
    unfold bind at 1, Date_now at 1. unfold bind at 1.
    unfold try_catch, bind, chatWithTutor. cbn [providerOf cm_text].
    fold (nativeChat (toHistory messages) input (contextOf userStats) None).
    unfold sendMessage.
    destruct (answerSendMessage W _ _) as [e|reply]; cbn.
    + eexists. eexists. eexists. split; [reflexivity|].
      repeat split; try reflexivity. discriminate.
    + eexists. eexists. eexists. split; [reflexivity|].
      repeat split; try reflexivity. cbn [cm_text].
      unfold orElse. destruct reply as [t|]; [|discriminate].
      destruct (String.eqb t "") eqn:Ht; [discriminate|].
      intros Heq. rewrite Heq in Ht. discriminate.
Qed.

Lemma handleSend_appends_witness :
  handleSend "  " [greeting] beginner offline start = (Returned None, start) /\
  exists u b st',
    handleSend "hi" [greeting] beginner offline start
    = (Returned (Some ([greeting] ++ [u; b])%list), st') /\
    cm_role u = "user" /\ cm_text u = "hi" /\
    cm_role b = "model" /\ cm_text b <> "" /\
    requests st'
    = (requests start
       ++ [SendMessage (nativeChat (toHistory [greeting]) "hi"
                                   (contextOf beginner) None)])%list.
Proof.
  split.
  - apply (handleSend_appends "  " [greeting] beginner offline start). reflexivity.
  - apply (handleSend_appends "hi" [greeting] beginner offline start). discriminate.
Defined.

Section ImporterFacts.

Variable label : string.

Lemma toArticle_label (ia : nat * json) W st art st' :
  toArticle label ia W st = (Returned art, st') ->
  a_source art = label /\ a_type art = WebArticle.
Proof.
  destruct ia as [i a]. destruct a; cbn; intros H; inversion H; subst;
    split; reflexivity.
Qed.

Lemma mapM_toArticle_labels (l : list (nat * json)) W st arts st' :
  mapM (toArticle label) l W st = (Returned arts, st') ->
  Forall (fun art => a_source art = label /\ a_type art = WebArticle) arts.
Proof.
  revert st arts. induction l as [|ia l IH]; intros st arts.
  - intros H. inversion H; subst. constructor.
  - cbn [mapM]. unfold bind at 1.
    destruct (toArticle label ia W st) as [[art|e] st1] eqn:Hhead; [|discriminate].
    unfold bind.
    destruct (mapM (toArticle label) l W st1) as [[rest|e] st2] eqn:Hrest;
      [|discriminate].
    intros H. inversion H; subst.
    constructor; [eapply toArticle_label; exact Hhead | eapply IH; exact Hrest].
Qed.

End ImporterFacts.

Lemma searchArticles_labels (topic : string) (settings : option AISettings)
    (W : World) (st : Effects) (arts : list Article) :
  fst (searchArticles topic settings W st) = Returned arts ->
  Forall (fun art => a_source art = sourceLabelOf settings /\ a_type art = WebArticle)
         arts.
Proof.
  destruct (searchCall topic settings W st) as [[text|e] st'] eqn:Hcall.
  - rewrite (searchArticles_after_call _ _ _ _ _ _ Hcall). unfold try_catch.
    destruct (Json.parse (cleanJsonText text)) as [[| | | |items|]|];
      try (intros H; inversion H; subst; constructor).
    destruct (mapM _ (indexed items) W st') as [[found|e] st''] eqn:Hrun;
      [|discriminate].
    intros H. inversion H; subst. eapply mapM_toArticle_labels. exact Hrun.
  - unfold searchCall in Hcall. unfold searchArticles, try_catch.
    destruct (providerOf settings);
      (erewrite bind_thrown; [discriminate|]);
      (erewrite bind_thrown; [reflexivity | exact Hcall]).
Qed.

(** X22. The importer's search ignores a blank query and never throws.  It
    imports at most one article, the first of those [searchArticles] found,
    and since it passes no settings the request goes to the native backend
    and the article is labelled with the source ["Google Search"]. *)
Theorem handleSearch_first_only (searchQuery : string) (W : World) (st : Effects) :
  (Js.trim searchQuery = "" ->
   handleSearch searchQuery W st = (Returned Ignored, st)) /\
  exists r st',
    handleSearch searchQuery W st = (Returned r, st') /\
    routed None st st' /\
    (forall article,
        r = Imported article ->
        a_source article = "Google Search" /\ a_type article = WebArticle /\
        exists others,
          fst (searchArticles searchQuery None W st) = Returned (article :: others)).
Proof.
  unfold handleSearch. split; [intros Hblank; rewrite Hblank; reflexivity|].
  destruct (String.eqb (Js.trim searchQuery) "").
  { exists Ignored, st. split; [reflexivity|]. split; [apply routed_none|].
    intros article H. discriminate. }
  pose proof (searchArticles_requests None W st searchQuery) as Hreq.
  pose proof (callAI_routed None W st (PromptText (FindArticles searchQuery)) None
                (Some [googleSearch])) as Hrouted.
  pose proof (searchArticles_labels searchQuery None W st) as Hlabels.
  unfold try_catch, bind.
  destruct (searchArticles searchQuery None W st) as [[[|first others]|e] st'];
    simpl in Hreq, Hlabels.
  - exists (Alerted NoArticlesFound), st'. split; [reflexivity|].
    split; [eapply routed_same; [symmetry; exact Hreq | exact Hrouted]|].
    intros article H. discriminate.
  - exists (Imported first), st'. split; [reflexivity|].
    split; [eapply routed_same; [symmetry; exact Hreq | exact Hrouted]|].
    intros article H. injection H as <-.
    specialize (Hlabels _ eq_refl). inversion Hlabels as [|? ? [Hs Ht] _]; subst.
    split; [exact Hs|]. split; [exact Ht|]. exists others. reflexivity.
  - exists (Alerted FetchingFailed), st'. split; [reflexivity|].
    split; [eapply routed_same; [symmetry; exact Hreq | exact Hrouted]|].
    intros article H. discriminate.
Qed.

Lemma handleSearch_first_only_witness :
  handleSearch "   " (nativeSays oneArticle) start = (Returned Ignored, start).
Proof.
  apply (handleSearch_first_only "   " (nativeSays oneArticle) start). reflexivity.
Defined.

Section SettingsFacts.

Lemma truthy_orElse (x : option string) : truthy (Some (orElse x "")) = truthy x.
Proof.
  destruct x as [t|]; [|reflexivity]. unfold orElse, truthy.
  destruct (String.eqb t "") eqn:Ht; [reflexivity | rewrite Ht; reflexivity].
Qed.

Lemma formInit_credentials (s : AISettings) :
  credentials (Some (formInit s)) = credentials (Some s).
Proof.
  unfold credentials, formInit. cbn [baseUrl customApiKey].
  rewrite !truthy_orElse. reflexivity.
Qed.

Lemma formInit_callAI (s : AISettings) prompt schema tools :
  callAI prompt (Some (formInit s)) schema tools = callAI prompt (Some s) schema tools.
Proof.
  unfold callAI. rewrite formInit_credentials. reflexivity.
Qed.

Lemma formStep_no_key (f : AISettings) (a : FormAction) :
  truthy (customApiKey f) = None -> typesNoKey a = true ->
  truthy (customApiKey (formStep f a)) = None.
Proof.
  intros Hf Ha. destruct a; cbn; try exact Hf; [|reflexivity].
  cbn in Ha. unfold truthy. rewrite Ha. reflexivity.
Qed.

Lemma edit_no_key (acts : list FormAction) (f : AISettings) :
  truthy (customApiKey f) = None -> forallb typesNoKey acts = true ->
  truthy (customApiKey (fold_left formStep acts f)) = None.
Proof.
  revert f. induction acts as [|a acts IH]; intros f Hf Hall; [exact Hf|].
  cbn in Hall. apply andb_true_iff in Hall. destruct Hall as [Ha Hall].
  cbn [fold_left]. apply IH; [apply formStep_no_key; assumption | exact Hall].
Qed.

End SettingsFacts.

(** X23. Opening the settings form and saving it untouched changes nothing
    for the service: the form fills an absent base URL or key with the empty
    text, which every operation treats as absent. *)
Theorem settings_form_untouched (s : AISettings) :
  credentials (Some (editSettings s [])) = credentials (Some s) /\
  (forall prompt schema tools,
      callAI prompt (Some (editSettings s [])) schema tools
      = callAI prompt (Some s) schema tools) /\
  (forall topic, searchArticles topic (Some (editSettings s []))
                 = searchArticles topic (Some s)) /\
  (forall w context, defineWord w context (Some (editSettings s []))
                     = defineWord w context (Some s)) /\
  (forall text, translateText text (Some (editSettings s []))
                = translateText text (Some s)) /\
  (forall words, assessLevel words (Some (editSettings s []))
                 = assessLevel words (Some s)) /\
  (forall w, generateQuizForWord w (Some (editSettings s []))
             = generateQuizForWord w (Some s)) /\
  (forall lvl known requirements,
      generateExam lvl known requirements (Some (editSettings s []))
      = generateExam lvl known requirements (Some s)) /\
  (forall rawText fileName,
      processImportedText rawText fileName (Some (editSettings s []))
      = processImportedText rawText fileName (Some s)) /\
  (forall history message context,
      chatWithTutor history message context (Some (editSettings s []))
      = chatWithTutor history message context (Some s)).
Proof.
  unfold editSettings. cbn [fold_left].
  split; [apply formInit_credentials|].
  split; [intros; apply formInit_callAI|].
  repeat split; intros.
  - unfold searchArticles. cbn [providerOf formInit provider].
    rewrite !formInit_callAI. reflexivity.
  - unfold defineWord. rewrite formInit_callAI. reflexivity.
  - unfold translateText. rewrite formInit_callAI. reflexivity.
  - unfold assessLevel. rewrite formInit_callAI. reflexivity.
  - unfold generateQuizForWord. rewrite formInit_callAI. reflexivity.
  - unfold generateExam. rewrite formInit_callAI. reflexivity.
  - unfold processImportedText. rewrite formInit_callAI. reflexivity.
  - unfold chatWithTutor. rewrite formInit_credentials. reflexivity.
Qed.

(** X24. As long as no key is typed into the form, settings that had no key
    and are saved with the generic provider selected make every [callAI]
    throw the missing-credentials error without sending anything, whatever
    else was selected or typed. *)
Theorem no_key_typed_no_request (s : AISettings) (actions : list FormAction)
    (W : World) (st : Effects) :
  truthy (customApiKey s) = None ->
  forallb typesNoKey actions = true ->
  provider (editSettings s actions) = custom ->
  forall prompt schema tools,
    callAI prompt (Some (editSettings s actions)) schema tools W st
    = (Thrown missingCredentials, st).
Proof.
  intros Hs Hacts Hp prompt schema tools.
  apply callAI_missing_credentials; [exact Hp|].
  apply missing_credentials. right. unfold editSettings.
  apply edit_no_key; [|exact Hacts].
  unfold formInit. cbn [customApiKey]. rewrite truthy_orElse. exact Hs.
Qed.

Lemma no_key_typed_no_request_witness :
  callAI (PromptText (Translate "hello"))
         (Some (editSettings initialSettings
                  [SelectCustom; TypeBaseUrl "https://api.openai.com/v1";
                   ChooseModel "gpt-4o"]))
         None None offline start
  = (Thrown missingCredentials, start).
Proof.
  apply (no_key_typed_no_request initialSettings
           [SelectCustom; TypeBaseUrl "https://api.openai.com/v1";
            ChooseModel "gpt-4o"] offline start); reflexivity.
Defined.

(** * Properties of the quiz popup and of the percentages shown *)

Section RationalFacts.

Lemma percent_bounds (c N : nat) :
  (c <= N)%nat -> (0 < N)%nat ->
  0 <= Math_round (Double.mul (Double.div (inject_Z (Z.of_nat c))
                                          (inject_Z (Z.of_nat N))) 100) <= 100.
Proof.
  intros Hc HN. unfold Math_round.
  destruct (percentage (Z.of_nat c) (Z.of_nat N) ltac:(lia) ltac:(lia))
    as [[H0 H100] _].
  split.
  - change 0 with (Qfloor (0 + (1 # 2))). apply Qfloor_resp_le.
    apply Qplus_le_compat; [exact H0 | apply Qle_refl].
  - change 100 with (Qfloor (100 + (1 # 2))). apply Qfloor_resp_le.
    apply Qplus_le_compat; [exact H100 | apply Qle_refl].
Qed.

Lemma randomIndex_bounds (r : Q) (n : nat) :
  (0 <= r)%Q -> (r < 1)%Q -> (0 < n)%nat ->
  0 <= randomIndex r n < Z.of_nat n.
Proof.
  intros H0 H1 Hn. unfold randomIndex. split.
  - change 0 with (Qfloor 0). apply Qfloor_resp_le.
    apply Qmult_le_0_compat; [exact H0|].
    change 0%Q with (inject_Z 0). rewrite <- Zle_Qle. lia.
  - rewrite Zlt_Qlt. eapply Qle_lt_trans; [apply Qfloor_le|].
    rewrite <- (Qmult_1_l (inject_Z (Z.of_nat n))) at 2.
    apply Qmult_lt_compat_r; [|exact H1].
    change 0%Q with (inject_Z 0). rewrite <- Zlt_Qlt. lia.
Qed.

End RationalFacts.

Lemma generateQuizForWord_explains (w : string) (settings : option AISettings)
    (W : World) (st st' : Effects) (q : GeneratedQuiz) :
  generateQuizForWord w settings W st = (Returned q, st') ->
  g_explanation q = "The correct answer is " ++ w ++ "." /\
  routed settings st st'.
Proof.
  pose proof (callAI_routed settings W st (PromptText (MakeQuiz w))
                (Some quizSchema) None) as Hr.
  unfold generateQuizForWord, try_catch, bind. case_callAI; [|discriminate].
  unfold JSON_parse. destruct (Json.parse _) as [data|]; [|discriminate].
  destruct data; cbn; intros H; inversion H; subst; split;
    try reflexivity; exact Hr.
Qed.

Lemma generateQuizForWord_failure_routed (w : string) (settings : option AISettings)
    (W : World) (st : Effects) :
  routed settings st (snd (generateQuizForWord w settings W st)).
Proof.
  pose proof (callAI_routed settings W st (PromptText (MakeQuiz w))
                (Some quizSchema) None) as Hr.
  unfold generateQuizForWord, try_catch, bind. case_callAI; [|exact Hr].
  unfold JSON_parse. destruct (Json.parse _) as [data|]; [|exact Hr].
  destruct data; exact Hr.
Qed.

(** X25. A popup that is showing ignores the trigger.  Otherwise, with at
    least one saved word and [Math.random()] in [[0, 1)], [triggerQuiz] never
    throws: the word it picks is one of the saved words, its identifier
    becomes the target, at most one request is sent, to the native backend,
    and the popup ends up showing a question about that word, or hidden when
    the generation failed. *)
Theorem triggerQuiz_picks (words : list SavedWord) (random : Q)
    (s : QuizPopupState) (W : World) (st : Effects) :
  (isVisible s = true -> triggerQuiz words random s W st = (Returned s, st)) /\
  ((0 <= random)%Q -> (random < 1)%Q -> words <> [] -> isVisible s = false ->
   exists w s' st',
     In w words /\
     triggerQuiz words random s W st = (Returned s', st') /\
     targetWordId s' = Some (sw_id w) /\
     loading s' = false /\
     routed None st st' /\
     ((isVisible s' = false /\ popupQuestion s' = popupQuestion s) \/
      (isVisible s' = true /\
       exists q, popupQuestion s' = Some q /\
                 g_explanation q = "The correct answer is " ++ word w ++ "."))).
Proof.
  unfold triggerQuiz. split; [intros Hv; rewrite Hv; reflexivity|].
  intros H0 H1 Hne Hv. rewrite Hv.
  assert (Hn : (0 < length words)%nat) by (destruct words; [congruence | simpl; lia]).
  pose proof (randomIndex_bounds random (length words) H0 H1 Hn) as [Hlo Hhi].
  unfold Js.index.
  destruct (randomIndex random (length words) <? 0) eqn:Hneg;
    [apply Z.ltb_lt in Hneg; lia|].
  destruct (nth_error words (Z.to_nat (randomIndex random (length words))))
    as [w|] eqn:Hnth; [|apply nth_error_None in Hnth; lia].
  exists w. unfold try_catch, bind.
  pose proof (generateQuizForWord_failure_routed (word w) None W st) as Hfail.
  destruct (generateQuizForWord (word w) None W st) as [[q|e] st'] eqn:Hgen.
  - apply generateQuizForWord_explains in Hgen. destruct Hgen as [Hex Hr].
    eexists. exists st'. split; [eapply nth_error_In; exact Hnth|].
    split; [reflexivity|]. repeat split; try exact Hr.
    right. split; [reflexivity|]. exists q. split; [reflexivity | exact Hex].
  - eexists. exists st'. split; [eapply nth_error_In; exact Hnth|].
    split; [reflexivity|]. repeat split; try exact Hfail.
    left. split; reflexivity.
Qed.

Lemma triggerQuiz_picks_witness :
  exists w s' st',
    In w sampleWords /\
    triggerQuiz sampleWords (1 # 2) hidden (nativeSays goodQuiz) start
    = (Returned s', st') /\
    targetWordId s' = Some (sw_id w) /\
    loading s' = false /\
    routed None start st' /\
    ((isVisible s' = false /\ popupQuestion s' = popupQuestion hidden) \/
     (isVisible s' = true /\
      exists q, popupQuestion s' = Some q /\
                g_explanation q = "The correct answer is " ++ word w ++ ".")).
Proof.
  apply (triggerQuiz_picks sampleWords (1 # 2) hidden (nativeSays goodQuiz) start);
    try reflexivity; discriminate.
Defined.

(** X26. Only the first click on a question counts.  A click that reports a
    result does so for the target word and says success exactly when the
    index clicked is the question's [correctOptionIndex]; any click after it,
    and any click on a closed popup, changes nothing and reports nothing. *)
Theorem quiz_click_counts_once (index : Z) (s s1 : QuizPopupState)
    (call : string * bool) :
  (handleOptionClick index s = (s1, Some call) ->
   exists q id,
     popupQuestion s = Some q /\ targetWordId s = Some id /\ id <> "" /\
     call = (id, isRightOption index q) /\
     selectedOption s1 = Some index /\
     forall again, handleOptionClick again s1 = (s1, None)) /\
  (forall again, handleOptionClick again (handleClose s) = (handleClose s, None)).
Proof.
  split; [|reflexivity].
  unfold handleOptionClick.
  destruct (selectedOption s) eqn:Hsel; [discriminate|].
  destruct (popupQuestion s) as [q|] eqn:Hq; [|discriminate].
  destruct (truthy (targetWordId s)) as [id|] eqn:Hid; [|discriminate].
  intros H. inversion H; subst. exists q, id.
  unfold truthy in Hid. destruct (targetWordId s) as [t|] eqn:Ht; [|discriminate].
  destruct (String.eqb t "") eqn:Hempty; [discriminate|]. inversion Hid; subst.
  repeat split.
  intros Heq. rewrite Heq in Hempty. discriminate.
Qed.

Lemma quiz_click_counts_once_witness :
  exists q id,
    popupQuestion asking = Some q /\ targetWordId asking = Some id /\ id <> "" /\
    ("2", true) = (id, isRightOption 1 q) /\
    selectedOption (answered 1) = Some 1 /\
    forall again, handleOptionClick again (answered 1) = (answered 1, None).
Proof.
  apply (proj1 (quiz_click_counts_once 1 asking (answered 1) ("2", true))).
  reflexivity.
Defined.

(** X27. For an exam with at least one question, the percentage on the
    result screen is the one the notebook shows for the recorded result, and
    it lies between 0 and 100. *)
Theorem percent_shown_consistently (questions : list QuizQuestion)
    (answers : list Z) (now1 now2 : Z) :
  questions <> [] ->
  shownPercent questions answers
  = historyPercent (calculateResult questions answers now1 now2) /\
  0 <= shownPercent questions answers <= 100.
Proof.
  intros Hne.
  assert (Hsame : filter (fun iq : nat * QuizQuestion =>
                            match nth_error answers (fst iq) with
                            | Some a => correctOptionIndex (snd iq) =? a
                            | None => false
                            end) (indexed questions)
                  = filter (rightAt answers) (indexed questions)).
  { apply filter_ext. intros [i q]. unfold rightAt, isCorrect. cbn [fst snd].
    destruct (nth_error answers i); [apply Z.eqb_sym | reflexivity]. }
  unfold shownPercent, historyPercent. rewrite Hsame. split.
  - unfold calculateResult, grade. rewrite grade_fold. cbn [score].
    rewrite Z.add_0_l. reflexivity.
  - apply percent_bounds.
    + rewrite <- (indexed_length questions). apply filter_length_le.
    + destruct questions; [congruence | simpl; lia].
Qed.

Lemma percent_shown_consistently_witness :
  shownPercent threeQuestions [0; 0; 1]
  = historyPercent (calculateResult threeQuestions [0; 0; 1] 5 6) /\
  0 <= shownPercent threeQuestions [0; 0; 1] <= 100.
Proof.
  apply (percent_shown_consistently threeQuestions [0; 0; 1] 5 6). discriminate.
Defined.
